(** * Symbolic resolution in the Kaffe virtual machine

    A shallow embedding of [kaffe/kaffevm/lookup.c] (constant-pool
    resolution of classes, methods and fields, and the local method
    search) and of [java_lang_Class_forName] from
    [libraries/clib/native/Class.c], followed by the properties the
    specification states about them.

    Conventions of the embedding:
    - a [Hjava_lang_Class*] is a key into an arena of class records, and
      the null pointer is [None];
    - a [Method*] is the pair of the class whose table holds the record
      and the position of the record in that table;
    - C out-parameters ([callInfo*], [fieldInfo*], [errorInfo*]) are
      passed in with the caller's contents and returned with the
      callee's writes, so that "left unwritten" is observable;
    - a dereference of a pointer that is not in the arena, an array
      access out of bounds, a payload read at the wrong type and a
      failed [assert] are [Fault], while a payload that is only cast to
      a pointer and stored is not; a loop that has not finished within
      the given number of iterations is [OutOfFuel];
    - a message handed to [postExceptionMessage] as its format goes
      through the formatting of a format without arguments. *)

From Stdlib Require Import ZArith Ascii String.
From stdpp Require Import base option list gmap strings pretty.

Open Scope Z_scope.

(** ** Results of partial computations *)

Inductive Result (A : Type) : Type :=
| Ok (a : A)
| Fault
| OutOfFuel.
Arguments Ok {A} a.
Arguments Fault {A}.
Arguments OutOfFuel {A}.

Definition bind {A B : Type} (r : Result A) (f : A -> Result B) : Result B :=
  match r with
  | Ok a => f a
  | Fault => Fault
  | OutOfFuel => OutOfFuel
  end.

Notation "'let*' x ':=' c 'in' k" := (bind c (fun x => k))
  (at level 10, x name, c at level 100, k at level 200).

Definition of_option {A} (o : option A) : Result A :=
  match o with
  | Some a => Ok a
  | None => Fault
  end.

(** ** Constants of the class-file format and of the VM headers *)

(** Interned strings: [utf8ConstEqual] compares the handles, and two
    handles are equal exactly when the strings are. *)
Abbreviation Utf8Const := string (only parsing).
Abbreviation ClassRef := positive (only parsing).
Abbreviation MethodRef := (positive * nat)%type (only parsing).
Abbreviation FieldRef := (positive * nat)%type (only parsing).
Abbreviation LoaderRef := (option positive) (only parsing).

Definition utf8ConstEqual (a b : Utf8Const) : bool := String.eqb a b.

(** Modelled from the spec: the tag enumeration of section 3
    (constants.h is not under src/), with the numbering of the class
    file format; the resolved tag is the VM's own. *)
Definition CONSTANT_Utf8 : Z := 1.
Definition CONSTANT_Class : Z := 7.
Definition CONSTANT_Fieldref : Z := 9.
Definition CONSTANT_Methodref : Z := 10.
Definition CONSTANT_InterfaceMethodref : Z := 11.
Definition CONSTANT_NameAndType : Z := 12.
Definition CONSTANT_ResolvedClass : Z := 16 + CONSTANT_Class.

(** Modelled from the spec: the access flags named in lookup.c and
    Class.c (access.h is not under src/), with the class-file values. *)
Definition ACC_NATIVE : Z := 0x0100.
Definition ACC_INTERFACE : Z := 0x0200.
Definition ACC_ABSTRACT : Z := 0x0400.

(** Modelled from the spec: the linkage states of section 3
    (classMethod.h is not under src/), in increasing order, with the
    absorbing failure state below all of them. *)
Definition CSTATE_FAILED : Z := -1.
Definition CSTATE_LOADED : Z := 1.
Definition CSTATE_LINKED : Z := 2.
Definition CSTATE_VERIFIED : Z := 3.
Definition CSTATE_COMPLETE : Z := 5.

(** Modelled from the spec: the name of instance-initialisation methods
    (baseClasses.c is not under src/). *)
Definition constructor_name : Utf8Const := "<init>".

(** ** Error descriptors *)

(** Modelled from the spec: the error descriptor of section 3, with the
    members Class.c reads (errors.h is not under src/). *)
Record errorInfo : Type := mkErrorInfo {
  einfo_type : Z;
  einfo_classname : string;
  einfo_mess : string
}.

(** The type bit of an error that names an exception class. *)
Definition KERR_EXCEPTION : Z := 0x0001.

Definition JAVA_LANG (n : string) : string := "java.lang." +:+ n.

Definition postException (classname : string) : errorInfo :=
  mkErrorInfo KERR_EXCEPTION classname "".

Definition postExceptionMessage (classname mess : string) : errorInfo :=
  mkErrorInfo KERR_EXCEPTION classname mess.

(** [printf] formatting of a format that is passed without arguments,
    as [postExceptionMessage(einfo, class, mess)] does with a message:
    the two characters of a doubled per-cent sign are written as one,
    every other character is written as it is, and a conversion
    specification, or a per-cent sign at the end, reads an argument that
    is not there, which is a fault. *)
Fixpoint printf_no_args (fmt : string) : Result string :=
  match fmt with
  | EmptyString => Ok EmptyString
  | String c rest =>
      if Ascii.eqb c "%" then
        match rest with
        | String c' rest' =>
            if Ascii.eqb c' "%" then
              let* out := printf_no_args rest' in Ok (String "%" out)
            else Fault
        | EmptyString => Fault
        end
      else
        let* out := printf_no_args rest in Ok (String c out)
  end.

(** [postExceptionMessage(einfo, classname, fmt)] *)
Definition postExceptionFormat (classname fmt : string) : Result errorInfo :=
  let* mess := printf_no_args fmt in
  Ok (postExceptionMessage classname mess).

#[global] Instance errorInfo_eq_dec : EqDecision errorInfo.
Proof. solve_decision. Defined.

(** ** Classes, methods and the constant pool *)

(** What the native-code slot of a method holds. *)
Inductive NativeCode : Type :=
| NoCode
| Code (entry : Z)
| throwAbstractMethodError.

#[global] Instance NativeCode_eq_dec : EqDecision NativeCode.
Proof. solve_decision. Defined.

Record Method : Type := mkMethod {
  m_name : Utf8Const;
  m_signature : Utf8Const;
  m_accflags : Z;
  m_class : ClassRef;
  m_ncode : NativeCode
}.

#[global] Instance Method_eq_dec : EqDecision Method.
Proof. solve_decision. Defined.

Record Field : Type := mkField {
  f_name : Utf8Const;
  f_signature : Utf8Const;
  f_accflags : Z
}.

#[global] Instance Field_eq_dec : EqDecision Field.
Proof. solve_decision. Defined.

(** The payload of a constant-pool slot: a raw word (for the entries
    that pack two indices), an interned string or a class. *)
Inductive ConstSlot : Type :=
| SlotWord (w : Z)
| SlotUtf8 (u : Utf8Const)
| SlotClass (c : ClassRef).

#[global] Instance ConstSlot_eq_dec : EqDecision ConstSlot.
Proof. solve_decision. Defined.

Record constants : Type := mkConstants {
  tags : list Z;
  data : list ConstSlot
}.

#[global] Instance constants_eq_dec : EqDecision constants.
Proof. solve_decision. Defined.

(** The class record.  [c_interfaces] is the [interfaces] array with
    its [total_interface_len] entries; the first [c_interface_len] of
    them are the interfaces the class names itself (what
    [java_lang_Class_getInterfaces] reports), the others are the
    inherited ones ([getInterfaceMethods0] reads all of them to reach
    the superinterfaces).  [c_methods] is the method table with its
    [CLASS_NMETHODS] entries. *)
Record Hjava_lang_Class : Type := mkClass {
  c_name : Utf8Const;
  c_accflags : Z;
  c_superclass : option ClassRef;
  c_interfaces : list ClassRef;
  c_interface_len : nat;
  c_constants : constants;
  c_methods : list Method;
  c_fields : list Field;
  c_loader : LoaderRef;
  c_state : Z
}.

#[global] Instance Hjava_lang_Class_eq_dec : EqDecision Hjava_lang_Class.
Proof. solve_decision. Defined.

Abbreviation Arena := (gmap positive Hjava_lang_Class) (only parsing).

Definition total_interface_len (k : Hjava_lang_Class) : nat :=
  length (c_interfaces k).

Definition CLASS_IS_INTERFACE (k : Hjava_lang_Class) : bool :=
  negb (Z.land (c_accflags k) ACC_INTERFACE =? 0).

Definition METHOD_SIG (m : Method) : Utf8Const := m_signature m.

Definition deref (h : Arena) (c : ClassRef) : Result Hjava_lang_Class :=
  of_option (h !! c).

(** Modelled from the spec: the payload accessors (constants.h is not
    under src/).  An entry that refers to two others is a raw index
    pair: the first index in the low half-word, the second in the high
    half-word. *)
Definition slot_word (s : ConstSlot) : Result Z :=
  match s with
  | SlotWord w => Ok w
  | _ => Fault
  end.

Definition WORD2UTF (s : ConstSlot) : Result Utf8Const :=
  match s with
  | SlotUtf8 u => Ok u
  | _ => Fault
  end.

Definition pool_data (pool : constants) (idx : nat) : Result ConstSlot :=
  of_option (data pool !! idx).

Definition pool_tag (pool : constants) (idx : nat) : Result Z :=
  of_option (tags pool !! idx).

Definition pool_utf8 (pool : constants) (idx : nat) : Result Utf8Const :=
  let* s := pool_data pool idx in
  WORD2UTF s.

Definition low16 (idx : nat) (pool : constants) : Result nat :=
  let* s := pool_data pool idx in
  let* w := slot_word s in
  Ok (Z.to_nat (Z.land w 0xFFFF)).

Definition high16 (idx : nat) (pool : constants) : Result nat :=
  let* s := pool_data pool idx in
  let* w := slot_word s in
  Ok (Z.to_nat (Z.land (Z.shiftr w 16) 0xFFFF)).

Definition METHODREF_CLASS := low16.
Definition METHODREF_NAMEANDTYPE := high16.
Definition FIELDREF_CLASS := low16.
Definition FIELDREF_NAMEANDTYPE := high16.
Definition NAMEANDTYPE_NAME := low16.
Definition NAMEANDTYPE_SIGNATURE := high16.

Definition CLASS_CLASS (idx : nat) (pool : constants) : Result ClassRef :=
  let* s := pool_data pool idx in
  match s with
  | SlotClass c => Ok c
  | _ => Fault
  end.

Definition CLASS_CONSTANTS (k : Hjava_lang_Class) : constants := c_constants k.

(** ** In-place updates of the arena *)

Definition set_methods (k : Hjava_lang_Class) (ms : list Method) : Hjava_lang_Class :=
  mkClass (c_name k) (c_accflags k) (c_superclass k) (c_interfaces k)
          (c_interface_len k) (c_constants k) ms (c_fields k)
          (c_loader k) (c_state k).

Definition set_constants (k : Hjava_lang_Class) (p : constants) : Hjava_lang_Class :=
  mkClass (c_name k) (c_accflags k) (c_superclass k) (c_interfaces k)
          (c_interface_len k) p (c_methods k) (c_fields k)
          (c_loader k) (c_state k).

(** [*mptr = m] for the method at position [i] of the table of [class]. *)
Definition store_method (h : Arena) (class : ClassRef) (i : nat) (m : Method) : Arena :=
  match h !! class with
  | Some k => <[class := set_methods k (<[i := m]> (c_methods k))]> h
  | None => h
  end.

(** [pool->data[idx] = d; pool->tags[idx] = t] for the pool of [this]. *)
Definition store_slot (h : Arena) (this : ClassRef) (idx : nat) (t : Z) (d : ConstSlot) : Arena :=
  match h !! this with
  | Some k =>
      let pool := c_constants k in
      <[this := set_constants k (mkConstants (<[idx := t]> (tags pool))
                                             (<[idx := d]> (data pool)))]> h
  | None => h
  end.

(** Modelled from the spec: [SET_METHOD_NATIVECODE] (classMethod.h is
    not under src/) installs the given code as the method's native
    implementation. *)
Definition SET_METHOD_NATIVECODE (m : Method) (c : NativeCode) : Method :=
  mkMethod (m_name m) (m_signature m) (m_accflags m) (m_class m) c.

Definition or_accflags (m : Method) (f : Z) : Method :=
  mkMethod (m_name m) (m_signature m) (Z.lor (m_accflags m) f) (m_class m) (m_ncode m).

(** ** findMethodLocal *)

(** The body of the [if] on a matching entry: the abstract-method patch. *)
Definition patch_abstract (h : Arena) (class : ClassRef) (i : nat) (m : Method) : Result Arena :=
  if negb (Z.land (m_accflags m) ACC_ABSTRACT =? 0) then
    let* dk := deref h (m_class m) in
    if negb (CLASS_IS_INTERFACE dk) then
      Ok (store_method h class i
            (or_accflags (SET_METHOD_NATIVECODE m throwAbstractMethodError) ACC_NATIVE))
    else Ok h
  else Ok h.

(** The scan [for (mptr = CLASS_METHODS(class); --n >= 0; ++mptr)]:
    [ms] is what is left of the table and [i] the position of its head. *)
Fixpoint findMethodLocal_scan (h : Arena) (class : ClassRef)
    (name signature : Utf8Const) (ms : list Method) (i : nat)
  : Result (option MethodRef * Arena) :=
  match ms with
  | [] => Ok (None, h)
  | m :: rest =>
      if utf8ConstEqual name (m_name m) && utf8ConstEqual signature (METHOD_SIG m) then
        let* h' := patch_abstract h class i m in
        Ok (Some (class, i), h')
      else findMethodLocal_scan h class name signature rest (S i)
  end.

Definition findMethodLocal (h : Arena) (class : ClassRef)
    (name signature : Utf8Const) : Result (option MethodRef * Arena) :=
  let* k := deref h class in
  findMethodLocal_scan h class name signature (c_methods k) 0.

(** The method record behind a [Method*]. *)
Definition method_at (h : Arena) (p : MethodRef) : option Method :=
  k ← h !! p.1; c_methods k !! p.2.

(** ** The collaborators outside lookup.c and Class.c *)

Inductive LoadResult : Type :=
| Loaded (c : ClassRef)
| LoadFailed (e : errorInfo).

Inductive FieldResult : Type :=
| FieldFound (f : FieldRef)
| FieldMissing (e : errorInfo).

(** A class entry of the class-entry table: the class it holds, if any. *)
Record classEntry : Type := mkClassEntry {
  centry_class : option ClassRef
}.

Inductive EntryResult : Type :=
| EntryFound (e : classEntry)
| EntryFailed (e : errorInfo).

(** A request to the class loader, as [getClass] or the [forName] entry
    point issues it. *)
Inductive LoadCall : Type :=
| CallLoadClass (name : Utf8Const) (loader : LoaderRef)
| CallLoadArray (name : Utf8Const) (loader : LoaderRef).

(** The functions of the VM that the two files call and that are not
    under src/: the class loader with its class-entry table
    (classMethod.c), the subtype test (soft.c), the signature scanner and
    the per-class field lookup.  The loader works on a state of its own;
    the arena holds every class it can hand out, in the state the loader
    has brought it to.  [processClass] links and initialises a class in
    place: it is given the arena and returns the arena it leaves, with
    the error it reports, if any.  [wild_utf8] is what a pointer made by
    the cast of a payload that is no string is read as; the memory such
    a pointer designates is not part of the arena. *)
Class Collaborators : Type := {
  ExtState : Type;
  loadClass : Utf8Const → LoaderRef → ExtState → LoadResult * ExtState;
  loadArray : Utf8Const → LoaderRef → ExtState → LoadResult * ExtState;
  lookupClassEntry : Utf8Const → LoaderRef → ExtState → EntryResult * ExtState;
  processClass : ClassRef → Z → Arena → ExtState → option errorInfo * Arena * ExtState;
  instanceof : Arena → ClassRef → ClassRef → bool;
  countInsAndOuts : string → Z * Z * ascii;
  lookupClassField : Arena → ClassRef → Utf8Const → bool → FieldResult;
  wild_utf8 : ConstSlot → option Utf8Const
}.

(** [WORD2UTF(w)] where the pointer is stored and not read: the cast
    itself cannot go wrong. *)
Definition cast_utf8 `{Collab : Collaborators} (s : ConstSlot) : option Utf8Const :=
  match s with
  | SlotUtf8 u => Some u
  | _ => wild_utf8 s
  end.

(** ** Bindings returned through out-parameters *)

Record callInfo : Type := mkCallInfo {
  call_class : option ClassRef;
  call_method : option MethodRef;
  call_signature : option Utf8Const;
  call_name : option Utf8Const;
  call_cname : option Utf8Const;
  call_in : Z;
  call_out : Z;
  call_rettype : ascii
}.

Record fieldInfo : Type := mkFieldInfo {
  fi_cname : option Utf8Const;
  fi_name : option Utf8Const;
  fi_signature : option Utf8Const;
  fi_field : option FieldRef;
  fi_class : option ClassRef
}.

(** [call->class = 0; call->method = 0; call->signature = 0;
    call->name = 0; call->cname = 0;] *)
Definition call_clear (call : callInfo) : callInfo :=
  mkCallInfo None None None None None
             (call_in call) (call_out call) (call_rettype call).

Definition call_set_name_sig (call : callInfo) (name sig : Utf8Const) : callInfo :=
  mkCallInfo (call_class call) (call_method call) (Some sig) (Some name)
             (call_cname call) (call_in call) (call_out call) (call_rettype call).

Definition call_set_cname (call : callInfo) (cname : Utf8Const) : callInfo :=
  mkCallInfo (call_class call) (call_method call) (call_signature call)
             (call_name call) (Some cname)
             (call_in call) (call_out call) (call_rettype call).

(** [call->cname = p] for a pointer that may designate no string. *)
Definition call_store_cname (call : callInfo) (p : option Utf8Const) : callInfo :=
  mkCallInfo (call_class call) (call_method call) (call_signature call)
             (call_name call) p
             (call_in call) (call_out call) (call_rettype call).

Definition call_set_class (call : callInfo) (class : ClassRef) : callInfo :=
  mkCallInfo (Some class) (call_method call) (call_signature call)
             (call_name call) (call_cname call)
             (call_in call) (call_out call) (call_rettype call).

Definition call_set_method (call : callInfo) (mptr : option MethodRef) : callInfo :=
  mkCallInfo (call_class call) mptr (call_signature call)
             (call_name call) (call_cname call)
             (call_in call) (call_out call) (call_rettype call).

Definition call_set_counts (call : callInfo) (c : Z * Z * ascii) : callInfo :=
  mkCallInfo (call_class call) (call_method call) (call_signature call)
             (call_name call) (call_cname call) c.1.1 c.1.2 c.2.

Definition first_char_is (s : string) (a : ascii) : bool :=
  match s with
  | String c _ => Ascii.eqb c a
  | EmptyString => false
  end.




Section Lookup.
Context `{Collab : Collaborators}.

(** The machine: the arena of classes, the state of the loader, and the
    requests made to the loader so far. *)
Record Machine : Type := mkMachine {
  vm_classes : Arena;
  vm_ext : ExtState;
  vm_trace : list LoadCall
}.

(** ** getClass *)

(** The call of [loadArray] or [loadClass], chosen by the first
    character of the name, recorded in the trace. *)
Definition load_by_name (name : Utf8Const) (loader : LoaderRef) (vm : Machine)
  : LoadResult * Machine :=
  if first_char_is name "["%char then
    let r := loadArray name loader (vm_ext vm) in
    (r.1, mkMachine (vm_classes vm) r.2 (vm_trace vm ++ [CallLoadArray name loader]))
  else
    let r := loadClass name loader (vm_ext vm) in
    (r.1, mkMachine (vm_classes vm) r.2 (vm_trace vm ++ [CallLoadClass name loader])).

Definition getClass (idx : nat) (this : ClassRef) (einfo : errorInfo) (vm : Machine)
  : Result (option ClassRef * errorInfo * Machine) :=
  let* k := deref (vm_classes vm) this in
  let pool := CLASS_CONSTANTS k in
  let* tag := pool_tag pool idx in
  if tag =? CONSTANT_ResolvedClass then
    let* c := CLASS_CLASS idx pool in
    Ok (Some c, einfo, vm)
  else if tag =? CONSTANT_Class then
    (* lockMutex(this->centry): the tag and the name are read again *)
    let* tag' := pool_tag pool idx in
    let* name := pool_utf8 pool idx in
    if tag' =? CONSTANT_ResolvedClass then
      let* c := CLASS_CLASS idx pool in
      Ok (Some c, einfo, vm)
    else
      let r := load_by_name name (c_loader k) vm in
      match r.1 with
      | LoadFailed e => Ok (None, e, r.2)
      | Loaded class =>
          Ok (Some class, einfo,
              mkMachine
                (store_slot (vm_classes r.2) this idx
                            CONSTANT_ResolvedClass (SlotClass class))
                (vm_ext r.2) (vm_trace r.2))
      end
  else Ok (None, postException (JAVA_LANG "ClassFormatError"), vm).

(** ** getMethodSignatureClass *)

(** [for (; class != 0; class = class->superclass)] around
    [findMethodLocal]. *)
Fixpoint superclass_walk (fuel : nat) (h : Arena) (class : option ClassRef)
    (name sig : Utf8Const) : Result (option MethodRef * Arena) :=
  match class with
  | None => Ok (None, h)
  | Some c =>
      match fuel with
      | O => OutOfFuel
      | S fuel' =>
          let* r := findMethodLocal h c name sig in
          match r.1 with
          | Some mptr => Ok (Some mptr, r.2)
          | None =>
              let* k := deref r.2 c in
              superclass_walk fuel' r.2 (c_superclass k) name sig
          end
      end
  end.

(** [for (i = class->total_interface_len - 1; i >= 0; i--)] around
    [findMethodLocal(class->interfaces[i], ...)]; [n] is [i + 1]. *)
Fixpoint interface_scan (h : Arena) (class : ClassRef) (n : nat)
    (name sig : Utf8Const) : Result (option MethodRef * Arena) :=
  match n with
  | O => Ok (None, h)
  | S i =>
      let* k := deref h class in
      let* c := of_option (c_interfaces k !! i) in
      let* r := findMethodLocal h c name sig in
      match r.1 with
      | Some mptr => Ok (Some mptr, r.2)
      | None => interface_scan r.2 class i name sig
      end
  end.

(** The binding after the five pointers have been cleared and the name
    and the signature stored. *)
Definition named (call : callInfo) (name sig : Utf8Const) : callInfo :=
  call_set_name_sig (call_clear call) name sig.

(** The class the search starts from: the [isSpecial == 1] block. *)
Definition search_root (h : Arena) (isSpecial : Z) (name : Utf8Const)
    (class this : ClassRef) : Result (option ClassRef) :=
  if isSpecial =? 1 then
    if negb (utf8ConstEqual name constructor_name)
       && negb (bool_decide (class = this))
       && instanceof h class this
    then let* kt := deref h this in Ok (c_superclass kt)
    else Ok (Some class)
  else Ok (Some class).

(** The part of the eager branch after the class has been resolved. *)
Definition find_in_hierarchy (fuel : nat) (isSpecial : Z) (name sig : Utf8Const)
    (class this : ClassRef) (call : callInfo) (h : Arena)
  : Result (callInfo * Arena) :=
  let* dk := deref h class in
  if c_state dk <? CSTATE_LINKED then Fault else
  let* root := search_root h isSpecial name class this in
  let* class := of_option root in
  let* rk := deref h class in
  let call := call_set_method (call_set_cname (call_set_class call class) (c_name rk)) None in
  let* w := superclass_walk fuel h (Some class) name sig in
  let call := call_set_method call w.1 in
  if bool_decide (w.1 = None) && (isSpecial =? 2) then
    let* ck := deref w.2 class in
    let* s := interface_scan w.2 class (total_interface_len ck) name sig in
    Ok (call_set_method call s.1, s.2)
  else Ok (call, w.2).

Definition getMethodSignatureClass (fuel : nat) (idx : nat) (this : ClassRef)
    (loadClass : bool) (isSpecial : Z) (call : callInfo) (einfo : errorInfo)
    (vm : Machine) : Result (bool * callInfo * errorInfo * Machine) :=
  let call := call_clear call in
  let* k := deref (vm_classes vm) this in
  let pool := CLASS_CONSTANTS k in
  let* tag := pool_tag pool idx in
  if negb (tag =? CONSTANT_Methodref) && negb (tag =? CONSTANT_InterfaceMethodref) then
    Ok (false, call,
        postExceptionMessage (JAVA_LANG "NoSuchMethodError")
                             ("method name unknown, tag = " +:+ pretty tag),
        vm)
  else
    let* ni := METHODREF_NAMEANDTYPE idx pool in
    let* nn := NAMEANDTYPE_NAME ni pool in
    let* name := pool_utf8 pool nn in
    let* ns := NAMEANDTYPE_SIGNATURE ni pool in
    let* sig := pool_utf8 pool ns in
    let call := call_set_name_sig call name sig in
    if loadClass then
      let* ci := METHODREF_CLASS idx pool in
      let* g := getClass ci this einfo vm in
      match g.1.1 return Result (bool * callInfo * errorInfo * Machine) with
      | None =>
          let* k' := deref (vm_classes g.2) this in
          let* payload := pool_data (CLASS_CONSTANTS k') ci in
          Ok (false,
              call_set_counts (call_store_cname call (cast_utf8 payload))
                              (countInsAndOuts sig),
              g.1.2, g.2)
      | Some class =>
          let* f := find_in_hierarchy fuel isSpecial name sig class this call
                                      (vm_classes g.2) in
          Ok (true, call_set_counts f.1 (countInsAndOuts sig), g.1.2,
              mkMachine f.2 (vm_ext g.2) (vm_trace g.2))
      end
    else
      Ok (true, call_set_counts call (countInsAndOuts sig), einfo, vm).

(** ** getField *)

Definition getField (idx : nat) (this : ClassRef) (isStatic : bool)
    (ret : fieldInfo) (einfo : errorInfo) (vm : Machine)
  : Result (bool * fieldInfo * errorInfo * Machine) :=
  let* k := deref (vm_classes vm) this in
  let pool := CLASS_CONSTANTS k in
  let* tag := pool_tag pool idx in
  if negb (tag =? CONSTANT_Fieldref) then
    Ok (false, ret,
        postExceptionMessage (JAVA_LANG "NoSuchFieldError")
                             ("tag was " +:+ pretty tag),
        vm)
  else
    let* ci := FIELDREF_CLASS idx pool in
    let* g := getClass ci this einfo vm in
    match g.1.1 return Result (bool * fieldInfo * errorInfo * Machine) with
    | None => Ok (false, ret, g.1.2, g.2)
    | Some class =>
        let* ck := deref (vm_classes g.2) class in
        let* k' := deref (vm_classes g.2) this in
        let pool := CLASS_CONSTANTS k' in
        let* ni := FIELDREF_NAMEANDTYPE idx pool in
        let* nn := NAMEANDTYPE_NAME ni pool in
    let* name := pool_utf8 pool nn in
        let* ns := NAMEANDTYPE_SIGNATURE ni pool in
    let* sig := pool_utf8 pool ns in
        let ret := mkFieldInfo (Some (c_name ck)) (Some name) (Some sig)
                               (fi_field ret) (fi_class ret) in
        match lookupClassField (vm_classes g.2) class name isStatic with
        | FieldMissing e => Ok (false, ret, e, g.2)
        | FieldFound field =>
            Ok (true,
                mkFieldInfo (fi_cname ret) (fi_name ret) (fi_signature ret)
                            (Some field) (Some class),
                g.1.2, g.2)
        end
    end.

(** ** java_lang_Class_forName *)


(** The size of the name buffer of [java_lang_Class_forName] is a
    parameter (the header that defines [MAXNAMELEN] is not under
    src/). *)
Variable MAXNAMELEN : nat.





End Lookup.

(** ** A table-driven instance of the collaborators

    Used for the concrete hierarchies below.  The loader answers from a
    fixed table of names; a name that is not in the table is reported as
    [NoClassDefFoundError] with the name as message. *)

Record TableLoader : Type := mkTableLoader {
  tl_answers : list (string * LoadResult);
  tl_entries : list (string * classEntry)
}.

Fixpoint assoc {V : Type} (key : string) (l : list (string * V)) : option V :=
  match l with
  | [] => None
  | (k, v) :: rest => if String.eqb k key then Some v else assoc key rest
  end.

Definition table_load (name : Utf8Const) (loader : LoaderRef) (t : TableLoader)
  : LoadResult * TableLoader :=
  (default (LoadFailed (postExceptionMessage (JAVA_LANG "NoClassDefFoundError") name))
           (assoc name (tl_answers t)), t).

Definition table_entry (name : Utf8Const) (loader : LoaderRef) (t : TableLoader)
  : EntryResult * TableLoader :=
  (EntryFound (default (mkClassEntry None) (assoc name (tl_entries t))), t).

(** Modelled from the spec: the subtype test [instanceof] (soft.c is not
    under src/): [oc] is a subtype of [c] when [c] is [oc], or is in the
    interface array of [oc] or of one of its superclasses, or is one of
    its superclasses. *)
Fixpoint subtype_within (fuel : nat) (h : Arena) (c oc : ClassRef) : bool :=
  match fuel with
  | O => false
  | S fuel' =>
      bool_decide (c = oc)
      || match h !! oc with
         | None => false
         | Some k =>
             bool_decide (c ∈ c_interfaces k)
             || match c_superclass k with
                | None => false
                | Some s => subtype_within fuel' h c s
                end
         end
  end.

Definition table_instanceof (h : Arena) (c oc : ClassRef) : bool :=
  subtype_within (S (size h)) h c oc.

(** Modelled from the spec: the single-class field lookup of section 4.4
    ([lookupClassField] is not under src/): the first field of the class
    with the given name and static-ness. *)
Definition ACC_STATIC : Z := 0x0008.

Fixpoint field_scan (fs : list Field) (name : Utf8Const) (isStatic : bool) (i : nat)
  : option nat :=
  match fs with
  | [] => None
  | f :: rest =>
      if utf8ConstEqual name (f_name f)
         && Bool.eqb (negb (Z.land (f_accflags f) ACC_STATIC =? 0)) isStatic
      then Some i
      else field_scan rest name isStatic (S i)
  end.

Definition table_lookupClassField (h : Arena) (class : ClassRef)
    (name : Utf8Const) (isStatic : bool) : FieldResult :=
  match h !! class with
  | None => FieldMissing (postExceptionMessage (JAVA_LANG "NoSuchFieldError") name)
  | Some k =>
      match field_scan (c_fields k) name isStatic 0 with
      | Some i => FieldFound (class, i)
      | None => FieldMissing (postExceptionMessage (JAVA_LANG "NoSuchFieldError") name)
      end
  end.

(** The signature scanner, for the signatures without arguments that
    the examples use: the return type is the character after "()". *)
Definition table_countInsAndOuts (sig : string) : Z * Z * ascii :=
  match sig with
  | String _ (String _ (String r _)) =>
      (0, if Ascii.eqb r "V"%char then 0 else 1, r)
  | _ => (0, 0, "V"%char)
  end.

(** Processing brings the class to the target state when it is below
    it, and reports no error. *)
Definition table_processClass (class : ClassRef) (target : Z) (h : Arena)
    (t : TableLoader) : option errorInfo * Arena * TableLoader :=
  (None,
   match h !! class with
   | Some k =>
       if c_state k <? target
       then <[class := mkClass (c_name k) (c_accflags k) (c_superclass k)
                               (c_interfaces k) (c_interface_len k) (c_constants k)
                               (c_methods k) (c_fields k) (c_loader k) target]> h
       else h
   | None => h
   end,
   t).

#[local] Instance TableCollab : Collaborators := {|
  ExtState := TableLoader;
  loadClass := table_load;
  loadArray := table_load;
  lookupClassEntry := table_entry;
  processClass := table_processClass;
  instanceof := table_instanceof;
  countInsAndOuts := table_countInsAndOuts;
  lookupClassField := table_lookupClassField;
  wild_utf8 := fun _ => None
|}.

(** An entry that packs the indices [lo] and [hi]. *)
Definition pair_word (lo hi : Z) : ConstSlot :=
  SlotWord (Z.lor lo (Z.shiftl hi 16)).

Definition no_pool : constants := mkConstants [] [].

Definition stale_call : callInfo :=
  mkCallInfo (Some 99%positive) (Some (99%positive, 7%nat)) (Some "stale") (Some "stale")
             (Some "stale") 42 42 "J"%char.

Definition stale_field : fieldInfo :=
  mkFieldInfo (Some "stale") (Some "stale") (Some "stale")
              (Some (99%positive, 7%nat)) (Some 99%positive).

Definition no_error : errorInfo := mkErrorInfo 0 "" "".

(** *** The hierarchy A -> B -> C, each class defining f()V

    C (the context class) refers to B.f()V at index 5, to A.f()V at
    index 7 and to the field B.f at index 8. *)
Module ABC.

Definition A : positive := 1%positive.
Definition B : positive := 2%positive.
Definition C : positive := 3%positive.

Definition f_of (class : positive) (entry : Z) : Method :=
  mkMethod "f" "()V" 0x0001 class (Code entry).

Definition poolC : constants :=
  mkConstants
    [0; CONSTANT_Class; CONSTANT_Utf8; CONSTANT_Utf8; CONSTANT_NameAndType;
     CONSTANT_Methodref; CONSTANT_Class; CONSTANT_Methodref; CONSTANT_Fieldref]
    [SlotWord 0; SlotUtf8 "B"; SlotUtf8 "f"; SlotUtf8 "()V"; pair_word 2 3;
     pair_word 1 4; SlotUtf8 "A"; pair_word 6 4; pair_word 1 4].

Definition classA : Hjava_lang_Class :=
  mkClass "A" 0x0001 None [] 0 no_pool [f_of A 100] [] None CSTATE_LINKED.
Definition classB : Hjava_lang_Class :=
  mkClass "B" 0x0001 (Some A) [] 0 no_pool [f_of B 200] [] None CSTATE_LINKED.
Definition classC : Hjava_lang_Class :=
  mkClass "C" 0x0001 (Some B) [] 0 poolC [f_of C 300] [] None CSTATE_LINKED.

Definition arena : Arena := <[A := classA]> (<[B := classB]> (<[C := classC]> ∅)).

Definition loader : TableLoader :=
  mkTableLoader [("A", Loaded A); ("B", Loaded B); ("C", Loaded C)] [].

Definition vm : Machine := mkMachine arena loader [].

(** The same classes behind a loader that finds nothing. *)
Definition offline : TableLoader := mkTableLoader [] [].
Definition vm_offline : Machine := mkMachine arena offline [].

End ABC.

(** *** A class X implementing I, where I extends J and only J declares g()V

    In [arena] the interface array of X is as the reflection code reads
    it: the interface X names itself (I) first, the inherited one (J)
    after it.  In [arena_direct] the array holds I alone.  X refers to
    X.g()V at index 5. *)
Module XIJ.

Definition X : positive := 1%positive.
Definition I : positive := 2%positive.
Definition J : positive := 3%positive.
Definition Object : positive := 4%positive.

Definition g_of_J : Method := mkMethod "g" "()V" 0x0401 J NoCode.

Definition poolX : constants :=
  mkConstants
    [0; CONSTANT_Class; CONSTANT_Utf8; CONSTANT_Utf8; CONSTANT_NameAndType;
     CONSTANT_Methodref]
    [SlotWord 0; SlotUtf8 "X"; SlotUtf8 "g"; SlotUtf8 "()V"; pair_word 2 3;
     pair_word 1 4].

Definition classObject : Hjava_lang_Class :=
  mkClass "java/lang/Object" 0x0001 None [] 0 no_pool [] [] None CSTATE_LINKED.
Definition classJ : Hjava_lang_Class :=
  mkClass "J" 0x0601 (Some Object) [] 0 no_pool [g_of_J] [] None CSTATE_LINKED.
Definition classI : Hjava_lang_Class :=
  mkClass "I" 0x0601 (Some Object) [J] 1 no_pool [] [] None CSTATE_LINKED.
Definition classX (ifaces : list positive) : Hjava_lang_Class :=
  mkClass "X" 0x0001 (Some Object) ifaces 1 poolX [] [] None CSTATE_LINKED.

Definition arena_with (ifaces : list positive) : Arena :=
  <[X := classX ifaces]> (<[I := classI]> (<[J := classJ]> (<[Object := classObject]> ∅))).

Definition arena : Arena := arena_with [I; J].
Definition arena_direct : Arena := arena_with [I].

Definition loader : TableLoader :=
  mkTableLoader [("X", Loaded X); ("I", Loaded I); ("J", Loaded J)] [].

Definition vm : Machine := mkMachine arena loader [].
Definition vm_direct : Machine := mkMachine arena_direct loader [].

End XIJ.

(** *** An abstract class with an abstract method *)
Module Shape.

Definition Shape : positive := 1%positive.

Definition area : Method := mkMethod "area" "()D" 0x0401 Shape NoCode.
Definition describe : Method := mkMethod "describe" "()V" 0x0001 Shape (Code 64).

Definition classShape : Hjava_lang_Class :=
  mkClass "Shape" 0x0401 None [] 0 no_pool [describe; area] [] None CSTATE_LINKED.

Definition arena : Arena := <[Shape := classShape]> ∅.

End Shape.

(** *** Failing loads behind the forName entry point

    "Bad" fails verification and its class is left FAILED; "pkg/Gone"
    is not found; "pkg/Child" fails because "pkg/Parent" is not found;
    "Twice" is the second attempt on a class that has already failed. *)
Module Failing.

Definition Bad : positive := 1%positive.
Definition Twice : positive := 2%positive.

Definition failed_class (name : string) : Hjava_lang_Class :=
  mkClass name 0x0001 None [] 0 no_pool [] [] None CSTATE_FAILED.

Definition arena : Arena := <[Bad := failed_class "Bad"]> (<[Twice := failed_class "Twice"]> ∅).

Definition verify_error (mess : string) : errorInfo :=
  postExceptionMessage (JAVA_LANG "VerifyError") mess.
Definition not_found (mess : string) : errorInfo :=
  postExceptionMessage (JAVA_LANG "NoClassDefFoundError") mess.

Definition loader : TableLoader :=
  mkTableLoader
    [("Bad", LoadFailed (verify_error "Bad"));
     ("Odd", LoadFailed (verify_error "100%% odd"));
     ("pkg/Gone", LoadFailed (not_found "pkg/Gone"));
     ("pkg/Child", LoadFailed (not_found "pkg/Parent"));
     ("Twice", LoadFailed (not_found "Twice"))]
    [("Bad", mkClassEntry (Some Bad)); ("Twice", mkClassEntry (Some Twice))].

Definition vm : Machine := mkMachine arena loader [].

End Failing.

(** *** A pool whose method reference names a slot that is no class

    Slot 4 of the pool of S is a method reference to m()V whose class
    index is 3, the name-and-type entry. *)
Module Skewed.

Definition S : positive := 1%positive.

Definition poolS : constants :=
  mkConstants
    [0; CONSTANT_Utf8; CONSTANT_Utf8; CONSTANT_NameAndType; CONSTANT_Methodref]
    [SlotWord 0; SlotUtf8 "m"; SlotUtf8 "()V"; pair_word 1 2; pair_word 3 3].

Definition classS : Hjava_lang_Class :=
  mkClass "S" 0x0001 None [] 0 poolS [] [] None CSTATE_LINKED.

Definition arena : Arena := <[S := classS]> ∅.

Definition vm : Machine := mkMachine arena (mkTableLoader [] []) [].

End Skewed.

(** ** Predicates used in the statements *)


(** Slot [idx] of the pool of [this] is a method reference whose class
    entry is slot [ci] and whose name-and-type entry gives [name] and
    [sig]. *)
Definition methodref_at (h : Arena) (this : ClassRef) (idx ci : nat)
    (name sig : Utf8Const) : Prop :=
  ∃ k tag ni nn ns,
    h !! this = Some k
    ∧ tags (c_constants k) !! idx = Some tag
    ∧ (tag = CONSTANT_Methodref ∨ tag = CONSTANT_InterfaceMethodref)
    ∧ METHODREF_NAMEANDTYPE idx (c_constants k) = Ok ni
    ∧ NAMEANDTYPE_NAME ni (c_constants k) = Ok nn
    ∧ pool_utf8 (c_constants k) nn = Ok name
    ∧ NAMEANDTYPE_SIGNATURE ni (c_constants k) = Ok ns
    ∧ pool_utf8 (c_constants k) ns = Ok sig
    ∧ METHODREF_CLASS idx (c_constants k) = Ok ci.

(** Slot [idx] of the pool of [this] is a field reference, likewise. *)
Definition fieldref_at (h : Arena) (this : ClassRef) (idx ci : nat)
    (name sig : Utf8Const) : Prop :=
  ∃ k ni nn ns,
    h !! this = Some k
    ∧ tags (c_constants k) !! idx = Some CONSTANT_Fieldref
    ∧ FIELDREF_CLASS idx (c_constants k) = Ok ci
    ∧ FIELDREF_NAMEANDTYPE idx (c_constants k) = Ok ni
    ∧ NAMEANDTYPE_NAME ni (c_constants k) = Ok nn
    ∧ pool_utf8 (c_constants k) nn = Ok name
    ∧ NAMEANDTYPE_SIGNATURE ni (c_constants k) = Ok ns
    ∧ pool_utf8 (c_constants k) ns = Ok sig.

(** The tag and the payload of slot [idx] of the pool of [this]. *)
Definition slot_of (h : Arena) (this : ClassRef) (idx : nat) : option (Z * ConstSlot) :=
  k ← h !! this;
  t ← tags (c_constants k) !! idx;
  d ← data (c_constants k) !! idx;
  Some (t, d).

(** Two arenas with the same constant pools. *)
Definition same_pools (h h' : Arena) : Prop :=
  ∀ c, c_constants <$> (h' !! c) = c_constants <$> (h !! c).

(** Every class pointer stored in the arena points into the arena. *)
Definition closed (h : Arena) : Prop :=
  ∀ c k, h !! c = Some k →
    (∀ s, c_superclass k = Some s → is_Some (h !! s))
    ∧ (∀ i, i ∈ c_interfaces k → is_Some (h !! i))
    ∧ (∀ m, m ∈ c_methods k → is_Some (h !! m_class m)).

(** The superclass chain from [class] ends within [n] steps. *)
Inductive chain_within (h : Arena) : option ClassRef → nat → Prop :=
| chain_null n : chain_within h None n
| chain_step c k n :
    h !! c = Some k → chain_within h (c_superclass k) n →
    chain_within h (Some c) (S n).

(** The method is abstract, and is marked native. *)
Definition is_abstract (m : Method) : bool :=
  negb (Z.land (m_accflags m) ACC_ABSTRACT =? 0).
Definition is_native (m : Method) : bool :=
  negb (Z.land (m_accflags m) ACC_NATIVE =? 0).

(** The patched record: the trap installed and the native flag set. *)
Definition trapped (m : Method) : Method :=
  or_accflags (SET_METHOD_NATIVECODE m throwAbstractMethodError) ACC_NATIVE.

(** The request that [getClass] sends to the loader for a name. *)
Definition load_request (name : Utf8Const) (loader : LoaderRef) : LoadCall :=
  if first_char_is name "["%char then CallLoadArray name loader
  else CallLoadClass name loader.

(** One call of a function of lookup.c, as a step of the machine. *)
Inductive lookup_step `{Collab : Collaborators} : Machine → Machine → Prop :=
| step_getClass idx this einfo vm r e vm' :
    getClass idx this einfo vm = Ok (r, e, vm') →
    lookup_step vm vm'
| step_getMethodSignatureClass fuel idx this eager isSpecial call einfo vm b call' e vm' :
    getMethodSignatureClass fuel idx this eager isSpecial call einfo vm
      = Ok (b, call', e, vm') →
    lookup_step vm vm'
| step_getField idx this isStatic ret einfo vm b ret' e vm' :
    getField idx this isStatic ret einfo vm = Ok (b, ret', e, vm') →
    lookup_step vm vm'
| step_findMethodLocal class name sig vm mptr h' :
    findMethodLocal (vm_classes vm) class name sig = Ok (mptr, h') →
    lookup_step vm (mkMachine h' (vm_ext vm) (vm_trace vm)).

(** Position [i] holds the first entry of the table with the given name
    and signature. *)
Definition first_match (ms : list Method) (name sig : Utf8Const) (i : nat) (m : Method) : Prop :=
  ms !! i = Some m
  ∧ m_name m = name ∧ m_signature m = sig
  ∧ ∀ j m', (j < i)%nat → ms !! j = Some m' → ¬ (m_name m' = name ∧ m_signature m' = sig).

(** Some entry of the method table of the class has the given name and
    signature. *)
Definition declares (k : Hjava_lang_Class) (name sig : Utf8Const) : Prop :=
  ∃ m, m ∈ c_methods k ∧ m_name m = name ∧ m_signature m = sig.

(** ** findMethod

    The lookup with class processing of lookup.c.  [CSTATE_USABLE], the
    state below which the class is processed first, is a parameter
    (classMethod.h is not under src/).  The name of the method is the
    format of the message of the missing-method error. *)
Section FindMethod.
Context `{Collab : Collaborators}.
Variable CSTATE_USABLE : Z.

(** The loop of [findMethod] and what follows it. *)
Definition findMethod_search (fuel : nat) (class : ClassRef)
    (name signature : Utf8Const) (einfo : errorInfo) (vm : Machine)
  : Result (option MethodRef * errorInfo * Machine) :=
  let* w := superclass_walk fuel (vm_classes vm) (Some class) name signature in
  let vm' := mkMachine w.2 (vm_ext vm) (vm_trace vm) in
  match w.1 with
  | Some mptr => Ok (Some mptr, einfo, vm')
  | None =>
      let* e := postExceptionFormat (JAVA_LANG "NoSuchMethodError") name in
      Ok (None, e, vm')
  end.

Definition findMethod (fuel : nat) (class : ClassRef)
    (name signature : Utf8Const) (einfo : errorInfo) (vm : Machine)
  : Result (option MethodRef * errorInfo * Machine) :=
  let* k := deref (vm_classes vm) class in
  if c_state k <? CSTATE_USABLE then
    let p := processClass class CSTATE_COMPLETE (vm_classes vm) (vm_ext vm) in
    let vm1 := mkMachine p.1.2 p.2 (vm_trace vm) in
    match p.1.1 with
    | Some e => Ok (None, e, vm1)
    | None => findMethod_search fuel class name signature einfo vm1
    end
  else findMethod_search fuel class name signature einfo vm.

End FindMethod.

(** ** java_lang_Class_getPrimitiveClass

    The primitive classes are the globals of the VM; [chrs] is the
    character data of the Java string, and a read past its end is a
    fault. *)
Inductive PrimitiveClass : Type :=
| byteClass
| booleanClass
| charClass
| doubleClass
| floatClass
| intClass
| longClass
| shortClass
| voidClass.

#[global] Instance PrimitiveClass_eq_dec : EqDecision PrimitiveClass.
Proof. solve_decision. Defined.

Definition java_lang_Class_getPrimitiveClass (name : string)
  : Result (option PrimitiveClass) :=
  let chrs (i : nat) := of_option (String.get i name) in
  let* c0 := chrs 0%nat in
  if Ascii.eqb c0 "b" then
    let* c1 := chrs 1%nat in
    if Ascii.eqb c1 "y" then Ok (Some byteClass)
    else if Ascii.eqb c1 "o" then Ok (Some booleanClass)
    else Ok None
  else if Ascii.eqb c0 "c" then Ok (Some charClass)
  else if Ascii.eqb c0 "d" then Ok (Some doubleClass)
  else if Ascii.eqb c0 "f" then Ok (Some floatClass)
  else if Ascii.eqb c0 "i" then Ok (Some intClass)
  else if Ascii.eqb c0 "l" then Ok (Some longClass)
  else if Ascii.eqb c0 "s" then Ok (Some shortClass)
  else if Ascii.eqb c0 "v" then Ok (Some voidClass)
  else Ok None.

(** The names of the primitive types of the language. *)
Definition primitive_name (p : PrimitiveClass) : string :=
  match p with
  | byteClass => "byte"
  | booleanClass => "boolean"
  | charClass => "char"
  | doubleClass => "double"
  | floatClass => "float"
  | intClass => "int"
  | longClass => "long"
  | shortClass => "short"
  | voidClass => "void"
  end.

(** ** More predicates used in the statements *)

(** The class [n] steps up the superclass chain of [c]. *)
Fixpoint nth_super (h : Arena) (c : ClassRef) (n : nat) : option ClassRef :=
  match n with
  | O => Some c
  | S n' =>
      match h !! c with
      | Some k =>
          match c_superclass k with
          | Some s => nth_super h s n'
          | None => None
          end
      | None => None
      end
  end.

(** *** A tower P <- Q <- R, where R implements the interface K

    P declares m1()V and m2()V, Q overrides m2()V, R declares no method
    and has the field count, K declares m3()V.  The pool of R refers to
    R.m1 (index 5), R.m2 (8), R.m3 (11), the field R.count (12), the
    array class of R (16), a class that cannot be loaded (17) and a
    method of it (18). *)
Module Tower.

Definition P : positive := 1%positive.
Definition Q : positive := 2%positive.
Definition R : positive := 3%positive.
Definition K : positive := 4%positive.
Definition RArray : positive := 5%positive.

Definition meth (name : string) (class : positive) (entry : Z) : Method :=
  mkMethod name "()V" 0x0001 class (Code entry).

Definition poolR : constants :=
  mkConstants
    [0; CONSTANT_Class; CONSTANT_Utf8; CONSTANT_Utf8; CONSTANT_NameAndType;
     CONSTANT_Methodref; CONSTANT_Utf8; CONSTANT_NameAndType; CONSTANT_Methodref;
     CONSTANT_Utf8; CONSTANT_NameAndType; CONSTANT_Methodref; CONSTANT_Fieldref;
     CONSTANT_NameAndType; CONSTANT_Utf8; CONSTANT_Utf8; CONSTANT_Class;
     CONSTANT_Class; CONSTANT_Methodref]
    [SlotWord 0; SlotUtf8 "R"; SlotUtf8 "m1"; SlotUtf8 "()V"; pair_word 2 3;
     pair_word 1 4; SlotUtf8 "m2"; pair_word 6 3; pair_word 1 7;
     SlotUtf8 "m3"; pair_word 9 3; pair_word 1 10; pair_word 1 13;
     pair_word 14 15; SlotUtf8 "count"; SlotUtf8 "I"; SlotUtf8 "[LR;";
     SlotUtf8 "Missing"; pair_word 17 4].

Definition classP : Hjava_lang_Class :=
  mkClass "P" 0x0001 None [] 0 no_pool [meth "m1" P 10; meth "m2" P 20] [] None
          CSTATE_COMPLETE.
Definition classQ : Hjava_lang_Class :=
  mkClass "Q" 0x0001 (Some P) [] 0 no_pool [meth "m2" Q 30] [] None CSTATE_COMPLETE.
Definition classR : Hjava_lang_Class :=
  mkClass "R" 0x0001 (Some Q) [K] 1 poolR [] [mkField "count" "I" 0x0001] None
          CSTATE_LINKED.
Definition classK : Hjava_lang_Class :=
  mkClass "K" 0x0601 (Some P) [] 0 no_pool [mkMethod "m3" "()V" 0x0401 K NoCode] []
          None CSTATE_LINKED.
Definition classRArray : Hjava_lang_Class :=
  mkClass "[LR;" 0x0001 (Some P) [] 0 no_pool [] [] None CSTATE_LINKED.

Definition arena : Arena :=
  <[P := classP]> (<[Q := classQ]> (<[R := classR]> (<[K := classK]>
    (<[RArray := classRArray]> ∅)))).

Definition loader : TableLoader :=
  mkTableLoader [("R", Loaded R); ("[LR;", Loaded RArray)] [].

Definition vm : Machine := mkMachine arena loader [].

(** The machine after slot 1 of the pool of R has been resolved. *)
Definition arena_resolved : Arena :=
  store_slot arena R 1 CONSTANT_ResolvedClass (SlotClass R).
Definition vm_resolved : Machine :=
  mkMachine arena_resolved loader [CallLoadClass "R" None].

End Tower.

(** ** Reflection on members (Class.c)

    The reflection objects are records; an array of objects is a list of
    slots that are null until written, and a write past its end is a
    fault.  A counter of members is a natural number.  A native function
    either comes back with a value or raises an error ([throwError]). *)

Definition ACC_PUBLIC : Z := 0x0001.

Inductive Exc (A : Type) : Type :=
| Done (a : A)
| Raised (e : errorInfo).
Arguments Done {A} a.
Arguments Raised {A} e.

(** What the reflection code uses and src/ does not hold: the flag that
    marks constructors (access.h), the accessors of the parsed signature
    and the table of declared exceptions of a method (classMethod.h),
    the resolution of a type signature and of the type of a field
    (itypes.c, classMethod.c), and the comparison of a name of the class
    file with a Java string (stringSupport.h). *)
Class Reflection `{Collab : Collaborators} : Type := {
  ACC_CONSTRUCTOR : Z;
  METHOD_NARGS : Method → nat;
  METHOD_ARG_TYPE : Method → nat → string;
  METHOD_RET_TYPE : Method → string;
  declared_exceptions : Method → list nat;
  getClassFromSignature : string → LoaderRef → ExtState → LoadResult * ExtState;
  resolveFieldType : Field → ClassRef → ExtState → LoadResult * ExtState;
  utf8ConstEqualJavaString : Utf8Const → string → bool
}.

Record Hjava_lang_reflect_Method : Type := mkReflectMethod {
  rm_clazz : ClassRef;
  rm_slot : nat;
  rm_name : string;
  rm_parameterTypes : list ClassRef;
  rm_exceptionTypes : list ClassRef;
  rm_returnType : ClassRef
}.

Record Hjava_lang_reflect_Constructor : Type := mkReflectConstructor {
  rc_clazz : ClassRef;
  rc_slot : nat;
  rc_parameterTypes : list ClassRef;
  rc_exceptionTypes : list ClassRef
}.

Record Hjava_lang_reflect_Field : Type := mkReflectField {
  rf_clazz : ClassRef;
  rf_slot : nat;
  rf_type : ClassRef;
  rf_name : string
}.

(** [*ptr = v; ptr++] on an array of object slots. *)
Definition write_slot {A : Type} (arr : list (option A)) (ptr : nat) (v : A)
  : Result (list (option A) * nat) :=
  if (ptr <? length arr)%nat then Ok (<[ptr := Some v]> arr, S ptr) else Fault.

(** [((accflags & ACC_PUBLIC) || declared)] *)
Definition public_or_declared (accflags declared : Z) : bool :=
  negb (Z.land accflags ACC_PUBLIC =? 0) || negb (declared =? 0).

Section Reflect.
Context `{Refl : Reflection}.

(** The stateful computations of the reflection code. *)
Definition VM (A : Type) : Type := Machine → Result (Exc A * Machine).

Definition vm_ret {A : Type} (a : A) : VM A := fun vm => Ok (Done a, vm).

Definition throwError {A : Type} (e : errorInfo) : VM A := fun vm => Ok (Raised e, vm).

Definition vm_bind {A B : Type} (c : VM A) (f : A → VM B) : VM B := fun vm =>
  let* r := c vm in
  match r.1 with
  | Done a => f a r.2
  | Raised e => Ok (Raised e, r.2)
  end.

(** A pure read of the machine that may fault. *)
Definition vm_read {A : Type} (f : Arena → Result A) : VM A := fun vm =>
  let* a := f (vm_classes vm) in Ok (Done a, vm).

(** A call of a resolver that works on the state of the loader. *)
Definition vm_load (f : ExtState → LoadResult * ExtState) : VM ClassRef := fun vm =>
  let r := f (vm_ext vm) in
  let vm' := mkMachine (vm_classes vm) r.2 (vm_trace vm) in
  match r.1 with
  | Loaded c => Ok (Done c, vm')
  | LoadFailed e => Ok (Raised e, vm')
  end.

(** The record behind a [Method*] and the loader of its class
    ([meth->class->loader]). *)
Definition method_record (meth : MethodRef) : VM Method :=
  vm_read (fun h => of_option (method_at h meth)).

Definition loader_of (class : ClassRef) : VM LoaderRef :=
  vm_read (fun h => let* k := deref h class in Ok (c_loader k)).

(** *** makeParameters, makeReturn, makeExceptions *)

(** [for (i = 0; i < METHOD_NARGS(meth); ++i)], with [todo] iterations
    left. *)
Fixpoint makeParameters_loop (m : Method) (loader : LoaderRef) (todo i : nat)
    (body : list ClassRef) : VM (list ClassRef) :=
  match todo with
  | O => vm_ret body
  | S todo' =>
      vm_bind (vm_load (getClassFromSignature (METHOD_ARG_TYPE m i) loader))
        (fun clazz => makeParameters_loop m loader todo' (S i) (body ++ [clazz]))
  end.

Definition makeParameters (meth : MethodRef) : VM (list ClassRef) :=
  vm_bind (method_record meth) (fun m =>
  vm_bind (loader_of (m_class m)) (fun loader =>
  makeParameters_loop m loader (METHOD_NARGS m) 0 [])).

Definition makeReturn (meth : MethodRef) : VM ClassRef :=
  vm_bind (method_record meth) (fun m =>
  vm_bind (loader_of (m_class m)) (fun loader =>
  vm_load (getClassFromSignature (METHOD_RET_TYPE m) loader))).

(** [getClass] as a computation that raises the error of a null result;
    the error descriptor passed in is a local that has not been
    written. *)
Definition getClass_or_raise (idx : nat) (this : ClassRef) : VM ClassRef := fun vm =>
  let* g := getClass idx this no_error vm in
  match g.1.1 with
  | Some clazz => Ok (Done clazz, g.2)
  | None => Ok (Raised g.1.2, g.2)
  end.

Fixpoint makeExceptions_loop (class : ClassRef) (indices : list nat)
    (body : list ClassRef) : VM (list ClassRef) :=
  match indices with
  | [] => vm_ret body
  | idx :: rest =>
      vm_bind (getClass_or_raise idx class)
        (fun clazz => makeExceptions_loop class rest (body ++ [clazz]))
  end.

Definition makeExceptions (meth : MethodRef) : VM (list ClassRef) :=
  vm_bind (method_record meth) (fun m =>
  makeExceptions_loop (m_class m) (declared_exceptions m) []).

(** *** makeConstructor, makeMethod, makeField *)

Definition makeConstructor (clazz : ClassRef) (slot : nat)
  : VM Hjava_lang_reflect_Constructor :=
  let mth := (clazz, slot) in
  vm_bind (makeParameters mth) (fun params =>
  vm_bind (makeExceptions mth) (fun excs =>
  vm_ret (mkReflectConstructor clazz slot params excs))).

Definition makeMethod (clazz : ClassRef) (slot : nat) : VM Hjava_lang_reflect_Method :=
  let mth := (clazz, slot) in
  vm_bind (method_record mth) (fun m =>
  vm_bind (makeParameters mth) (fun params =>
  vm_bind (makeExceptions mth) (fun excs =>
  vm_bind (makeReturn mth) (fun ret =>
  vm_ret (mkReflectMethod clazz slot (m_name m) params excs ret))))).

Definition makeField (clazz : ClassRef) (slot : nat) : VM Hjava_lang_reflect_Field :=
  vm_bind (vm_read (fun h => let* k := deref h clazz in of_option (c_fields k !! slot)))
    (fun fld =>
  vm_bind (vm_load (resolveFieldType fld clazz)) (fun type =>
  vm_ret (mkReflectField clazz slot type (f_name fld)))).

(** *** countMethods and addMethods *)

(** The test of [countMethods] and [addMethods] on one method. *)
Definition reported_method (declared : Z) (m : Method) : bool :=
  public_or_declared (m_accflags m) declared
  && (Z.land (m_accflags m) ACC_CONSTRUCTOR =? 0).

(** [for (i = CLASS_NMETHODS(clas)-1; i >= 0; i--)], with [n] = [i + 1]. *)
Fixpoint countMethods_loop (mth : list Method) (declared : Z) (n count : nat)
  : Result nat :=
  match n with
  | O => Ok count
  | S i =>
      let* m := of_option (mth !! i) in
      countMethods_loop mth declared i
        (if reported_method declared m then S count else count)
  end.

Definition countMethods (h : Arena) (clas : ClassRef) (declared : Z) : Result nat :=
  let* k := deref h clas in
  countMethods_loop (c_methods k) declared (length (c_methods k)) 0.

Fixpoint addMethods_loop (clas : ClassRef) (declared : Z) (n : nat)
    (arr : list (option Hjava_lang_reflect_Method)) (ptr : nat)
  : VM (list (option Hjava_lang_reflect_Method) * nat) :=
  match n with
  | O => vm_ret (arr, ptr)
  | S i =>
      vm_bind (method_record (clas, i)) (fun m =>
      if reported_method declared m then
        vm_bind (makeMethod clas i) (fun obj =>
        vm_bind (fun vm => let* w := write_slot arr ptr obj in Ok (Done w, vm))
          (fun w => addMethods_loop clas declared i w.1 w.2))
      else addMethods_loop clas declared i arr ptr)
  end.

Definition addMethods (clas : ClassRef) (declared : Z)
    (arr : list (option Hjava_lang_reflect_Method)) (ptr : nat)
  : VM (list (option Hjava_lang_reflect_Method) * nat) :=
  vm_bind (vm_read (fun h => let* k := deref h clas in Ok (length (c_methods k))))
    (fun n => addMethods_loop clas declared n arr ptr).

(** *** getInterfaceMethods0 and java_lang_Class_getMethods0 *)

(** [for (i = 0; i < this->total_interface_len; i++) count +=
    countMethods(this->interfaces[i], declared)] *)
Fixpoint count_interfaces (h : Arena) (ifaces : list ClassRef) (declared : Z)
    (count : nat) : Result nat :=
  match ifaces with
  | [] => Ok count
  | c :: rest =>
      let* n := countMethods h c declared in
      count_interfaces h rest declared (count + n)%nat
  end.

Fixpoint add_interfaces (ifaces : list ClassRef) (declared : Z)
    (arr : list (option Hjava_lang_reflect_Method)) (ptr : nat)
  : VM (list (option Hjava_lang_reflect_Method) * nat) :=
  match ifaces with
  | [] => vm_ret (arr, ptr)
  | c :: rest =>
      vm_bind (addMethods c declared arr ptr)
        (fun w => add_interfaces rest declared w.1 w.2)
  end.

(** The filling pass of [getInterfaceMethods0]: the interface itself,
    then, unless [declared] is set, the entries of its interface
    array. *)
Definition add_interface_methods (this : ClassRef) (ifaces : list ClassRef)
    (declared : Z) (arr : list (option Hjava_lang_reflect_Method)) (ptr : nat)
  : VM (list (option Hjava_lang_reflect_Method) * nat) :=
  vm_bind (addMethods this declared arr ptr) (fun w =>
  if declared =? 0 then add_interfaces ifaces declared w.1 w.2 else vm_ret w).

(** The counting pass of [getInterfaceMethods0]. *)
Definition count_interface_methods (h : Arena) (this : ClassRef) (declared : Z)
  : Result (Hjava_lang_Class * nat) :=
  let* k := deref h this in
  let* count := countMethods h this declared in
  let* count :=
    if declared =? 0
    then count_interfaces h (c_interfaces k) declared count
    else Ok count in
  Ok (k, count).

Definition getInterfaceMethods0 (this : ClassRef) (declared : Z)
  : VM (list (option Hjava_lang_reflect_Method)) :=
  vm_bind (vm_read (fun h => count_interface_methods h this declared)) (fun kc =>
  vm_bind (add_interface_methods this (c_interfaces kc.1) declared
             (replicate kc.2 None) 0)
    (fun w => vm_ret w.1)).

(** [for (clas = this; clas != NULL; clas = clas->superclass)] of the
    counting pass, with the [break] when [declared] is set. *)
Fixpoint count_chain (fuel : nat) (h : Arena) (clas : option ClassRef) (declared : Z)
    (count : nat) : Result nat :=
  match clas with
  | None => Ok count
  | Some c =>
      match fuel with
      | O => OutOfFuel
      | S fuel' =>
          let* n := countMethods h c declared in
          if negb (declared =? 0) then Ok (count + n)%nat
          else
            let* k := deref h c in
            count_chain fuel' h (c_superclass k) declared (count + n)%nat
      end
  end.

Fixpoint add_chain (fuel : nat) (clas : option ClassRef) (declared : Z)
    (arr : list (option Hjava_lang_reflect_Method)) (ptr : nat)
  : VM (list (option Hjava_lang_reflect_Method) * nat) :=
  match clas with
  | None => vm_ret (arr, ptr)
  | Some c =>
      match fuel with
      | O => fun _ => OutOfFuel
      | S fuel' =>
          vm_bind (addMethods c declared arr ptr) (fun w =>
          if negb (declared =? 0) then vm_ret w
          else
            vm_bind (vm_read (fun h => let* k := deref h c in Ok (c_superclass k)))
              (fun super => add_chain fuel' super declared w.1 w.2))
      end
  end.

Definition java_lang_Class_getMethods0 (fuel : nat) (this : ClassRef) (declared : Z)
  : VM (list (option Hjava_lang_reflect_Method)) :=
  vm_bind (vm_read (fun h => deref h this)) (fun k =>
  if CLASS_IS_INTERFACE k then getInterfaceMethods0 this declared
  else
    vm_bind (vm_read (fun h => count_chain fuel h (Some this) declared 0))
      (fun count =>
    vm_bind (add_chain fuel (Some this) declared (replicate count None) 0)
      (fun w => vm_ret w.1))).

End Reflect.

(** The methods a class reports, from the last slot of its table to the
    first. *)
Fixpoint reported_slots `{Refl : Reflection} (mth : list Method) (declared : Z)
    (n : nat) : list nat :=
  match n with
  | O => []
  | S i =>
      match mth !! i with
      | Some m =>
          if reported_method declared m
          then i :: reported_slots mth declared i
          else reported_slots mth declared i
      | None => reported_slots mth declared i
      end
  end.

Definition reported_of `{Refl : Reflection} (h : Arena) (c : ClassRef) (declared : Z)
  : list MethodRef :=
  match h !! c with
  | Some k => (λ i, (c, i)) <$> reported_slots (c_methods k) declared (length (c_methods k))
  | None => []
  end.

(** The methods reported along the superclass chain, nearest class
    first; with [declared] set, those of the first class only. *)
Fixpoint reported_on_chain `{Refl : Reflection} (fuel : nat) (h : Arena)
    (clas : option ClassRef) (declared : Z) : list MethodRef :=
  match clas, fuel with
  | Some c, S fuel' =>
      reported_of h c declared
      ++ (if negb (declared =? 0) then []
          else match h !! c with
               | Some k => reported_on_chain fuel' h (c_superclass k) declared
               | None => []
               end)
  | _, _ => []
  end.

(** Two arenas that differ at most in their constant pools. *)
Definition same_outside_pools (h h' : Arena) : Prop :=
  ∀ c, (λ k, set_constants k no_pool) <$> (h' !! c)
       = (λ k, set_constants k no_pool) <$> (h !! c).

(** A computation of the reflection code that leaves the arena alone
    outside the constant pools. *)
Definition framed `{Refl : Reflection} {A : Type} (c : VM A) : Prop :=
  ∀ vm vm' r, c vm = Ok (r, vm') →
    same_outside_pools (vm_classes vm) (vm_classes vm').

(** The array [arr'] is [arr] with the objects [objs] written from
    position [ptr] on. *)
Definition filled {A : Type} (arr : list (option A)) (ptr : nat) (objs : list A)
    (arr' : list (option A)) : Prop :=
  length arr' = length arr
  ∧ ∀ j, arr' !! j
         = if decide (ptr ≤ j < ptr + length objs)%nat
           then Some <$> (objs !! (j - ptr)%nat)
           else arr !! j.

(** Two runs of a filling pass, on arrays of different sizes, come to
    the same end: both raise the same error, or both return, the second
    one with [n] slots written from [ptr2] on in an array as long as
    [arr2]. *)
Definition same_end {O : Type} (r1 r2 : Exc (list (option O) * nat))
    (arr2 : list (option O)) (ptr2 n : nat) : Prop :=
  match r1 with
  | Done _ => ∃ a2, r2 = Done (a2, (ptr2 + n)%nat) ∧ length a2 = length arr2
  | Raised e => r2 = Raised e
  end.

(** A native function comes to an end, with a value or with an error. *)
Definition same_outcome {A B : Type} (r1 : Exc A) (r2 : Exc B) : Prop :=
  match r1 with
  | Done _ => ∃ b, r2 = Done b
  | Raised e => r2 = Raised e
  end.

(** The slot an object of the reflection array stands for. *)
Definition method_key (o : Hjava_lang_reflect_Method) : MethodRef :=
  (rm_clazz o, rm_slot o).

(** The methods an interface reports: its own, then, unless [declared]
    is set, those of every entry of its interface array. *)
Definition reported_by_interface `{Refl : Reflection} (h : Arena) (this : ClassRef)
    (declared : Z) : list MethodRef :=
  reported_of h this declared
  ++ (if declared =? 0
      then match h !! this with
           | Some k => concat ((λ c, reported_of h c declared) <$> c_interfaces k)
           | None => []
           end
      else []).

(** ** Constructors, fields and single members (Class.c) *)

(** The entries of a table that pass a test, from slot [n - 1] down to
    slot 0. *)
Fixpoint selected {M : Type} (tbl : list M) (test : M → bool) (n : nat) : list nat :=
  match n with
  | O => []
  | S i =>
      match tbl !! i with
      | Some m => if test m then i :: selected tbl test i else selected tbl test i
      | None => selected tbl test i
      end
  end.

(** [for (i = N-1; i >= 0; i--) if (test(tbl[i])) count++], with [n] =
    [i + 1]. *)
Fixpoint count_backwards {M : Type} (tbl : list M) (test : M → bool) (n count : nat)
  : Result nat :=
  match n with
  | O => Ok count
  | S i =>
      let* m := of_option (tbl !! i) in
      count_backwards tbl test i (if test m then S count else count)
  end.

(** [CLASS_METHODS(clas)] and [CLASS_FIELDS(clas)]. *)
Definition methods_of (clas : ClassRef) (h : Arena) : Result (list Method) :=
  let* k := deref h clas in Ok (c_methods k).

Definition fields_of (clas : ClassRef) (h : Arena) : Result (list Field) :=
  let* k := deref h clas in Ok (c_fields k).

(** [(fld[i].accflags & ACC_PUBLIC)] *)
Definition field_public (f : Field) : bool :=
  negb (Z.land (f_accflags f) ACC_PUBLIC =? 0).

Section Members.
Context `{Refl : Reflection}.

(** [for (i = N-1; i >= 0; i--) if (test(tbl[i])) { *ptr = make(clas, i);
    ptr++; }], the filling loop of [getConstructors0] and [getFields0],
    with [n] = [i + 1]; the table is read where the loop reads it, in
    the arena of the moment. *)
Fixpoint fill_backwards {M O : Type} (table : Arena → Result (list M))
    (test : M → bool) (make : nat → VM O) (n : nat)
    (arr : list (option O)) (ptr : nat) : VM (list (option O) * nat) :=
  match n with
  | O => vm_ret (arr, ptr)
  | S i =>
      vm_bind (vm_read (fun h => let* tbl := table h in of_option (tbl !! i)))
        (fun m =>
      if test m then
        vm_bind (make i) (fun obj =>
        vm_bind (fun vm => let* w := write_slot arr ptr obj in Ok (Done w, vm))
          (fun w => fill_backwards table test make i w.1 w.2))
      else fill_backwards table test make i arr ptr)
  end.

(** [SignalError(cname, str)] *)
Definition SignalError {A : Type} (cname str : string) : VM A :=
  throwError (mkErrorInfo KERR_EXCEPTION cname str).

(** *** java_lang_Class_getConstructors0 *)

(** The test of [getConstructors0] and [getConstructor0] on one
    method. *)
Definition reported_constructor (declared : Z) (m : Method) : bool :=
  public_or_declared (m_accflags m) declared
  && negb (Z.land (m_accflags m) ACC_CONSTRUCTOR =? 0).

(** The two passes of [java_lang_Class_getConstructors0]. *)
Definition count_constructors (h : Arena) (this : ClassRef) (declared : Z)
  : Result nat :=
  let* mth := methods_of this h in
  count_backwards mth (reported_constructor declared) (length mth) 0.

Definition add_constructors (this : ClassRef) (declared : Z)
    (arr : list (option Hjava_lang_reflect_Constructor)) (ptr : nat)
  : VM (list (option Hjava_lang_reflect_Constructor) * nat) :=
  vm_bind (vm_read (fun h => let* mth := methods_of this h in Ok (length mth)))
    (fun n =>
  fill_backwards (methods_of this) (reported_constructor declared)
                 (makeConstructor this) n arr ptr).

Definition java_lang_Class_getConstructors0 (this : ClassRef) (declared : Z)
  : VM (list (option Hjava_lang_reflect_Constructor)) :=
  vm_bind (vm_read (fun h => count_constructors h this declared)) (fun count =>
  vm_bind (add_constructors this declared (replicate count None) 0)
    (fun w => vm_ret w.1)).

(** *** java_lang_Class_getFields0 *)

(** The counting pass when [declared] is not set: the public fields
    along the superclass chain. *)
Fixpoint count_public_fields (fuel : nat) (h : Arena) (clas : option ClassRef)
    (count : nat) : Result nat :=
  match clas with
  | None => Ok count
  | Some c =>
      match fuel with
      | O => OutOfFuel
      | S fuel' =>
          let* k := deref h c in
          let* count' :=
            count_backwards (c_fields k) field_public (length (c_fields k)) count in
          count_public_fields fuel' h (c_superclass k) count'
      end
  end.

(** The filling pass, with the [break] when [declared] is set. *)
Fixpoint add_fields (fuel : nat) (clas : option ClassRef) (declared : Z)
    (arr : list (option Hjava_lang_reflect_Field)) (ptr : nat)
  : VM (list (option Hjava_lang_reflect_Field) * nat) :=
  match clas with
  | None => vm_ret (arr, ptr)
  | Some c =>
      match fuel with
      | O => fun _ => OutOfFuel
      | S fuel' =>
          vm_bind (vm_read (fun h => let* fld := fields_of c h in Ok (length fld)))
            (fun n =>
          vm_bind (fill_backwards (fields_of c)
                     (fun f => public_or_declared (f_accflags f) declared)
                     (makeField c) n arr ptr)
            (fun w =>
          if negb (declared =? 0) then vm_ret w
          else
            vm_bind (vm_read (fun h => let* k := deref h c in Ok (c_superclass k)))
              (fun super => add_fields fuel' super declared w.1 w.2)))
      end
  end.

(** The counting pass of [java_lang_Class_getFields0]. *)
Definition count_fields (fuel : nat) (h : Arena) (clazz : ClassRef) (declared : Z)
  : Result nat :=
  if negb (declared =? 0)
  then let* fld := fields_of clazz h in Ok (length fld)
  else count_public_fields fuel h (Some clazz) 0.

Definition java_lang_Class_getFields0 (fuel : nat) (clazz : ClassRef) (declared : Z)
  : VM (list (option Hjava_lang_reflect_Field)) :=
  vm_bind (vm_read (fun h => count_fields fuel h clazz declared))
    (fun count =>
  vm_bind (add_fields fuel (Some clazz) declared (replicate count None) 0)
    (fun w => vm_ret w.1)).

(** *** checkParameters *)

(** [for (i = 0; i < ARRAY_SIZE(argtypes); i++)], over the entries of
    [argtypes] that are left.  An argument type that cannot be resolved
    makes the answer 0; its error is discarded. *)
Fixpoint checkParameters_loop (m : Method) (args : list ClassRef) (i : nat)
  : VM bool :=
  match args with
  | [] => vm_ret true
  | a :: rest =>
      vm_bind (loader_of (m_class m)) (fun loader => fun vm =>
        let r := getClassFromSignature (METHOD_ARG_TYPE m i) loader (vm_ext vm) in
        let vm' := mkMachine (vm_classes vm) r.2 (vm_trace vm) in
        match r.1 with
        | LoadFailed _ => Ok (Done false, vm')
        | Loaded sigclass =>
            if bool_decide (sigclass = a)
            then checkParameters_loop m rest (S i) vm'
            else Ok (Done false, vm')
        end)
  end.

(** [argtypes] is null or an array of classes; the size of a null array
    is read only when the method has arguments, and that read is a
    fault. *)
Definition checkParameters (mth : MethodRef) (argtypes : option (list ClassRef))
  : VM bool :=
  vm_bind (method_record mth) (fun m =>
  match argtypes with
  | None =>
      if (METHOD_NARGS m =? 0)%nat then vm_ret true else (fun _ => Fault)
  | Some args =>
      if negb (length args =? METHOD_NARGS m)%nat then vm_ret false
      else checkParameters_loop m args 0
  end).

(** *** java_lang_Class_getMethod0 and java_lang_Class_getConstructor0 *)

(** [for (i = 0; i < n; ++mth, ++i) if (test(mth)) if
    (checkParameters(mth, arr)) return ...], with [todo] slots left from
    slot [i] on; the answer is the slot of the [return], if any. *)
Fixpoint scan_methods (test : Method → bool) (clas : ClassRef)
    (arr : option (list ClassRef)) (todo i : nat) : VM (option nat) :=
  match todo with
  | O => vm_ret None
  | S todo' =>
      vm_bind (method_record (clas, i)) (fun m =>
      if test m then
        vm_bind (checkParameters (clas, i) arr) (fun same =>
        if same then vm_ret (Some i)
        else scan_methods test clas arr todo' (S i))
      else scan_methods test clas arr todo' (S i))
  end.

(** The test of [getMethod0] on one method. *)
Definition named_method (name : string) (declared : Z) (m : Method) : bool :=
  public_or_declared (m_accflags m) declared
  && utf8ConstEqualJavaString (m_name m) name.

(** [do { ... clas = clas->superclass; } while (!declared && clas !=
    NULL)], then the exception whose message is the name. *)
Fixpoint getMethod0_loop (fuel : nat) (clas : ClassRef) (name : string)
    (arr : option (list ClassRef)) (declared : Z) : VM Hjava_lang_reflect_Method :=
  match fuel with
  | O => fun _ => OutOfFuel
  | S fuel' =>
      vm_bind (vm_read (fun h => let* mth := methods_of clas h in Ok (length mth)))
        (fun n =>
      vm_bind (scan_methods (named_method name declared) clas arr n 0) (fun found =>
      match found with
      | Some i => makeMethod clas i
      | None =>
          vm_bind (vm_read (fun h => let* k := deref h clas in Ok (c_superclass k)))
            (fun super =>
          match super with
          | Some s =>
              if declared =? 0 then getMethod0_loop fuel' s name arr declared
              else SignalError "java.lang.NoSuchMethodException" name
          | None => SignalError "java.lang.NoSuchMethodException" name
          end)
      end))
  end.

Definition java_lang_Class_getMethod0 (fuel : nat) (this : ClassRef) (name : string)
    (arr : option (list ClassRef)) (declared : Z) : VM Hjava_lang_reflect_Method :=
  getMethod0_loop fuel this name arr declared.

Definition java_lang_Class_getConstructor0 (this : ClassRef)
    (arr : option (list ClassRef)) (declared : Z)
  : VM Hjava_lang_reflect_Constructor :=
  vm_bind (vm_read (fun h => let* mth := methods_of this h in Ok (length mth)))
    (fun n =>
  vm_bind (scan_methods (reported_constructor declared) this arr n 0) (fun found =>
  match found with
  | Some i => makeConstructor this i
  | None => SignalError "java.lang.NoSuchMethodException" ""
  end)).

(** *** java_lang_Class_getField0 *)





End Members.

(** The public fields along the superclass chain, nearest class first;
    with [declared] set, all the fields of the first class. *)
Fixpoint fields_on_chain (fuel : nat) (h : Arena) (clas : option ClassRef)
    (declared : Z) : list (ClassRef * nat) :=
  match clas, fuel with
  | Some c, S fuel' =>
      match h !! c with
      | Some k =>
          ((λ i, (c, i)) <$>
             selected (c_fields k) (fun f => public_or_declared (f_accflags f) declared)
                      (length (c_fields k)))
          ++ (if negb (declared =? 0) then []
              else fields_on_chain fuel' h (c_superclass k) declared)
      | None => []
      end
  | _, _ => []
  end.

Definition field_key (o : Hjava_lang_reflect_Field) : ClassRef * nat :=
  (rf_clazz o, rf_slot o).




(** The array of argument types has as many entries as the method has
    arguments; a null array stands for the empty one. *)
Definition same_arity `{Refl : Reflection} (arr : option (list ClassRef)) (m : Method)
  : Prop :=
  match arr with
  | None => METHOD_NARGS m = 0%nat
  | Some args => length args = METHOD_NARGS m
  end.

(** *** An instance of the reflection parameters

    For the hierarchy below, whose signatures are made of one-letter
    types and whose methods declare no exception: the arguments of a
    method are the letters between the parentheses of its signature, the
    return type is what follows them, and a type is resolved through the
    table of the loader. *)
Fixpoint sig_args (s : string) : list string :=
  match s with
  | String c rest =>
      if Ascii.eqb c ")" then [] else String c EmptyString :: sig_args rest
  | EmptyString => []
  end.

Fixpoint sig_ret (s : string) : string :=
  match s with
  | String c rest => if Ascii.eqb c ")" then rest else sig_ret rest
  | EmptyString => EmptyString
  end.

Definition table_args (m : Method) : list string :=
  match m_signature m with
  | String _ rest => sig_args rest
  | EmptyString => []
  end.

#[local] Instance TableReflection : @Reflection TableCollab := {|
  ACC_CONSTRUCTOR := 0x0800;
  METHOD_NARGS := fun m => length (table_args m);
  METHOD_ARG_TYPE := fun m i => default "V" (table_args m !! i);
  METHOD_RET_TYPE := fun m => sig_ret (m_signature m);
  declared_exceptions := fun _ => [];
  getClassFromSignature := table_load;
  resolveFieldType := fun fld _ => table_load (f_signature fld) None;
  utf8ConstEqualJavaString := String.eqb
|}.

(** *** A class Base under Object, and an interface Shape over Drawable

    Object has a constructor and the public hashCode; Base has a
    constructor, the public run, the private helper and the public
    scale, which takes an int, and the fields count, public, and secret,
    private.  The interface Shape declares area and lists Drawable,
    which declares draw, in its interface array; its superclass pointer
    is Object. *)
Module Mirror.

Definition Object : positive := 1%positive.
Definition Base : positive := 2%positive.
Definition Shape : positive := 3%positive.
Definition Drawable : positive := 4%positive.
Definition Void : positive := 5%positive.
Definition Int : positive := 6%positive.

Definition classObject : Hjava_lang_Class :=
  mkClass "java/lang/Object" 0x0001 None [] 0 no_pool
          [mkMethod "<init>" "()V" 0x0801 Object (Code 1);
           mkMethod "hashCode" "()V" 0x0001 Object (Code 2)]
          [] None CSTATE_COMPLETE.
Definition classBase : Hjava_lang_Class :=
  mkClass "Base" 0x0001 (Some Object) [] 0 no_pool
          [mkMethod "<init>" "()V" 0x0801 Base (Code 3);
           mkMethod "run" "()V" 0x0001 Base (Code 4);
           mkMethod "helper" "()V" 0x0002 Base (Code 5);
           mkMethod "scale" "(I)V" 0x0001 Base (Code 6)]
          [mkField "count" "I" 0x0001; mkField "secret" "I" 0x0002]
          None CSTATE_COMPLETE.
Definition classShape : Hjava_lang_Class :=
  mkClass "Shape" 0x0601 (Some Object) [Drawable] 1 no_pool
          [mkMethod "area" "()V" 0x0401 Shape NoCode] [] None CSTATE_COMPLETE.
Definition classDrawable : Hjava_lang_Class :=
  mkClass "Drawable" 0x0601 (Some Object) [] 0 no_pool
          [mkMethod "draw" "()V" 0x0401 Drawable NoCode] [] None CSTATE_COMPLETE.
Definition classVoid : Hjava_lang_Class :=
  mkClass "void" 0x0001 None [] 0 no_pool [] [] None CSTATE_COMPLETE.
Definition classInt : Hjava_lang_Class :=
  mkClass "int" 0x0001 None [] 0 no_pool [] [] None CSTATE_COMPLETE.

Definition arena : Arena :=
  <[Object := classObject]> (<[Base := classBase]> (<[Shape := classShape]>
    (<[Drawable := classDrawable]> (<[Void := classVoid]>
      (<[Int := classInt]> ∅))))).

Definition loader : TableLoader :=
  mkTableLoader [("V", Loaded Void); ("I", Loaded Int)] [].

Definition vm : Machine := mkMachine arena loader [].

Definition method_object (class : positive) (slot : nat) (name : string)
    (params : list ClassRef) : Hjava_lang_reflect_Method :=
  mkReflectMethod class slot name params [] Void.

End Mirror.
(** ** Reasoning about partial computations *)

Lemma bind_Ok {A B : Type} (r : Result A) (f : A → Result B) (b : B) :
  bind r f = Ok b ↔ ∃ a, r = Ok a ∧ f a = Ok b.
Proof.
  split.
  - destruct r as [a| |]; simpl; [|done|done]. intros Hf. by exists a.
  - by intros (a & -> & Hf).
Qed.

Tactic Notation "bind_inv" hyp(H) ident(x) ident(Hx) :=
  apply bind_Ok in H as (x & Hx & H); cbv beta in H.

(** ** The local method search *)

Lemma utf8ConstEqual_true (a b : Utf8Const) : utf8ConstEqual a b = true ↔ a = b.
Proof. apply String.eqb_eq. Qed.

Lemma utf8ConstEqual_false (a b : Utf8Const) : utf8ConstEqual a b = false ↔ a ≠ b.
Proof. apply String.eqb_neq. Qed.

Lemma match_test_true (name sig : Utf8Const) (m : Method) :
  m_name m = name → m_signature m = sig →
  utf8ConstEqual name (m_name m) && utf8ConstEqual sig (METHOD_SIG m) = true.
Proof.
  intros <- <-. unfold METHOD_SIG.
  apply andb_true_iff; split; by apply utf8ConstEqual_true.
Qed.

Lemma match_test_false (name sig : Utf8Const) (m : Method) :
  ¬ (m_name m = name ∧ m_signature m = sig) →
  utf8ConstEqual name (m_name m) && utf8ConstEqual sig (METHOD_SIG m) = false.
Proof.
  intros Hn. apply not_true_is_false. intros Ht.
  apply andb_true_iff in Ht as [H1 H2].
  apply utf8ConstEqual_true in H1, H2. unfold METHOD_SIG in H2. by apply Hn.
Qed.

Lemma first_match_head (m : Method) (rest : list Method) (name sig : Utf8Const) (m0 : Method) :
  first_match (m0 :: rest) name sig 0 m → m0 = m ∧ m_name m = name ∧ m_signature m = sig.
Proof. intros (Hl & Hn & Hs & _). simpl in Hl. by simplify_eq. Qed.

Lemma first_match_tail (m : Method) (rest : list Method) (name sig : Utf8Const)
    (m0 : Method) (i : nat) :
  first_match (m0 :: rest) name sig (S i) m →
  ¬ (m_name m0 = name ∧ m_signature m0 = sig) ∧ first_match rest name sig i m.
Proof.
  intros (Hl & Hn & Hs & Hbefore). split.
  - apply (Hbefore 0%nat m0); [lia | done].
  - repeat split; try done.
    intros j m' Hj Hm'. apply (Hbefore (S j) m'); [lia | done].
Qed.

(** The scan stops at the first matching entry and applies the patch there. *)
Lemma findMethodLocal_scan_first (h : Arena) (class : ClassRef) (name sig : Utf8Const)
    (ms : list Method) (i0 i : nat) (m : Method) :
  first_match ms name sig i m →
  findMethodLocal_scan h class name sig ms i0 =
    (let* h' := patch_abstract h class (i0 + i) m in Ok (Some (class, (i0 + i)%nat), h')).
Proof.
  revert i0 i. induction ms as [|m0 rest IH]; intros i0 i Hfm.
  - destruct Hfm as (Hl & _). by rewrite lookup_nil in Hl.
  - destruct i as [|i].
    + apply first_match_head in Hfm as (-> & Hn & Hs).
      simpl. rewrite match_test_true by done. by rewrite Nat.add_0_r.
    + apply first_match_tail in Hfm as (Hno & Hfm).
      simpl. rewrite match_test_false by done.
      rewrite (IH (S i0) i Hfm). by replace (S i0 + i)%nat with (i0 + S i)%nat by lia.
Qed.

(** Without a matching entry the scan returns null and writes nothing. *)
Lemma findMethodLocal_scan_none (h : Arena) (class : ClassRef) (name sig : Utf8Const)
    (ms : list Method) (i0 : nat) :
  (∀ m, m ∈ ms → ¬ (m_name m = name ∧ m_signature m = sig)) →
  findMethodLocal_scan h class name sig ms i0 = Ok (None, h).
Proof.
  revert i0. induction ms as [|m0 rest IH]; intros i0 Hno; [done|].
  simpl. rewrite match_test_false by (apply Hno; left).
  apply IH. intros m Hm. apply Hno. by right.
Qed.

(** What a returned method pointer looks like. *)
Lemma findMethodLocal_scan_Some (h h' : Arena) (class : ClassRef) (name sig : Utf8Const)
    (ms : list Method) (i0 : nat) (p : MethodRef) :
  findMethodLocal_scan h class name sig ms i0 = Ok (Some p, h') →
  ∃ i m, p = (class, (i0 + i)%nat) ∧ first_match ms name sig i m.
Proof.
  revert i0. induction ms as [|m0 rest IH]; intros i0; [done|].
  simpl. destruct (utf8ConstEqual name (m_name m0) && utf8ConstEqual sig (METHOD_SIG m0)) eqn:Ht.
  - destruct (patch_abstract h class i0 m0) as [h1| |]; simpl; try done.
    intros [= <- <-]. exists 0%nat, m0. rewrite Nat.add_0_r. split; [done|].
    apply andb_true_iff in Ht as [H1 H2].
    apply utf8ConstEqual_true in H1, H2. unfold METHOD_SIG in H2.
    repeat split; try done. intros j m' Hj. lia.
  - intros Hs. apply IH in Hs as (i & m & -> & Hl & Hn & Hg & Hbefore).
    exists (S i), m. split; [f_equal; lia|].
    repeat split; try done.
    intros [|j] m' Hj Hm'.
    + simpl in Hm'. simplify_eq. intros [E1 E2].
      rewrite <- E1, <- E2 in Ht.
      by rewrite match_test_true in Ht.
    + apply (Hbefore j m'); [lia | done].
Qed.

Lemma findMethodLocal_scan_None (h h' : Arena) (class : ClassRef) (name sig : Utf8Const)
    (ms : list Method) (i0 : nat) :
  findMethodLocal_scan h class name sig ms i0 = Ok (None, h') →
  h' = h ∧ ∀ m, m ∈ ms → ¬ (m_name m = name ∧ m_signature m = sig).
Proof.
  revert i0. induction ms as [|m0 rest IH]; intros i0.
  - simpl. intros [= <-]. split; [done|]. intros m Hm. by apply not_elem_of_nil in Hm.
  - simpl. destruct (utf8ConstEqual name (m_name m0) && utf8ConstEqual sig (METHOD_SIG m0)) eqn:Ht.
    + destruct (patch_abstract h class i0 m0); simpl; done.
    + intros Hs. apply IH in Hs as [-> Hno]. split; [done|].
      intros m Hm. apply elem_of_cons in Hm as [-> | Hm]; [|by apply Hno].
      intros [E1 E2]. rewrite <- E1, <- E2 in Ht. by rewrite match_test_true in Ht.
Qed.

Lemma trapped_idem (m : Method) : trapped (trapped m) = trapped m.
Proof.
  unfold trapped, or_accflags, SET_METHOD_NATIVECODE. simpl. f_equal.
  rewrite <- Z.lor_assoc. by rewrite Z.lor_diag.
Qed.

Lemma trapped_abstract (m : Method) : is_abstract (trapped m) = is_abstract m.
Proof.
  unfold is_abstract, trapped, or_accflags. simpl.
  rewrite Z.land_lor_distr_l.
  replace (Z.land ACC_NATIVE ACC_ABSTRACT) with 0 by reflexivity.
  by rewrite Z.lor_0_r.
Qed.

Lemma trapped_native (m : Method) : is_native (trapped m) = true.
Proof.
  unfold is_native, trapped, or_accflags. simpl.
  rewrite Z.land_lor_distr_l. rewrite Z.land_diag.
  apply negb_true_iff, Z.eqb_neq. intros H0.
  apply Z.lor_eq_0_iff in H0 as [_ H0]. discriminate H0.
Qed.

Lemma store_method_insert (h : Arena) (class : ClassRef) (k : Hjava_lang_Class)
    (i : nat) (m : Method) :
  h !! class = Some k →
  store_method h class i m = <[class := set_methods k (<[i := m]> (c_methods k))]> h.
Proof. intros Hk. unfold store_method. by rewrite Hk. Qed.

Lemma patch_abstract_traps (h : Arena) (class : ClassRef) (i : nat) (m : Method)
    (dk : Hjava_lang_Class) :
  is_abstract m = true → h !! m_class m = Some dk → CLASS_IS_INTERFACE dk = false →
  patch_abstract h class i m = Ok (store_method h class i (trapped m)).
Proof.
  intros Ha Hd Hi. unfold patch_abstract, is_abstract in *.
  rewrite Ha. unfold deref. rewrite Hd. simpl. by rewrite Hi.
Qed.

Lemma first_match_insert (ms : list Method) (name sig : Utf8Const) (i : nat) (m m' : Method) :
  first_match ms name sig i m → m_name m' = name → m_signature m' = sig →
  first_match (<[i := m']> ms) name sig i m'.
Proof.
  intros (Hl & Hn & Hs & Hbefore) Hn' Hs'. repeat split; try done.
  - apply list_lookup_insert_eq. by eapply lookup_lt_Some.
  - intros j m0 Hj Hm0. rewrite list_lookup_insert_ne in Hm0 by lia.
    by apply (Hbefore j m0).
Qed.

(** C6: the abstract-method patch of [findMethodLocal] and its idempotence.
    When the first entry of the method table of [class] with the given
    name and signature is abstract and its declaring class is not an
    interface, [findMethodLocal] returns that entry after installing the
    abstract-method trap in its native-code slot and setting its native
    flag (the record stays abstract, and name, signature and declaring
    class are kept); a second call
    with the same arguments returns the same entry and leaves the arena
    as the first call left it. *)
Theorem findMethodLocal_abstract_patch_idempotent
    (h : Arena) (class : ClassRef) (k dk : Hjava_lang_Class)
    (name sig : Utf8Const) (i : nat) (m : Method) :
  h !! class = Some k →
  first_match (c_methods k) name sig i m →
  is_abstract m = true →
  h !! m_class m = Some dk →
  CLASS_IS_INTERFACE dk = false →
  ∃ h' m',
    findMethodLocal h class name sig = Ok (Some (class, i), h')
    ∧ method_at h' (class, i) = Some m'
    ∧ m_ncode m' = throwAbstractMethodError
    ∧ is_native m' = true
    ∧ is_abstract m' = true
    ∧ (m_name m', m_signature m', m_class m') = (m_name m, m_signature m, m_class m)
    ∧ findMethodLocal h' class name sig = Ok (Some (class, i), h').
Proof.
  intros Hk Hfm Ha Hd Hi.
  set (k' := set_methods k (<[i := trapped m]> (c_methods k))).
  exists (<[class := k']> h), (trapped m).
  assert (Hlt : (i < length (c_methods k))%nat).
  { destruct Hfm as (Hl & _). by eapply lookup_lt_Some. }
  assert (Hfirst : findMethodLocal h class name sig = Ok (Some (class, i), <[class := k']> h)).
  { unfold findMethodLocal, deref. rewrite Hk. simpl.
    rewrite (findMethodLocal_scan_first h class name sig _ 0 i m Hfm).
    rewrite (patch_abstract_traps h class _ m dk Ha Hd Hi). simpl.
    by rewrite (store_method_insert h class k _ _ Hk). }
  split; [exact Hfirst|].
  split.
  { unfold method_at. simpl. rewrite lookup_insert_eq. simpl.
    by apply list_lookup_insert_eq. }
  split; [done|].
  split; [apply trapped_native|].
  split; [by rewrite trapped_abstract|].
  split; [done|].
  (* the second call *)
  assert (Hk' : (<[class := k']> h) !! class = Some k') by apply lookup_insert_eq.
  assert (Hfm' : first_match (c_methods k') name sig i (trapped m)).
  { destruct Hfm as (Hl & Hn & Hs & Hb).
    apply (first_match_insert _ _ _ _ m); [by repeat split | done | done]. }
  assert (Hd' : ∃ dk', (<[class := k']> h) !! m_class (trapped m) = Some dk'
                       ∧ CLASS_IS_INTERFACE dk' = false).
  { simpl. destruct (decide (class = m_class m)) as [E|E].
    - rewrite <- E, lookup_insert_eq. exists k'. split; [done|].
      rewrite <- E, Hk in Hd. by simplify_eq.
    - rewrite lookup_insert_ne by done. by exists dk. }
  destruct Hd' as (dk' & Hd' & Hi').
  unfold findMethodLocal, deref. rewrite Hk'. simpl.
  rewrite (findMethodLocal_scan_first _ class name sig _ 0 i _ Hfm').
  rewrite (patch_abstract_traps _ class _ _ dk'); [| by rewrite trapped_abstract | done | done].
  simpl. rewrite (store_method_insert _ class k' _ _ Hk').
  rewrite trapped_idem. rewrite insert_insert_eq.
  do 3 f_equal. unfold k', set_methods. simpl.
  by rewrite list_insert_insert_eq.
Qed.

Lemma findMethodLocal_abstract_patch_idempotent_witness :
  ∃ h' m',
    findMethodLocal Shape.arena Shape.Shape "area" "()D" = Ok (Some (Shape.Shape, 1%nat), h')
    ∧ method_at h' (Shape.Shape, 1%nat) = Some m'
    ∧ m_ncode m' = throwAbstractMethodError
    ∧ is_native m' = true
    ∧ is_abstract m' = true
    ∧ (m_name m', m_signature m', m_class m')
      = (m_name Shape.area, m_signature Shape.area, m_class Shape.area)
    ∧ findMethodLocal h' Shape.Shape "area" "()D" = Ok (Some (Shape.Shape, 1%nat), h').
Proof.
  apply (findMethodLocal_abstract_patch_idempotent
           Shape.arena Shape.Shape Shape.classShape Shape.classShape
           "area" "()D" 1 Shape.area).
  - reflexivity.
  - repeat split; try reflexivity.
    intros [|j] m' Hj Hm'; [|lia].
    simpl in Hm'. injection Hm' as <-. intros [E _]. discriminate E.
  - reflexivity.
  - reflexivity.
  - reflexivity.
Defined.

(** ** Constant-pool slots and the arena *)

Lemma slot_of_Some (h : Arena) (this : ClassRef) (idx : nat) (t : Z) (d : ConstSlot) :
  slot_of h this idx = Some (t, d) ↔
  ∃ k, h !! this = Some k
       ∧ tags (c_constants k) !! idx = Some t
       ∧ data (c_constants k) !! idx = Some d.
Proof.
  unfold slot_of. split.
  - destruct (h !! this) as [k|] eqn:Hk; simpl; [|done].
    destruct (tags (c_constants k) !! idx) as [t'|] eqn:Ht; simpl; [|done].
    destruct (data (c_constants k) !! idx) as [d'|] eqn:Hd; simpl; [|done].
    intros [= <- <-]. by exists k.
  - intros (k & -> & Ht & Hd). simpl. rewrite Ht. simpl. by rewrite Hd.
Qed.

Lemma same_pools_refl (h : Arena) : same_pools h h.
Proof. by intros c. Qed.

Lemma same_pools_trans (h1 h2 h3 : Arena) :
  same_pools h1 h2 → same_pools h2 h3 → same_pools h1 h3.
Proof. intros H12 H23 c. by rewrite (H23 c), (H12 c). Qed.

Lemma same_pools_slot_of (h h' : Arena) (this : ClassRef) (idx : nat) :
  same_pools h h' → slot_of h' this idx = slot_of h this idx.
Proof.
  intros Hp. specialize (Hp this). unfold slot_of.
  destruct (h' !! this) as [k'|], (h !! this) as [k|]; simpl in *; try done.
  by injection Hp as ->.
Qed.

Lemma store_method_same_pools (h : Arena) (class : ClassRef) (i : nat) (m : Method) :
  same_pools h (store_method h class i m).
Proof.
  intros c. unfold store_method. destruct (h !! class) as [k|] eqn:Hk; [|done].
  destruct (decide (class = c)) as [<-|Hne].
  - by rewrite lookup_insert_eq, Hk.
  - by rewrite lookup_insert_ne.
Qed.

Lemma patch_abstract_same_pools (h h' : Arena) (class : ClassRef) (i : nat) (m : Method) :
  patch_abstract h class i m = Ok h' → same_pools h h'.
Proof.
  unfold patch_abstract.
  destruct (negb (Z.land (m_accflags m) ACC_ABSTRACT =? 0)).
  - destruct (deref h (m_class m)) as [dk| |]; simpl; try done.
    destruct (negb (CLASS_IS_INTERFACE dk)).
    + intros [= <-]. apply store_method_same_pools.
    + intros [= <-]. apply same_pools_refl.
  - intros [= <-]. apply same_pools_refl.
Qed.

Lemma findMethodLocal_scan_same_pools (h h' : Arena) (class : ClassRef)
    (name sig : Utf8Const) (ms : list Method) (i0 : nat) (r : option MethodRef) :
  findMethodLocal_scan h class name sig ms i0 = Ok (r, h') → same_pools h h'.
Proof.
  revert i0. induction ms as [|m0 rest IH]; intros i0; simpl.
  - intros [= _ <-]. apply same_pools_refl.
  - destruct (utf8ConstEqual name (m_name m0) && utf8ConstEqual sig (METHOD_SIG m0)).
    + destruct (patch_abstract h class i0 m0) as [h1| |] eqn:Hp; simpl; try done.
      intros [= _ <-]. by eapply patch_abstract_same_pools.
    + apply IH.
Qed.

Lemma findMethodLocal_same_pools (h h' : Arena) (class : ClassRef)
    (name sig : Utf8Const) (r : option MethodRef) :
  findMethodLocal h class name sig = Ok (r, h') → same_pools h h'.
Proof.
  unfold findMethodLocal. destruct (deref h class) as [k| |]; simpl; try done.
  apply findMethodLocal_scan_same_pools.
Qed.

Lemma store_slot_insert (h : Arena) (this : ClassRef) (k : Hjava_lang_Class)
    (idx : nat) (t : Z) (d : ConstSlot) :
  h !! this = Some k →
  store_slot h this idx t d =
    <[this := set_constants k (mkConstants (<[idx := t]> (tags (c_constants k)))
                                           (<[idx := d]> (data (c_constants k))))]> h.
Proof. intros Hk. unfold store_slot. by rewrite Hk. Qed.

(** A store to a slot is read back, and leaves the other slots alone. *)
Lemma slot_of_store_slot_eq (h : Arena) (this : ClassRef) (idx : nat)
    (t t0 : Z) (d d0 : ConstSlot) :
  slot_of h this idx = Some (t0, d0) →
  slot_of (store_slot h this idx t d) this idx = Some (t, d).
Proof.
  intros Hs. apply slot_of_Some in Hs as (k & Hk & Ht & Hd).
  rewrite (store_slot_insert h this k) by done.
  apply slot_of_Some. eexists. split; [apply lookup_insert_eq|]. simpl. split.
  - apply list_lookup_insert_eq. by eapply lookup_lt_Some.
  - apply list_lookup_insert_eq. by eapply lookup_lt_Some.
Qed.

Lemma slot_of_store_slot_ne (h : Arena) (this this' : ClassRef) (idx idx' : nat)
    (t : Z) (d : ConstSlot) :
  (this, idx) ≠ (this', idx') →
  slot_of (store_slot h this idx t d) this' idx' = slot_of h this' idx'.
Proof.
  intros Hne. unfold store_slot. destruct (h !! this) as [k|] eqn:Hk; [|done].
  unfold slot_of. destruct (decide (this = this')) as [<-|Hn].
  - rewrite lookup_insert_eq, Hk. simpl.
    assert (idx ≠ idx') by congruence.
    by rewrite !list_lookup_insert_ne.
  - by rewrite lookup_insert_ne.
Qed.

Section Resolution.
Context `{Collab : Collaborators}.

(** ** The class resolver *)

Lemma load_by_name_classes (name : Utf8Const) (loader : LoaderRef) (vm : Machine) :
  vm_classes (load_by_name name loader vm).2 = vm_classes vm.
Proof. unfold load_by_name. by destruct (first_char_is name "[")%char. Qed.

Lemma load_by_name_trace (name : Utf8Const) (loader : LoaderRef) (vm : Machine) :
  vm_trace (load_by_name name loader vm).2 = vm_trace vm ++ [load_request name loader].
Proof. unfold load_by_name, load_request. by destruct (first_char_is name "[")%char. Qed.

(** The fast path: a resolved slot is returned as it is. *)
Lemma getClass_resolved (idx : nat) (this : ClassRef) (einfo : errorInfo)
    (vm : Machine) (c : ClassRef) :
  slot_of (vm_classes vm) this idx = Some (CONSTANT_ResolvedClass, SlotClass c) →
  getClass idx this einfo vm = Ok (Some c, einfo, vm).
Proof.
  intros Hs. apply slot_of_Some in Hs as (k & Hk & Ht & Hd).
  unfold getClass, deref, pool_tag, CLASS_CLASS, pool_data, CLASS_CONSTANTS.
  rewrite Hk. simpl. rewrite Ht. simpl. by rewrite Hd.
Qed.

(** The slow path: an unresolved slot sends its name to the loader. *)
Lemma getClass_unresolved (idx : nat) (this : ClassRef) (einfo : errorInfo)
    (vm : Machine) (k : Hjava_lang_Class) (name : Utf8Const) :
  vm_classes vm !! this = Some k →
  slot_of (vm_classes vm) this idx = Some (CONSTANT_Class, SlotUtf8 name) →
  getClass idx this einfo vm =
    match (load_by_name name (c_loader k) vm).1 with
    | LoadFailed e => Ok (None, e, (load_by_name name (c_loader k) vm).2)
    | Loaded class =>
        Ok (Some class, einfo,
            mkMachine (store_slot (vm_classes vm) this idx
                                  CONSTANT_ResolvedClass (SlotClass class))
                      (vm_ext (load_by_name name (c_loader k) vm).2)
                      (vm_trace (load_by_name name (c_loader k) vm).2))
    end.
Proof.
  intros Hk Hs. apply slot_of_Some in Hs as (k' & Hk' & Ht & Hd).
  rewrite Hk in Hk'. injection Hk' as <-.
  unfold getClass, deref, pool_tag, pool_utf8, pool_data, CLASS_CONSTANTS.
  rewrite Hk. simpl. rewrite Ht. simpl. rewrite Hd. simpl.
  destruct (load_by_name name (c_loader k) vm).1; [|done].
  by rewrite load_by_name_classes.
Qed.

(** Whatever [getClass] does, a resolved slot stays as it is. *)
Lemma getClass_keeps_resolved (idx' : nat) (this' : ClassRef) (einfo : errorInfo)
    (vm vm' : Machine) (r : option ClassRef) (e : errorInfo)
    (this : ClassRef) (idx : nat) (c : ClassRef) :
  getClass idx' this' einfo vm = Ok (r, e, vm') →
  slot_of (vm_classes vm) this idx = Some (CONSTANT_ResolvedClass, SlotClass c) →
  slot_of (vm_classes vm') this idx = Some (CONSTANT_ResolvedClass, SlotClass c).
Proof.
  intros Hg Hs. unfold getClass in Hg.
  bind_inv Hg k Hk. bind_inv Hg tag Ht.
  destruct (tag =? CONSTANT_ResolvedClass) eqn:Hres.
  { bind_inv Hg c0 Hc0. by injection Hg as _ _ <-. }
  destruct (tag =? CONSTANT_Class) eqn:Hcl; [|by injection Hg as _ _ <-].
  bind_inv Hg tag' Ht'. bind_inv Hg name Hn.
  rewrite Ht in Ht'. injection Ht' as <-. rewrite Hres in Hg.
  destruct (load_by_name name (c_loader k) vm).1 eqn:Hl.
  - injection Hg as _ _ <-. simpl. rewrite load_by_name_classes.
    rewrite slot_of_store_slot_ne; [done|].
    intros [= -> ->].
    apply slot_of_Some in Hs as (k0 & Hk0 & Ht0 & _).
    unfold deref in Hk. rewrite Hk0 in Hk. injection Hk as <-.
    unfold pool_tag, CLASS_CONSTANTS in Ht. rewrite Ht0 in Ht. injection Ht as <-.
    by rewrite Z.eqb_refl in Hres.
  - injection Hg as _ _ <-. by rewrite load_by_name_classes.
Qed.

(** ** The walks of the method resolver leave the constant pools alone *)

Lemma superclass_walk_same_pools (fuel : nat) (h h' : Arena) (class : option ClassRef)
    (name sig : Utf8Const) (r : option MethodRef) :
  superclass_walk fuel h class name sig = Ok (r, h') → same_pools h h'.
Proof.
  revert h class. induction fuel as [|fuel IH]; intros h [c|]; simpl; intros Hw;
    try done; try (injection Hw as _ <-; apply same_pools_refl).
  bind_inv Hw f Hf. destruct f as [m h1].
  apply findMethodLocal_same_pools in Hf. simpl in Hw.
  destruct m as [mptr|].
  - by injection Hw as _ <-.
  - bind_inv Hw k Hk. apply IH in Hw. by eapply same_pools_trans.
Qed.

Lemma interface_scan_same_pools (h h' : Arena) (class : ClassRef) (n : nat)
    (name sig : Utf8Const) (r : option MethodRef) :
  interface_scan h class n name sig = Ok (r, h') → same_pools h h'.
Proof.
  revert h. induction n as [|n IH]; intros h; simpl; intros Hs.
  - injection Hs as _ <-. apply same_pools_refl.
  - bind_inv Hs k Hk. bind_inv Hs c Hc. bind_inv Hs f Hf. destruct f as [m h1].
    apply findMethodLocal_same_pools in Hf. simpl in Hs.
    destruct m as [mptr|].
    + by injection Hs as _ <-.
    + apply IH in Hs. by eapply same_pools_trans.
Qed.

Lemma find_in_hierarchy_same_pools (fuel : nat) (isSpecial : Z) (name sig : Utf8Const)
    (class this : ClassRef) (call call' : callInfo) (h h' : Arena) :
  find_in_hierarchy fuel isSpecial name sig class this call h = Ok (call', h') →
  same_pools h h'.
Proof.
  unfold find_in_hierarchy. intros Hf.
  bind_inv Hf dk Hdk.
  destruct (c_state dk <? CSTATE_LINKED); [done|].
  bind_inv Hf root Hroot. bind_inv Hf rc Hrc. bind_inv Hf rk Hrk.
  bind_inv Hf w Hw. destruct w as [w h1].
  apply superclass_walk_same_pools in Hw. simpl in Hf.
  destruct (bool_decide (w = None) && (isSpecial =? 2)).
  - bind_inv Hf ck Hck. bind_inv Hf s Hs. destruct s as [s h2].
    apply interface_scan_same_pools in Hs.
    injection Hf as _ <-. by eapply same_pools_trans.
  - by injection Hf as _ <-.
Qed.

(** ** The method resolver, case by case *)

Lemma tag_test_false (tag : Z) :
  tag = CONSTANT_Methodref ∨ tag = CONSTANT_InterfaceMethodref →
  negb (tag =? CONSTANT_Methodref) && negb (tag =? CONSTANT_InterfaceMethodref) = false.
Proof. by intros [-> | ->]. Qed.

Lemma tag_test_true (tag : Z) :
  tag ≠ CONSTANT_Methodref → tag ≠ CONSTANT_InterfaceMethodref →
  negb (tag =? CONSTANT_Methodref) && negb (tag =? CONSTANT_InterfaceMethodref) = true.
Proof.
  intros H1 H2. apply Z.eqb_neq in H1, H2. by rewrite H1, H2.
Qed.

Lemma tag_test_cases (tag : Z) :
  (negb (tag =? CONSTANT_Methodref) && negb (tag =? CONSTANT_InterfaceMethodref) = true
   ∧ tag ≠ CONSTANT_Methodref ∧ tag ≠ CONSTANT_InterfaceMethodref)
  ∨ (negb (tag =? CONSTANT_Methodref) && negb (tag =? CONSTANT_InterfaceMethodref) = false
     ∧ (tag = CONSTANT_Methodref ∨ tag = CONSTANT_InterfaceMethodref)).
Proof.
  destruct (decide (tag = CONSTANT_Methodref)) as [E1|E1];
    [right; split; [by apply tag_test_false; left | by left]|].
  destruct (decide (tag = CONSTANT_InterfaceMethodref)) as [E2|E2];
    [right; split; [by apply tag_test_false; right | by right]|].
  left. split; [by apply tag_test_true | done].
Qed.

(** A slot with another tag: failure, with the five pointers cleared. *)
Lemma getMethodSignatureClass_wrong_tag (fuel idx : nat) (this : ClassRef)
    (eager : bool) (isSpecial : Z) (call : callInfo) (einfo : errorInfo)
    (vm : Machine) (k : Hjava_lang_Class) (tag : Z) :
  vm_classes vm !! this = Some k →
  tags (c_constants k) !! idx = Some tag →
  tag ≠ CONSTANT_Methodref → tag ≠ CONSTANT_InterfaceMethodref →
  getMethodSignatureClass fuel idx this eager isSpecial call einfo vm =
    Ok (false, call_clear call,
        postExceptionMessage (JAVA_LANG "NoSuchMethodError")
                             ("method name unknown, tag = " +:+ pretty tag),
        vm).
Proof.
  intros Hk Ht H1 H2.
  unfold getMethodSignatureClass, deref, pool_tag, CLASS_CONSTANTS.
  rewrite Hk. simpl. rewrite Ht. simpl. by rewrite tag_test_true.
Qed.

(** An eager resolution of a method reference, in terms of [getClass]. *)
Lemma getMethodSignatureClass_eager (fuel idx : nat) (this : ClassRef)
    (isSpecial : Z) (call : callInfo) (einfo : errorInfo) (vm : Machine)
    (ci : nat) (name sig : Utf8Const) :
  methodref_at (vm_classes vm) this idx ci name sig →
  getMethodSignatureClass fuel idx this true isSpecial call einfo vm =
    (let* g := getClass ci this einfo vm in
     match g.1.1 with
     | None =>
         let* k' := deref (vm_classes g.2) this in
         let* payload := pool_data (CLASS_CONSTANTS k') ci in
         Ok (false,
             call_set_counts (call_store_cname (named call name sig) (cast_utf8 payload))
                             (countInsAndOuts sig),
             g.1.2, g.2)
     | Some class =>
         let* f := find_in_hierarchy fuel isSpecial name sig class this
                                     (named call name sig) (vm_classes g.2) in
         Ok (true, call_set_counts f.1 (countInsAndOuts sig), g.1.2,
             mkMachine f.2 (vm_ext g.2) (vm_trace g.2))
     end).
Proof.
  intros (k & tag & ni & nn & ns & Hk & Ht & Htag & Hni & Hnn & Hname & Hns & Hsig & Hci).
  unfold getMethodSignatureClass, deref, pool_tag, CLASS_CONSTANTS.
  rewrite Hk. simpl. rewrite Ht. simpl. rewrite tag_test_false by done.
  rewrite Hni. simpl. rewrite Hnn. simpl. rewrite Hname. simpl.
  rewrite Hns. simpl. rewrite Hsig. simpl. rewrite Hci. by simpl.
Qed.

(** Every way in which [getMethodSignatureClass] returns. *)
Lemma getMethodSignatureClass_inv (fuel idx : nat) (this : ClassRef) (eager : bool)
    (isSpecial : Z) (call : callInfo) (einfo : errorInfo) (vm : Machine)
    (b : bool) (call' : callInfo) (e : errorInfo) (vm' : Machine) :
  getMethodSignatureClass fuel idx this eager isSpecial call einfo vm
    = Ok (b, call', e, vm') →
  (∃ k tag,
      vm_classes vm !! this = Some k ∧ tags (c_constants k) !! idx = Some tag
      ∧ tag ≠ CONSTANT_Methodref ∧ tag ≠ CONSTANT_InterfaceMethodref
      ∧ b = false ∧ call' = call_clear call ∧ vm' = vm
      ∧ e = postExceptionMessage (JAVA_LANG "NoSuchMethodError")
                                 ("method name unknown, tag = " +:+ pretty tag))
  ∨ (eager = false ∧ b = true ∧ e = einfo ∧ vm' = vm
     ∧ ∃ name sig,
         call' = call_set_counts (named call name sig) (countInsAndOuts sig))
  ∨ (eager = true ∧ ∃ ci name sig,
       methodref_at (vm_classes vm) this idx ci name sig
       ∧ ((∃ k' payload,
              getClass ci this einfo vm = Ok (None, e, vm') ∧ b = false
              ∧ vm_classes vm' !! this = Some k'
              ∧ data (c_constants k') !! ci = Some payload
              ∧ call' = call_set_counts
                          (call_store_cname (named call name sig) (cast_utf8 payload))
                          (countInsAndOuts sig))
          ∨ (∃ class vm1 f,
                getClass ci this einfo vm = Ok (Some class, e, vm1)
                ∧ find_in_hierarchy fuel isSpecial name sig class this
                                    (named call name sig) (vm_classes vm1) = Ok f
                ∧ b = true
                ∧ call' = call_set_counts f.1 (countInsAndOuts sig)
                ∧ vm' = mkMachine f.2 (vm_ext vm1) (vm_trace vm1)))).
Proof.
  intros Hg. unfold getMethodSignatureClass in Hg.
  bind_inv Hg k Hk. bind_inv Hg tag Ht.
  unfold deref in Hk. unfold pool_tag, CLASS_CONSTANTS in Ht.
  destruct (vm_classes vm !! this) as [k0|] eqn:Hl; simpl in Hk; [|done].
  injection Hk as ->.
  destruct (tags (c_constants k) !! idx) as [tag0|] eqn:Htl; simpl in Ht; [|done].
  injection Ht as ->.
  destruct (tag_test_cases tag) as [(Htest & H1 & H2) | (Htest & Htag)];
    rewrite Htest in Hg.
  { left. injection Hg as <- <- <- <-. by exists k, tag. }
  right.
  bind_inv Hg ni Hni. bind_inv Hg nn Hnn. bind_inv Hg name Hname.
  bind_inv Hg ns Hns. bind_inv Hg sig Hsig.
  destruct eager.
  2:{ left. injection Hg as <- <- <- <-. repeat split; try done. by exists name, sig. }
  right. split; [done|].
  bind_inv Hg ci Hci. exists ci, name, sig. split.
  { by exists k, tag, ni, nn, ns. }
  bind_inv Hg g Hgc. destruct g as [[r e1] vm1]. simpl in Hg.
  destruct r as [class|].
  - right. bind_inv Hg f Hf. injection Hg as <- <- <- <-.
    by exists class, vm1, f.
  - left. bind_inv Hg k' Hk'. bind_inv Hg payload Hpl. injection Hg as <- <- <- <-.
    unfold deref in Hk'. destruct (vm_classes vm1 !! this) as [k1|] eqn:Hl1; [|done].
    injection Hk' as ->. unfold pool_data, CLASS_CONSTANTS in Hpl.
    destruct (data (c_constants k') !! ci) as [d|] eqn:Hd; [|done].
    injection Hpl as ->. by exists k', payload.
Qed.

(** ** The field resolver, case by case *)

Lemma getField_wrong_tag (idx : nat) (this : ClassRef) (isStatic : bool)
    (ret : fieldInfo) (einfo : errorInfo) (vm : Machine)
    (k : Hjava_lang_Class) (tag : Z) :
  vm_classes vm !! this = Some k →
  tags (c_constants k) !! idx = Some tag →
  tag ≠ CONSTANT_Fieldref →
  getField idx this isStatic ret einfo vm =
    Ok (false, ret,
        postExceptionMessage (JAVA_LANG "NoSuchFieldError") ("tag was " +:+ pretty tag),
        vm).
Proof.
  intros Hk Ht Hne. unfold getField, deref, pool_tag, CLASS_CONSTANTS.
  rewrite Hk. simpl. rewrite Ht. simpl.
  apply Z.eqb_neq in Hne. by rewrite Hne.
Qed.

Lemma getField_fieldref (idx : nat) (this : ClassRef) (isStatic : bool)
    (ret : fieldInfo) (einfo : errorInfo) (vm : Machine)
    (ci : nat) (name sig : Utf8Const) :
  fieldref_at (vm_classes vm) this idx ci name sig →
  getField idx this isStatic ret einfo vm =
    (let* g := getClass ci this einfo vm in
     match g.1.1 with
     | None => Ok (false, ret, g.1.2, g.2)
     | Some class =>
         let* ck := deref (vm_classes g.2) class in
         let* k' := deref (vm_classes g.2) this in
         let pool := CLASS_CONSTANTS k' in
         let* ni := FIELDREF_NAMEANDTYPE idx pool in
         let* nn := NAMEANDTYPE_NAME ni pool in
         let* name := pool_utf8 pool nn in
         let* ns := NAMEANDTYPE_SIGNATURE ni pool in
         let* sig := pool_utf8 pool ns in
         match lookupClassField (vm_classes g.2) class name isStatic with
         | FieldMissing e =>
             Ok (false,
                 mkFieldInfo (Some (c_name ck)) (Some name) (Some sig)
                             (fi_field ret) (fi_class ret),
                 e, g.2)
         | FieldFound field =>
             Ok (true,
                 mkFieldInfo (Some (c_name ck)) (Some name) (Some sig)
                             (Some field) (Some class),
                 g.1.2, g.2)
         end
     end).
Proof.
  intros (k & ni & nn & ns & Hk & Ht & Hci & _).
  unfold getField, deref, pool_tag, CLASS_CONSTANTS.
  rewrite Hk. simpl. rewrite Ht. simpl. rewrite Hci. simpl.
  destruct (getClass ci this einfo vm) as [[[r e1] vm1]| |]; simpl; try done.
Qed.

Lemma getField_machine (idx : nat) (this : ClassRef) (isStatic : bool)
    (ret ret' : fieldInfo) (einfo e : errorInfo) (vm vm' : Machine) (b : bool) :
  getField idx this isStatic ret einfo vm = Ok (b, ret', e, vm') →
  vm' = vm ∨ ∃ ci r e1, getClass ci this einfo vm = Ok (r, e1, vm').
Proof.
  intros Hg. unfold getField in Hg.
  bind_inv Hg k Hk. bind_inv Hg tag Ht.
  destruct (negb (tag =? CONSTANT_Fieldref)).
  { left. by injection Hg as _ _ _ <-. }
  right. bind_inv Hg ci Hci. bind_inv Hg g Hgc. destruct g as [[r e1] vm1].
  exists ci, r, e1. simpl in Hg. destruct r as [class|].
  - bind_inv Hg ck Hck. bind_inv Hg k' Hk'. bind_inv Hg ni Hni. bind_inv Hg nn Hnn.
    bind_inv Hg name Hname. bind_inv Hg ns Hns. bind_inv Hg sig Hsig.
    destruct (lookupClassField (vm_classes vm1) class name isStatic);
      by injection Hg as _ _ _ <-.
  - by injection Hg as _ _ _ <-.
Qed.


(** ** Resolved slots are permanent *)

Lemma lookup_step_keeps_resolved (vm vm' : Machine) (this : ClassRef) (idx : nat)
    (c : ClassRef) :
  lookup_step vm vm' →
  slot_of (vm_classes vm) this idx = Some (CONSTANT_ResolvedClass, SlotClass c) →
  slot_of (vm_classes vm') this idx = Some (CONSTANT_ResolvedClass, SlotClass c).
Proof.
  intros Hstep Hs. destruct Hstep as
      [idx' this' einfo vm r e vm' Hg
      |fuel idx' this' eager isSpecial call einfo vm b call' e vm' Hg
      |idx' this' isStatic ret einfo vm b ret' e vm' Hg
      |class name sig vm mptr h' Hf].
  - by eapply getClass_keeps_resolved.
  - apply getMethodSignatureClass_inv in Hg
      as [(k & tag & _ & _ & _ & _ & _ & _ & -> & _)
         |[(_ & _ & _ & -> & _)
          |(_ & ci & name & sig & _
            & [(k' & payload & Hgc & _)|(class & vm1 & f & Hgc & Hf & _ & _ & ->)])]];
      try done.
    + by eapply getClass_keeps_resolved.
    + destruct f as [call1 h1]. apply find_in_hierarchy_same_pools in Hf. simpl.
      rewrite (same_pools_slot_of _ _ _ _ Hf). by eapply getClass_keeps_resolved.
  - apply getField_machine in Hg as [-> | (ci & r & e1 & Hgc)]; [done|].
    by eapply getClass_keeps_resolved.
  - apply findMethodLocal_same_pools in Hf. simpl.
    by rewrite (same_pools_slot_of _ _ _ _ Hf).
Qed.

Lemma lookup_steps_keep_resolved (vm vm' : Machine) (this : ClassRef) (idx : nat)
    (c : ClassRef) :
  rtc lookup_step vm vm' →
  slot_of (vm_classes vm) this idx = Some (CONSTANT_ResolvedClass, SlotClass c) →
  slot_of (vm_classes vm') this idx = Some (CONSTANT_ResolvedClass, SlotClass c).
Proof.
  induction 1 as [|vm vm1 vm2 Hstep _ IH]; [done|].
  intros Hs. apply IH. by eapply lookup_step_keeps_resolved.
Qed.

(** ** The search root and the search *)

Lemma search_root_retargets (h : Arena) (name : Utf8Const) (class this : ClassRef)
    (kt : Hjava_lang_Class) :
  name ≠ constructor_name → class ≠ this → instanceof h class this = true →
  h !! this = Some kt →
  search_root h 1 name class this = Ok (c_superclass kt).
Proof.
  intros Hn Hc Hi Hk. unfold search_root, deref. simpl.
  apply utf8ConstEqual_false in Hn. rewrite Hn.
  rewrite bool_decide_eq_false_2 by done. rewrite Hi. simpl. by rewrite Hk.
Qed.

Lemma search_root_cases (h : Arena) (isSpecial : Z) (name : Utf8Const)
    (class this : ClassRef) (root : option ClassRef) :
  search_root h isSpecial name class this = Ok root →
  (root = Some class
   ∧ (isSpecial ≠ 1 ∨ name = constructor_name ∨ class = this
      ∨ instanceof h class this = false))
  ∨ (isSpecial = 1 ∧ name ≠ constructor_name ∧ class ≠ this
     ∧ instanceof h class this = true
     ∧ ∃ kt, h !! this = Some kt ∧ root = c_superclass kt).
Proof.
  unfold search_root.
  destruct (isSpecial =? 1) eqn:Hs.
  2:{ intros [= <-]. left. split; [done|]. left. by apply Z.eqb_neq. }
  apply Z.eqb_eq in Hs.
  destruct (utf8ConstEqual name constructor_name) eqn:Hn; simpl.
  { intros [= <-]. left. split; [done|]. right; left. by apply utf8ConstEqual_true. }
  destruct (bool_decide (class = this)) eqn:Hc; simpl.
  { intros [= <-]. left. split; [done|]. right; right; left.
    by apply bool_decide_eq_true in Hc. }
  destruct (instanceof h class this) eqn:Hi; simpl.
  2:{ intros [= <-]. left. split; [done|]. by right; right; right. }
  intros Hr. bind_inv Hr kt Hk. injection Hr as <-. right.
  apply utf8ConstEqual_false in Hn. apply bool_decide_eq_false in Hc.
  unfold deref in Hk. destruct (h !! this) as [kt0|]; simpl in Hk; [|done].
  injection Hk as ->. repeat split; try done. by exists kt.
Qed.

Lemma findMethodLocal_None (h h' : Arena) (class : ClassRef) (name sig : Utf8Const) :
  findMethodLocal h class name sig = Ok (None, h') →
  h' = h ∧ ∃ k, h !! class = Some k ∧ ¬ declares k name sig.
Proof.
  unfold findMethodLocal, deref. intros Hf.
  destruct (h !! class) as [k|] eqn:Hk; simpl in Hf; [|done].
  apply findMethodLocal_scan_None in Hf as [-> Hno]. split; [done|].
  exists k. split; [done|]. intros (m & Hm & Hn & Hs). by apply (Hno m).
Qed.

Lemma findMethodLocal_Some (h h' : Arena) (class : ClassRef) (name sig : Utf8Const)
    (p : MethodRef) :
  findMethodLocal h class name sig = Ok (Some p, h') →
  p.1 = class ∧ ∃ k, h !! class = Some k ∧ declares k name sig.
Proof.
  unfold findMethodLocal, deref. intros Hf.
  destruct (h !! class) as [k|] eqn:Hk; simpl in Hf; [|done].
  apply findMethodLocal_scan_Some in Hf as (i & m & -> & Hl & Hn & Hs & _).
  split; [done|]. exists k. split; [done|]. exists m.
  split; [|done]. apply list_elem_of_lookup. by exists i.
Qed.

(** A walk that finds nothing writes nothing. *)
Lemma superclass_walk_None (fuel : nat) (h h' : Arena) (class : option ClassRef)
    (name sig : Utf8Const) :
  superclass_walk fuel h class name sig = Ok (None, h') → h' = h.
Proof.
  revert h class. induction fuel as [|fuel IH]; intros h [c|]; simpl; intros Hw;
    try done; try (by injection Hw as <-).
  bind_inv Hw f Hf. destruct f as [[mptr|] h1]; simpl in Hw; [done|].
  apply findMethodLocal_None in Hf as [-> _].
  bind_inv Hw k Hk. by apply IH in Hw.
Qed.

(** What the scan of the interface array consults: the entries of the
    array of [class], from the last one down, and nothing else. *)
Lemma interface_scan_spec (h h' : Arena) (class : ClassRef) (k : Hjava_lang_Class)
    (n : nat) (name sig : Utf8Const) (r : option MethodRef) :
  h !! class = Some k →
  interface_scan h class n name sig = Ok (r, h') →
  match r with
  | Some p =>
      ∃ i kc, (i < n)%nat ∧ c_interfaces k !! i = Some p.1
              ∧ h !! p.1 = Some kc ∧ declares kc name sig
              ∧ ∀ j cj kj, (i < j < n)%nat → c_interfaces k !! j = Some cj →
                           h !! cj = Some kj → ¬ declares kj name sig
  | None =>
      h' = h
      ∧ ∀ j cj kj, (j < n)%nat → c_interfaces k !! j = Some cj →
                   h !! cj = Some kj → ¬ declares kj name sig
  end.
Proof.
  intros Hk. induction n as [|n IH]; simpl; intros Hs.
  - injection Hs as <- <-. split; [done|]. intros j cj kj Hj. lia.
  - bind_inv Hs k0 Hk0. unfold deref in Hk0. rewrite Hk in Hk0. injection Hk0 as <-.
    bind_inv Hs c Hc. destruct (c_interfaces k !! n) as [c0|] eqn:Hn; [|done].
    injection Hc as ->.
    bind_inv Hs f Hf. destruct f as [[mptr|] h1]; simpl in Hs.
    + injection Hs as <- <-.
      apply findMethodLocal_Some in Hf as (Hp & kc & Hkc & Hd).
      exists n, kc. rewrite Hp. split; [lia|]. split; [done|]. split; [done|].
      split; [done|]. intros j cj kj Hj. lia.
    + apply findMethodLocal_None in Hf as (-> & kc & Hkc & Hnd).
      specialize (IH Hs). destruct r as [p|].
      * destruct IH as (i & kp & Hi & Hli & Hkp & Hdp & Hafter).
        exists i, kp. split; [lia|]. split; [done|]. split; [done|].
        split; [done|]. intros j cj kj Hj Hlj Hkj.
        destruct (decide (j = n)) as [->|Hne].
        -- rewrite Hn in Hlj. injection Hlj as <-. rewrite Hkc in Hkj. by injection Hkj as <-.
        -- apply (Hafter j cj kj); [lia | done | done].
      * destruct IH as (-> & Hnone). split; [done|].
        intros j cj kj Hj Hlj Hkj.
        destruct (decide (j = n)) as [->|Hne].
        -- rewrite Hn in Hlj. injection Hlj as <-. rewrite Hkc in Hkj. by injection Hkj as <-.
        -- apply (Hnone j cj kj); [lia | done | done].
Qed.

(** The search after the class has been resolved, when the state
    assertion holds and the root is known. *)
Lemma find_in_hierarchy_from_root (fuel : nat) (isSpecial : Z) (name sig : Utf8Const)
    (class this root : ClassRef) (call : callInfo) (h : Arena)
    (dk rk : Hjava_lang_Class) :
  h !! class = Some dk → CSTATE_LINKED ≤ c_state dk →
  search_root h isSpecial name class this = Ok (Some root) →
  h !! root = Some rk →
  find_in_hierarchy fuel isSpecial name sig class this call h =
    (let* w := superclass_walk fuel h (Some root) name sig in
     let call1 :=
       call_set_method (call_set_cname (call_set_class call root) (c_name rk)) w.1 in
     if bool_decide (w.1 = None) && (isSpecial =? 2) then
       let* ck := deref w.2 root in
       let* s := interface_scan w.2 root (total_interface_len ck) name sig in
       Ok (call_set_method call1 s.1, s.2)
     else Ok (call1, w.2)).
Proof.
  intros Hdk Hst Hroot Hrk. unfold find_in_hierarchy, deref.
  rewrite Hdk. simpl.
  destruct (c_state dk <? CSTATE_LINKED) eqn:Hlt; [apply Z.ltb_lt in Hlt; lia|].
  rewrite Hroot. simpl. rewrite Hrk. by simpl.
Qed.

(** ** The searches return on a closed arena *)

Lemma patch_abstract_total (h : Arena) (class : ClassRef) (i : nat) (m : Method) :
  is_Some (h !! m_class m) → ∃ h', patch_abstract h class i m = Ok h'.
Proof.
  intros [dk Hdk]. unfold patch_abstract, deref. rewrite Hdk. simpl.
  destruct (negb (Z.land (m_accflags m) ACC_ABSTRACT =? 0)); [|by eexists].
  destruct (negb (CLASS_IS_INTERFACE dk)); by eexists.
Qed.

Lemma findMethodLocal_scan_total (h : Arena) (class : ClassRef) (name sig : Utf8Const)
    (ms : list Method) (i0 : nat) :
  (∀ m, m ∈ ms → is_Some (h !! m_class m)) →
  ∃ r h', findMethodLocal_scan h class name sig ms i0 = Ok (r, h').
Proof.
  revert i0. induction ms as [|m0 rest IH]; intros i0 Hin; simpl; [by eexists _, _|].
  destruct (utf8ConstEqual name (m_name m0) && utf8ConstEqual sig (METHOD_SIG m0)).
  - destruct (patch_abstract_total h class i0 m0) as [h' Hp]; [apply Hin; left|].
    rewrite Hp. simpl. by eexists _, _.
  - apply IH. intros m Hm. apply Hin. by right.
Qed.

Lemma findMethodLocal_total (h : Arena) (class : ClassRef) (k : Hjava_lang_Class)
    (name sig : Utf8Const) :
  closed h → h !! class = Some k →
  ∃ r h', findMethodLocal h class name sig = Ok (r, h').
Proof.
  intros Hcl Hk. unfold findMethodLocal, deref. rewrite Hk. simpl.
  apply findMethodLocal_scan_total. by apply (Hcl class k Hk).
Qed.

Lemma superclass_walk_total (fuel : nat) (h : Arena) (class : option ClassRef)
    (name sig : Utf8Const) :
  closed h → chain_within h class fuel →
  ∃ r h', superclass_walk fuel h class name sig = Ok (r, h').
Proof.
  intros Hcl Hch. induction Hch as [n|c k n Hk Hch IH].
  - destruct n; simpl; by eexists _, _.
  - simpl. destruct (findMethodLocal_total h c k name sig Hcl Hk) as (r & h' & Hf).
    rewrite Hf. simpl. destruct r as [mptr|]; [by eexists _, _|].
    apply findMethodLocal_None in Hf as [-> _].
    unfold deref. rewrite Hk. simpl. exact IH.
Qed.

Lemma interface_scan_total (h : Arena) (class : ClassRef) (k : Hjava_lang_Class)
    (n : nat) (name sig : Utf8Const) :
  closed h → h !! class = Some k → (n ≤ total_interface_len k)%nat →
  ∃ r h', interface_scan h class n name sig = Ok (r, h').
Proof.
  intros Hcl Hk. induction n as [|n IH]; intros Hn; simpl; [by eexists _, _|].
  unfold deref. rewrite Hk. simpl.
  destruct (lookup_lt_is_Some_2 (c_interfaces k) n) as [c Hc];
    [unfold total_interface_len in Hn; lia|].
  rewrite Hc. simpl.
  destruct (proj1 (proj2 (Hcl class k Hk)) c) as [kc Hkc];
    [apply list_elem_of_lookup; by exists n|].
  destruct (findMethodLocal_total h c kc name sig Hcl Hkc) as (r & h' & Hf).
  rewrite Hf. simpl. destruct r as [mptr|]; [by eexists _, _|].
  apply findMethodLocal_None in Hf as [-> _]. apply IH. lia.
Qed.

End Resolution.

(** C2: failure is not cached, success is.
    For a slot of the pool of [this] that holds an unresolved class
    name: when the loader fails, [getClass] returns null with the
    loader's error, the arena (so the tag and the payload of the slot) is
    as before, and a further call on the slot sends the request to the
    loader again; when the loader succeeds, the slot becomes
    ResolvedClass with the loaded class, and after any number of further
    calls of the functions of lookup.c every [getClass] on the slot
    returns that class and leaves the machine, and with it the state of
    the loader and the list of requests made to it, untouched. *)
Theorem getClass_caches_success_only `{Collab : Collaborators}
    (idx : nat) (this : ClassRef) (einfo : errorInfo) (vm : Machine)
    (k : Hjava_lang_Class) (name : Utf8Const) :
  vm_classes vm !! this = Some k →
  slot_of (vm_classes vm) this idx = Some (CONSTANT_Class, SlotUtf8 name) →
  (∀ e, (load_by_name name (c_loader k) vm).1 = LoadFailed e →
     ∃ vm1,
       getClass idx this einfo vm = Ok (None, e, vm1)
       ∧ vm_classes vm1 = vm_classes vm
       ∧ slot_of (vm_classes vm1) this idx = Some (CONSTANT_Class, SlotUtf8 name)
       ∧ ∀ einfo', ∃ r e' vm2,
           getClass idx this einfo' vm1 = Ok (r, e', vm2)
           ∧ vm_trace vm2 = vm_trace vm1 ++ [load_request name (c_loader k)])
  ∧ (∀ class, (load_by_name name (c_loader k) vm).1 = Loaded class →
     ∃ vm1,
       getClass idx this einfo vm = Ok (Some class, einfo, vm1)
       ∧ slot_of (vm_classes vm1) this idx
         = Some (CONSTANT_ResolvedClass, SlotClass class)
       ∧ ∀ vm2 einfo', rtc lookup_step vm1 vm2 →
           getClass idx this einfo' vm2 = Ok (Some class, einfo', vm2)).
Proof.
  intros Hk Hs. split.
  - intros e Hl. exists (load_by_name name (c_loader k) vm).2.
    assert (Hc := load_by_name_classes name (c_loader k) vm).
    split; [|split; [done|split; [by rewrite Hc|]]].
    { rewrite (getClass_unresolved idx this einfo vm k name Hk Hs). by rewrite Hl. }
    intros einfo'.
    set (vm1 := (load_by_name name (c_loader k) vm).2) in *.
    assert (Hk1 : vm_classes vm1 !! this = Some k) by (by rewrite Hc).
    assert (Hs1 : slot_of (vm_classes vm1) this idx = Some (CONSTANT_Class, SlotUtf8 name))
      by (by rewrite Hc).
    rewrite (getClass_unresolved idx this einfo' vm1 k name Hk1 Hs1).
    destruct (load_by_name name (c_loader k) vm1).1 as [c2|e2].
    + eexists _, _, _. split; [done|]. simpl. apply load_by_name_trace.
    + eexists _, _, _. split; [done|]. apply load_by_name_trace.
  - intros class Hl.
    eexists. split.
    { rewrite (getClass_unresolved idx this einfo vm k name Hk Hs). by rewrite Hl. }
    simpl.
    assert (Hres : slot_of (store_slot (vm_classes vm) this idx CONSTANT_ResolvedClass
                                       (SlotClass class)) this idx
                   = Some (CONSTANT_ResolvedClass, SlotClass class))
      by (by eapply slot_of_store_slot_eq).
    split; [done|].
    intros vm2 einfo' Hsteps. apply getClass_resolved.
    by apply (lookup_steps_keep_resolved _ _ _ _ _ Hsteps).
Qed.

Lemma getClass_caches_success_only_witness :
  (∃ vm1,
     getClass 1 ABC.C no_error ABC.vm_offline = Ok (None, Failing.not_found "B", vm1)
     ∧ vm_classes vm1 = vm_classes ABC.vm_offline
     ∧ slot_of (vm_classes vm1) ABC.C 1 = Some (CONSTANT_Class, SlotUtf8 "B")
     ∧ ∀ einfo', ∃ r e' vm2,
         getClass 1 ABC.C einfo' vm1 = Ok (r, e', vm2)
         ∧ vm_trace vm2 = vm_trace vm1 ++ [load_request "B" (c_loader ABC.classC)])
  ∧ (∃ vm1,
       getClass 1 ABC.C no_error ABC.vm = Ok (Some ABC.B, no_error, vm1)
       ∧ slot_of (vm_classes vm1) ABC.C 1
         = Some (CONSTANT_ResolvedClass, SlotClass ABC.B)
       ∧ ∀ vm2 einfo', rtc lookup_step vm1 vm2 →
           getClass 1 ABC.C einfo' vm2 = Ok (Some ABC.B, einfo', vm2)).
Proof.
  split.
  - apply (proj1 (@getClass_caches_success_only TableCollab 1%nat ABC.C no_error
                    ABC.vm_offline ABC.classC "B" eq_refl eq_refl)
                 (Failing.not_found "B") eq_refl).
  - apply (proj2 (@getClass_caches_success_only TableCollab 1%nat ABC.C no_error
                    ABC.vm ABC.classC "B" eq_refl eq_refl)
                 ABC.B eq_refl).
Defined.

(** C1: the special-1 retargeting of the search root.
    In an eager resolution in special-1 mode of a method reference
    whose name is not the constructor name and whose resolved class is
    not the context class but has the context class as a subtype, the
    superclass search starts at the superclass of the context class: the
    result is that of the walk from that class, and the binding records
    it; the walk returns whenever the arena is closed and the superclass
    chain ends within the fuel.  For the hierarchy A -> B -> C, each class defining f()V, the
    special-1 resolution of C's reference to B.f()V returns the method
    of B, not the override of C. *)
Theorem special1_search_starts_at_context_superclass :
  (∀ (Collab : Collaborators) (fuel idx : nat) (this : ClassRef)
     (call : callInfo) (einfo : errorInfo) (vm : Machine)
     (ci : nat) (name sig : Utf8Const) (class : ClassRef) (e1 : errorInfo)
     (vm1 : Machine) (dk kt rk : Hjava_lang_Class) (root : ClassRef),
     methodref_at (vm_classes vm) this idx ci name sig →
     getClass ci this einfo vm = Ok (Some class, e1, vm1) →
     vm_classes vm1 !! class = Some dk → CSTATE_LINKED ≤ c_state dk →
     name ≠ constructor_name → class ≠ this →
     instanceof (vm_classes vm1) class this = true →
     vm_classes vm1 !! this = Some kt → c_superclass kt = Some root →
     vm_classes vm1 !! root = Some rk →
     getMethodSignatureClass fuel idx this true 1 call einfo vm =
       (let* w := superclass_walk fuel (vm_classes vm1) (Some root) name sig in
        Ok (true,
            mkCallInfo (Some root) w.1 (Some sig) (Some name) (Some (c_name rk))
                       (countInsAndOuts sig).1.1 (countInsAndOuts sig).1.2
                       (countInsAndOuts sig).2,
            e1, mkMachine w.2 (vm_ext vm1) (vm_trace vm1))))
  ∧ (∀ (fuel : nat) (h : Arena) (root : ClassRef) (name sig : Utf8Const),
       closed h → chain_within h (Some root) fuel →
       ∃ r h', superclass_walk fuel h (Some root) name sig = Ok (r, h'))
  ∧ (∃ call' vm',
       getMethodSignatureClass 3 5 ABC.C true 1 stale_call no_error ABC.vm
         = Ok (true, call', no_error, vm')
       ∧ call_method call' = Some (ABC.B, 0%nat)
       ∧ method_at (vm_classes vm') (ABC.B, 0%nat) = Some (ABC.f_of ABC.B 200)
       ∧ call_method call' ≠ Some (ABC.C, 0%nat)).
Proof.
  split; [|split].
  - intros Collab fuel idx this call einfo vm ci name sig class e1 vm1 dk kt rk root
           Href Hg Hdk Hst Hn Hc Hi Hkt Hsup Hrk.
    rewrite (getMethodSignatureClass_eager fuel idx this 1 call einfo vm ci name sig Href).
    rewrite Hg. simpl.
    rewrite (find_in_hierarchy_from_root fuel 1 name sig class this root _ _ dk rk
               Hdk Hst); [| |done].
    2:{ rewrite (search_root_retargets _ name class this kt Hn Hc Hi Hkt). by rewrite Hsup. }
    destruct (superclass_walk fuel (vm_classes vm1) (Some root) name sig)
      as [[w h1]| |]; simpl; [|done|done].
    by rewrite andb_false_r.
  - intros fuel h root name sig Hcl Hch. by apply superclass_walk_total.
  - eexists _, _. split; [by vm_compute|]. by vm_compute.
Qed.

Lemma special1_search_starts_at_context_superclass_witness :
  getMethodSignatureClass 3 5 ABC.C true 1 stale_call no_error ABC.vm =
    (let vm1 :=
       mkMachine (store_slot ABC.arena ABC.C 1 CONSTANT_ResolvedClass (SlotClass ABC.B))
                 ABC.loader [CallLoadClass "B" None] in
     let* w := superclass_walk 3 (vm_classes vm1) (Some ABC.B) "f" "()V" in
     Ok (true,
         mkCallInfo (Some ABC.B) w.1 (Some "()V") (Some "f") (Some "B") 0 0 "V"%char,
         no_error, mkMachine w.2 (vm_ext vm1) (vm_trace vm1))).
Proof.
  apply (proj1 special1_search_starts_at_context_superclass TableCollab
           3%nat 5%nat ABC.C stale_call no_error ABC.vm 1%nat "f" "()V" ABC.B no_error
           (@mkMachine TableCollab
              (store_slot ABC.arena ABC.C 1 CONSTANT_ResolvedClass (SlotClass ABC.B))
              ABC.loader [CallLoadClass "B" None])
           ABC.classB
           (set_constants ABC.classC
              (mkConstants (<[1%nat := CONSTANT_ResolvedClass]> (tags ABC.poolC))
                           (<[1%nat := SlotClass ABC.B]> (data ABC.poolC))))
           ABC.classB ABC.B).
  - exists ABC.classC, CONSTANT_Methodref, 4%nat, 2%nat, 3%nat.
    vm_compute. repeat split; auto.
  - by vm_compute.
  - by vm_compute.
  - by vm_compute.
  - done.
  - done.
  - by vm_compute.
  - by vm_compute.
  - done.
  - by vm_compute.
Defined.

(** C8 as stated does not hold: in special-1 mode the recorded owning
    class can differ from the statically resolved one.  In the hierarchy
    A -> B -> C, C's reference to A.f()V resolves its class entry to A,
    and the binding records B. *)
Lemma owning_class_not_static_in_special1 :
  ∃ call' vm1 vm',
    getClass 6 ABC.C no_error ABC.vm = Ok (Some ABC.A, no_error, vm1)
    ∧ getMethodSignatureClass 3 7 ABC.C true 1 stale_call no_error ABC.vm
      = Ok (true, call', no_error, vm')
    ∧ call_class call' = Some ABC.B
    ∧ call_class call' ≠ Some ABC.A.
Proof.
  eexists _, _, _. split; [by vm_compute|]. split; [by vm_compute|]. by vm_compute.
Qed.

(** C8, amended: the recorded owning class is the class the search
    starts from.  After a successful eager resolution the binding records
    the root computed by the special-1 block: the statically resolved
    class in every mode other than special-1, and in special-1 mode when
    the method is a constructor, the resolved class is the context class
    or the context class is not a subtype of it; the superclass of the
    context class otherwise.  It is recorded before the search, so it is
    the same wherever the implementation is found. *)
Theorem owning_class_is_search_root `{Collab : Collaborators}
    (fuel idx : nat) (this : ClassRef) (isSpecial : Z) (call call' : callInfo)
    (einfo e e1 : errorInfo) (vm vm1 vm' : Machine) (ci : nat)
    (name sig : Utf8Const) (class : ClassRef) :
  methodref_at (vm_classes vm) this idx ci name sig →
  getClass ci this einfo vm = Ok (Some class, e1, vm1) →
  getMethodSignatureClass fuel idx this true isSpecial call einfo vm
    = Ok (true, call', e, vm') →
  ∃ root,
    search_root (vm_classes vm1) isSpecial name class this = Ok (Some root)
    ∧ call_class call' = Some root
    ∧ ((isSpecial ≠ 1 ∨ name = constructor_name ∨ class = this
        ∨ instanceof (vm_classes vm1) class this = false) → root = class)
    ∧ ((isSpecial = 1 ∧ name ≠ constructor_name ∧ class ≠ this
        ∧ instanceof (vm_classes vm1) class this = true) →
       ∃ kt, vm_classes vm1 !! this = Some kt ∧ c_superclass kt = Some root).
Proof.
  intros Href Hg Hm.
  rewrite (getMethodSignatureClass_eager fuel idx this isSpecial call einfo vm
             ci name sig Href) in Hm.
  rewrite Hg in Hm. simpl in Hm.
  bind_inv Hm f Hf. injection Hm as <- <- <-.
  unfold find_in_hierarchy in Hf.
  bind_inv Hf dk Hdk.
  destruct (c_state dk <? CSTATE_LINKED); [done|].
  bind_inv Hf root Hroot. bind_inv Hf rc Hrc. bind_inv Hf rk Hrk.
  destruct root as [root|]; [|done]. injection Hrc as <-.
  exists root. split; [done|].
  assert (Hclass : call_class f.1 = Some root).
  { bind_inv Hf w Hw.
    destruct (bool_decide (w.1 = None) && (isSpecial =? 2)).
    - bind_inv Hf ck Hck. bind_inv Hf s Hs. by injection Hf as <-.
    - by injection Hf as <-. }
  split; [done|].
  apply search_root_cases in Hroot
    as [(Hr & Hcond) | (Hs & Hn & Hc & Hi & kt & Hkt & Hr)].
  - injection Hr as ->. split; [done|].
    intros (Hs & Hn & Hc & Hi).
    destruct Hcond as [H|[H|[H|H]]]; try done. by rewrite Hi in H.
  - split.
    + intros [H|[H|[H|H]]]; try done. by rewrite Hi in H.
    + intros _. by exists kt.
Qed.

Lemma owning_class_is_search_root_witness :
  ∃ root,
    search_root
      (store_slot ABC.arena ABC.C 6 CONSTANT_ResolvedClass (SlotClass ABC.A))
      1 "f" ABC.A ABC.C = Ok (Some root)
    ∧ Some ABC.B = Some root
    ∧ ((1 ≠ 1 ∨ "f"%string = constructor_name ∨ ABC.A = ABC.C
        ∨ table_instanceof
            (store_slot ABC.arena ABC.C 6 CONSTANT_ResolvedClass (SlotClass ABC.A))
            ABC.A ABC.C = false) → root = ABC.A)
    ∧ ((1 = 1 ∧ "f"%string ≠ constructor_name ∧ ABC.A ≠ ABC.C
        ∧ table_instanceof
            (store_slot ABC.arena ABC.C 6 CONSTANT_ResolvedClass (SlotClass ABC.A))
            ABC.A ABC.C = true) →
       ∃ kt,
         store_slot ABC.arena ABC.C 6 CONSTANT_ResolvedClass (SlotClass ABC.A) !! ABC.C
           = Some kt
         ∧ c_superclass kt = Some root).
Proof.
  apply (@owning_class_is_search_root TableCollab 3%nat 7%nat ABC.C 1 stale_call
           (mkCallInfo (Some ABC.B) (Some (ABC.B, 0%nat)) (Some "()V") (Some "f")
                       (Some "B") 0 0 "V"%char)
           no_error no_error no_error ABC.vm
           (@mkMachine TableCollab
              (store_slot ABC.arena ABC.C 6 CONSTANT_ResolvedClass (SlotClass ABC.A))
              ABC.loader [CallLoadClass "A" None])
           (@mkMachine TableCollab
              (store_slot ABC.arena ABC.C 6 CONSTANT_ResolvedClass (SlotClass ABC.A))
              ABC.loader [CallLoadClass "A" None])
           6%nat "f" "()V" ABC.A).
  - exists ABC.classC, CONSTANT_Methodref, 4%nat, 2%nat, 3%nat.
    vm_compute. repeat split; auto.
  - by vm_compute.
  - by vm_compute.
Defined.

(** C3 as stated does not hold: the special-2 fallback reads the whole
    interface array of the resolved class, inherited entries included.
    For X implementing I, where I extends J and only J declares g()V, the
    array of X holds I (the one interface X names) followed by J, and the
    resolution of X's reference to g()V in special-2 mode returns the
    method of J. *)
Lemma special2_reaches_inherited_interface :
  ∃ call' vm',
    getMethodSignatureClass 3 5 XIJ.X true 2 stale_call no_error XIJ.vm
      = Ok (true, call', no_error, vm')
    ∧ call_method call' = Some (XIJ.J, 0%nat)
    ∧ method_at (vm_classes vm') (XIJ.J, 0%nat) = Some XIJ.g_of_J
    ∧ take (c_interface_len (XIJ.classX [XIJ.I; XIJ.J]))
           (c_interfaces (XIJ.classX [XIJ.I; XIJ.J])) = [XIJ.I]
    ∧ call_method call' ≠ None.
Proof.
  eexists _, _. split; [by vm_compute|]. by vm_compute.
Qed.

(** C3, amended: the special-2 fallback scans the stored interface array
    of the resolved class, and only that array.  When the superclass walk
    from the resolved class finds no match in special-2 mode, the method
    of the binding is the result of the local search over the
    [total_interface_len] entries of the interface array of the resolved
    class, from the last entry to the first: a method found belongs to
    an entry of that array which declares it, no later entry declaring
    it; no method is found exactly when no entry declares it; the scan
    returns whenever the arena is closed.  The
    interface arrays of the entries themselves are never read: with an
    array that holds I alone, the resolution of X's reference to g()V
    returns no method. *)
Theorem special2_scans_stored_interface_array :
  (∀ (Collab : Collaborators) (fuel idx : nat) (this : ClassRef)
     (call : callInfo) (einfo e1 : errorInfo) (vm vm1 : Machine)
     (ci : nat) (name sig : Utf8Const) (class : ClassRef)
     (dk : Hjava_lang_Class) (h2 : Arena),
     methodref_at (vm_classes vm) this idx ci name sig →
     getClass ci this einfo vm = Ok (Some class, e1, vm1) →
     vm_classes vm1 !! class = Some dk → CSTATE_LINKED ≤ c_state dk →
     superclass_walk fuel (vm_classes vm1) (Some class) name sig = Ok (None, h2) →
     getMethodSignatureClass fuel idx this true 2 call einfo vm =
       (let* s := interface_scan (vm_classes vm1) class (total_interface_len dk)
                                 name sig in
        Ok (true,
            mkCallInfo (Some class) s.1 (Some sig) (Some name) (Some (c_name dk))
                       (countInsAndOuts sig).1.1 (countInsAndOuts sig).1.2
                       (countInsAndOuts sig).2,
            e1, mkMachine s.2 (vm_ext vm1) (vm_trace vm1)))
     ∧ ∀ s h3,
         interface_scan (vm_classes vm1) class (total_interface_len dk) name sig
           = Ok (s, h3) →
         match s with
         | Some p =>
             ∃ i kc, (i < total_interface_len dk)%nat
                     ∧ c_interfaces dk !! i = Some p.1
                     ∧ vm_classes vm1 !! p.1 = Some kc ∧ declares kc name sig
                     ∧ ∀ j cj kj, (i < j < total_interface_len dk)%nat →
                                  c_interfaces dk !! j = Some cj →
                                  vm_classes vm1 !! cj = Some kj →
                                  ¬ declares kj name sig
         | None =>
             ∀ j cj kj, c_interfaces dk !! j = Some cj →
                        vm_classes vm1 !! cj = Some kj → ¬ declares kj name sig
         end)
  ∧ (∀ (h : Arena) (class : ClassRef) (dk : Hjava_lang_Class) (name sig : Utf8Const),
       closed h → h !! class = Some dk →
       ∃ s h3, interface_scan h class (total_interface_len dk) name sig = Ok (s, h3))
  ∧ (∃ call' vm',
       getMethodSignatureClass 3 5 XIJ.X true 2 stale_call no_error XIJ.vm_direct
         = Ok (true, call', no_error, vm')
       ∧ call_method call' = None).
Proof.
  split; [|split].
  - intros Collab fuel idx this call einfo e1 vm vm1 ci name sig class dk h2
           Href Hg Hdk Hst Hw.
    assert (Hh2 := superclass_walk_None _ _ _ _ _ _ Hw). subst h2.
    split.
    + rewrite (getMethodSignatureClass_eager fuel idx this 2 call einfo vm ci name sig
                 Href).
      rewrite Hg. simpl.
      rewrite (find_in_hierarchy_from_root fuel 2 name sig class this class _ _ dk dk
                 Hdk Hst); [|done|done].
      rewrite Hw. simpl. unfold deref. rewrite Hdk. simpl.
      by destruct (interface_scan (vm_classes vm1) class (total_interface_len dk)
                                  name sig) as [[s h3]| |].
    + intros s h3 Hs.
      assert (Hspec := interface_scan_spec _ _ _ _ _ _ _ _ Hdk Hs).
      destruct s as [p|]; [done|].
      destruct Hspec as [_ Hnone]. intros j cj kj Hlj Hkj.
      apply (Hnone j cj kj); [|done|done].
      unfold total_interface_len. by eapply lookup_lt_Some.
  - intros h class dk name sig Hcl Hdk.
    by apply (interface_scan_total h class dk).
  - eexists _, _. split; by vm_compute.
Qed.

Lemma special2_scans_stored_interface_array_witness :
  getMethodSignatureClass 3 5 XIJ.X true 2 stale_call no_error XIJ.vm =
    (let h1 := store_slot XIJ.arena XIJ.X 1 CONSTANT_ResolvedClass (SlotClass XIJ.X) in
     let* s := interface_scan h1 XIJ.X 2 "g" "()V" in
     Ok (true,
         mkCallInfo (Some XIJ.X) s.1 (Some "()V") (Some "g") (Some "X") 0 0 "V"%char,
         no_error, @mkMachine TableCollab s.2 XIJ.loader [CallLoadClass "X" None])).
Proof.
  apply (proj1 special2_scans_stored_interface_array TableCollab
           3%nat 5%nat XIJ.X stale_call no_error no_error XIJ.vm
           (@mkMachine TableCollab
              (store_slot XIJ.arena XIJ.X 1 CONSTANT_ResolvedClass (SlotClass XIJ.X))
              XIJ.loader [CallLoadClass "X" None])
           1%nat "g" "()V" XIJ.X
           (set_constants (XIJ.classX [XIJ.I; XIJ.J])
              (mkConstants (<[1%nat := CONSTANT_ResolvedClass]> (tags XIJ.poolX))
                           (<[1%nat := SlotClass XIJ.X]> (data XIJ.poolX))))
           (store_slot XIJ.arena XIJ.X 1 CONSTANT_ResolvedClass (SlotClass XIJ.X))).
  - exists (XIJ.classX [XIJ.I; XIJ.J]), CONSTANT_Methodref, 4%nat, 2%nat, 3%nat.
    vm_compute. repeat split; auto.
  - by vm_compute.
  - by vm_compute.
  - by vm_compute.
  - by vm_compute.
Defined.




(** C9 as stated does not hold: on the wrong-tag path the binding is not
    made of nulls only.  Slot 8 of the pool of C is a field reference;
    method resolution on it, with a binding whose counts are 42 and 42
    and whose return type is J, fails and hands the binding back with
    these three members as they were. *)
Lemma wrong_tag_binding_keeps_stale_counts :
  ∃ call' e vm',
    getMethodSignatureClass 3 8 ABC.C true 1 stale_call no_error ABC.vm
      = Ok (false, call', e, vm')
    ∧ call_in call' = 42 ∧ call_out call' = 42 ∧ call_rettype call' = "J"%char
    ∧ call_in call' = call_in stale_call
    ∧ call_out call' = call_out stale_call
    ∧ call_rettype call' = call_rettype stale_call.
Proof.
  eexists _, _, _. split; [by vm_compute|]. by vm_compute.
Qed.

(** C9, amended: the five pointers of the binding are cleared first,
    the three counts are not.  Whatever the binding holds on entry,
    [getMethodSignatureClass] behaves as on a binding whose class,
    method, signature, name and class name are null; and on a slot that
    is not a method reference it returns failure with a binding whose
    five pointers are null and whose counts and return type are the ones
    the caller passed in. *)
Theorem wrong_tag_binding_nulls_pointers_only `{Collab : Collaborators}
    (fuel idx : nat) (this : ClassRef) (eager : bool) (isSpecial : Z)
    (call : callInfo) (einfo : errorInfo) (vm : Machine)
    (k : Hjava_lang_Class) (tag : Z) :
  vm_classes vm !! this = Some k →
  tags (c_constants k) !! idx = Some tag →
  tag ≠ CONSTANT_Methodref → tag ≠ CONSTANT_InterfaceMethodref →
  getMethodSignatureClass fuel idx this eager isSpecial call einfo vm
    = getMethodSignatureClass fuel idx this eager isSpecial (call_clear call) einfo vm
  ∧ ∃ e,
      getMethodSignatureClass fuel idx this eager isSpecial call einfo vm
        = Ok (false,
              mkCallInfo None None None None None
                         (call_in call) (call_out call) (call_rettype call),
              e, vm).
Proof.
  intros Hk Ht H1 H2. split; [done|].
  eexists. by apply (getMethodSignatureClass_wrong_tag fuel idx this eager isSpecial
                       call einfo vm k tag).
Qed.

Lemma wrong_tag_binding_nulls_pointers_only_witness :
  getMethodSignatureClass 3 8 ABC.C true 1 stale_call no_error ABC.vm
    = getMethodSignatureClass 3 8 ABC.C true 1 (call_clear stale_call) no_error ABC.vm
  ∧ ∃ e,
      getMethodSignatureClass 3 8 ABC.C true 1 stale_call no_error ABC.vm
        = Ok (false, mkCallInfo None None None None None 42 42 "J"%char, e, ABC.vm).
Proof.
  apply (@wrong_tag_binding_nulls_pointers_only TableCollab 3%nat 8%nat ABC.C true 1
           stale_call no_error ABC.vm ABC.classC CONSTANT_Fieldref).
  - reflexivity.
  - reflexivity.
  - discriminate.
  - discriminate.
Defined.

(** C5: a wrong tag is reported with the class of a missing member.
    Method resolution on a slot whose tag is neither Methodref nor
    InterfaceMethodref returns failure with a [NoSuchMethodError] whose
    message gives the tag, the five pointers of the binding null and the
    machine untouched; field resolution on a slot whose tag is not
    Fieldref returns failure with a [NoSuchFieldError] whose message
    gives the tag, the caller's binding and the machine untouched.  The
    class resolver, on a slot whose tag is no class tag, reports the same
    condition as a [ClassFormatError]. *)
Theorem wrong_tag_fails_without_binding `{Collab : Collaborators}
    (fuel idx : nat) (this : ClassRef) (eager isStatic : bool) (isSpecial : Z)
    (call : callInfo) (ret : fieldInfo) (einfo : errorInfo) (vm : Machine)
    (k : Hjava_lang_Class) (tag : Z) :
  vm_classes vm !! this = Some k →
  tags (c_constants k) !! idx = Some tag →
  ((tag ≠ CONSTANT_Methodref ∧ tag ≠ CONSTANT_InterfaceMethodref) →
     getMethodSignatureClass fuel idx this eager isSpecial call einfo vm
       = Ok (false,
             mkCallInfo None None None None None
                        (call_in call) (call_out call) (call_rettype call),
             mkErrorInfo KERR_EXCEPTION "java.lang.NoSuchMethodError"
                         ("method name unknown, tag = " +:+ pretty tag),
             vm))
  ∧ (tag ≠ CONSTANT_Fieldref →
       getField idx this isStatic ret einfo vm
         = Ok (false, ret,
               mkErrorInfo KERR_EXCEPTION "java.lang.NoSuchFieldError"
                           ("tag was " +:+ pretty tag),
               vm))
  ∧ ((tag ≠ CONSTANT_Class ∧ tag ≠ CONSTANT_ResolvedClass) →
       getClass idx this einfo vm
         = Ok (None, mkErrorInfo KERR_EXCEPTION "java.lang.ClassFormatError" "", vm)).
Proof.
  intros Hk Ht. split; [|split].
  - intros [H1 H2].
    by apply (getMethodSignatureClass_wrong_tag fuel idx this eager isSpecial call einfo
                vm k tag).
  - intros Hne. by apply (getField_wrong_tag idx this isStatic ret einfo vm k tag).
  - intros [H1 H2]. unfold getClass, deref, pool_tag, CLASS_CONSTANTS.
    rewrite Hk. simpl. rewrite Ht. simpl.
    apply Z.eqb_neq in H1, H2. by rewrite H2, H1.
Qed.

Lemma wrong_tag_fails_without_binding_witness :
  getMethodSignatureClass 3 8 ABC.C true 0 stale_call no_error ABC.vm
    = Ok (false,
          mkCallInfo None None None None None 42 42 "J"%char,
          mkErrorInfo KERR_EXCEPTION "java.lang.NoSuchMethodError"
                      "method name unknown, tag = 9",
          ABC.vm)
  ∧ getField 5 ABC.C false stale_field no_error ABC.vm
    = Ok (false, stale_field,
          mkErrorInfo KERR_EXCEPTION "java.lang.NoSuchFieldError" "tag was 10",
          ABC.vm)
  ∧ getClass 8 ABC.C no_error ABC.vm
    = Ok (None, mkErrorInfo KERR_EXCEPTION "java.lang.ClassFormatError" "", ABC.vm)
  ∧ getClass 5 ABC.C no_error ABC.vm
    = Ok (None, mkErrorInfo KERR_EXCEPTION "java.lang.ClassFormatError" "", ABC.vm).
Proof.
  destruct (@wrong_tag_fails_without_binding TableCollab 3%nat 8%nat ABC.C true false 0
              stale_call stale_field no_error ABC.vm ABC.classC CONSTANT_Fieldref
              eq_refl eq_refl) as (Hm & _ & Hc8).
  destruct (@wrong_tag_fails_without_binding TableCollab 3%nat 5%nat ABC.C true false 0
              stale_call stale_field no_error ABC.vm ABC.classC CONSTANT_Methodref
              eq_refl eq_refl) as (_ & Hf & Hc5).
  split; [|split; [|split]].
  - apply Hm. split; discriminate.
  - apply Hf. discriminate.
  - apply Hc8. split; discriminate.
  - apply Hc5. split; discriminate.
Defined.

(** C10: what [getField] has written when it fails.
    On a field reference whose class resolves but whose field is not
    found by the per-class lookup, [getField] returns failure with the
    name of the resolved class and the name and the signature of the
    field written into the binding, whose field and class members are as
    the caller left them (the name-and-type entry is read after the class
    slot has been rewritten, hence the second [fieldref_at]); on a slot that is not a field reference, and
    when the class of the reference does not resolve, it returns failure
    with the whole binding as the caller left it. *)
Theorem getField_failure_writes `{Collab : Collaborators}
    (idx : nat) (this : ClassRef) (isStatic : bool) (ret : fieldInfo)
    (einfo : errorInfo) (vm : Machine) :
  (∀ ci name sig class e1 vm1 ck e2,
     fieldref_at (vm_classes vm) this idx ci name sig →
     getClass ci this einfo vm = Ok (Some class, e1, vm1) →
     fieldref_at (vm_classes vm1) this idx ci name sig →
     vm_classes vm1 !! class = Some ck →
     lookupClassField (vm_classes vm1) class name isStatic = FieldMissing e2 →
     getField idx this isStatic ret einfo vm
       = Ok (false,
             mkFieldInfo (Some (c_name ck)) (Some name) (Some sig)
                         (fi_field ret) (fi_class ret),
             e2, vm1))
  ∧ (∀ k tag,
       vm_classes vm !! this = Some k →
       tags (c_constants k) !! idx = Some tag →
       tag ≠ CONSTANT_Fieldref →
       ∃ e, getField idx this isStatic ret einfo vm = Ok (false, ret, e, vm))
  ∧ (∀ ci name sig e1 vm1,
       fieldref_at (vm_classes vm) this idx ci name sig →
       getClass ci this einfo vm = Ok (None, e1, vm1) →
       getField idx this isStatic ret einfo vm = Ok (false, ret, e1, vm1)).
Proof.
  split; [|split].
  - intros ci name sig class e1 vm1 ck e2 Href Hg Href1 Hck Hl.
    rewrite (getField_fieldref idx this isStatic ret einfo vm ci name sig Href).
    rewrite Hg. simpl.
    destruct Href1 as (k' & ni & nn & ns & Hk' & _ & _ & Hni & Hnn & Hname & Hns & Hsig).
    unfold deref, CLASS_CONSTANTS. rewrite Hck. simpl. rewrite Hk'. simpl.
    rewrite Hni. simpl. rewrite Hnn. simpl. rewrite Hname. simpl.
    rewrite Hns. simpl. rewrite Hsig. simpl. by rewrite Hl.
  - intros k tag Hk Ht Hne. eexists.
    by apply (getField_wrong_tag idx this isStatic ret einfo vm k tag).
  - intros ci name sig e1 vm1 Href Hg.
    rewrite (getField_fieldref idx this isStatic ret einfo vm ci name sig Href).
    by rewrite Hg.
Qed.

Lemma getField_failure_writes_witness :
  getField 8 ABC.C false stale_field no_error ABC.vm
    = Ok (false,
          mkFieldInfo (Some "B") (Some "f") (Some "()V")
                      (fi_field stale_field) (fi_class stale_field),
          postExceptionMessage (JAVA_LANG "NoSuchFieldError") "f",
          @mkMachine TableCollab
            (store_slot ABC.arena ABC.C 1 CONSTANT_ResolvedClass (SlotClass ABC.B))
            ABC.loader [CallLoadClass "B" None])
  ∧ (∃ e, getField 5 ABC.C false stale_field no_error ABC.vm
          = Ok (false, stale_field, e, ABC.vm))
  ∧ getField 8 ABC.C false stale_field no_error ABC.vm_offline
    = Ok (false, stale_field, Failing.not_found "B",
          @mkMachine TableCollab ABC.arena ABC.offline [CallLoadClass "B" None]).
Proof.
  split; [|split].
  - apply (proj1 (@getField_failure_writes TableCollab 8%nat ABC.C false stale_field
                    no_error ABC.vm)
                 1%nat "f" "()V" ABC.B no_error
                 (@mkMachine TableCollab
                    (store_slot ABC.arena ABC.C 1 CONSTANT_ResolvedClass
                                (SlotClass ABC.B))
                    ABC.loader [CallLoadClass "B" None])
                 ABC.classB (postExceptionMessage (JAVA_LANG "NoSuchFieldError") "f")).
    + exists ABC.classC, 4%nat, 2%nat, 3%nat. vm_compute. repeat split; auto.
    + by vm_compute.
    + eexists _, 4%nat, 2%nat, 3%nat. vm_compute. repeat split; auto.
    + by vm_compute.
    + by vm_compute.
  - apply (proj1 (proj2 (@getField_failure_writes TableCollab 5%nat ABC.C false
                           stale_field no_error ABC.vm))
                 ABC.classC CONSTANT_Methodref).
    + reflexivity.
    + reflexivity.
    + discriminate.
  - apply (proj2 (proj2 (@getField_failure_writes TableCollab 8%nat ABC.C false
                           stale_field no_error ABC.vm_offline))
                 1%nat "f" "()V").
    + exists ABC.classC, 4%nat, 2%nat, 3%nat. vm_compute. repeat split; auto.
    + by vm_compute.
Defined.






(** * Further properties of the embedded code *)

(** ** The local method search *)

Lemma patch_abstract_cases (h h' : Arena) (class : ClassRef) (i : nat) (m : Method) :
  patch_abstract h class i m = Ok h' →
  h' = h
  ∨ (is_abstract m = true
     ∧ ∃ dk, h !! m_class m = Some dk ∧ CLASS_IS_INTERFACE dk = false
             ∧ h' = store_method h class i (trapped m)).
Proof.
  unfold patch_abstract, is_abstract.
  destruct (negb (Z.land (m_accflags m) ACC_ABSTRACT =? 0)) eqn:Ha.
  - intros Hp. bind_inv Hp dk Hdk. unfold deref in Hdk.
    destruct (h !! m_class m) as [dk0|] eqn:Hl; simpl in Hdk; [|done].
    injection Hdk as ->.
    destruct (CLASS_IS_INTERFACE dk) eqn:Hi; simpl in Hp; injection Hp as <-.
    + by left.
    + right. split; [done|]. by exists dk.
  - intros [= <-]. by left.
Qed.

Lemma findMethodLocal_Some_inv (h h' : Arena) (class : ClassRef)
    (name sig : Utf8Const) (p : MethodRef) :
  findMethodLocal h class name sig = Ok (Some p, h') →
  ∃ k i m, h !! class = Some k ∧ p = (class, i)
           ∧ first_match (c_methods k) name sig i m
           ∧ patch_abstract h class i m = Ok h'.
Proof.
  unfold findMethodLocal, deref. intros Hf.
  destruct (h !! class) as [k|] eqn:Hk; simpl in Hf; [|done].
  destruct (findMethodLocal_scan_Some _ _ _ _ _ _ _ _ Hf) as (i & m & -> & Hfm).
  exists k, i, m. repeat split; try done; try apply Hfm.
  rewrite (findMethodLocal_scan_first h class name sig _ 0 i m Hfm) in Hf.
  bind_inv Hf h1 Hp. by injection Hf as <-.
Qed.

(** X1: the local search returns null exactly when the class declares no
    method with the given name and signature, and a search that returns
    null has written nothing. *)
Theorem findMethodLocal_null_iff_undeclared
    (h : Arena) (class : ClassRef) (k : Hjava_lang_Class) (name sig : Utf8Const) :
  h !! class = Some k →
  (findMethodLocal h class name sig = Ok (None, h) ↔ ¬ declares k name sig)
  ∧ (∀ h', findMethodLocal h class name sig = Ok (None, h') → h' = h).
Proof.
  intros Hk. split; [split|].
  - intros Hf. apply findMethodLocal_None in Hf as (_ & k' & Hk' & Hnd).
    rewrite Hk in Hk'. by injection Hk' as <-.
  - intros Hnd. unfold findMethodLocal, deref. rewrite Hk. simpl.
    apply findMethodLocal_scan_none. intros m Hm [Hn Hs]. apply Hnd. by exists m.
  - intros h' Hf. by apply findMethodLocal_None in Hf as [-> _].
Qed.

Lemma findMethodLocal_null_iff_undeclared_witness :
  (findMethodLocal ABC.arena ABC.A "g" "()V" = Ok (None, ABC.arena)
   ↔ ¬ declares ABC.classA "g" "()V")
  ∧ (∀ h', findMethodLocal ABC.arena ABC.A "g" "()V" = Ok (None, h') → h' = ABC.arena).
Proof.
  apply (findMethodLocal_null_iff_undeclared ABC.arena ABC.A ABC.classA "g" "()V").
  reflexivity.
Defined.

(** X2: what a successful local search returns.  The pointer returned is
    the first entry of the method table of the class, in table order,
    whose name and signature are the ones asked for; and the arena is
    either unchanged or differs from it by the store of the trapped
    record at that entry. *)
Theorem findMethodLocal_returns_first_match
    (h h' : Arena) (class : ClassRef) (name sig : Utf8Const) (p : MethodRef) :
  findMethodLocal h class name sig = Ok (Some p, h') →
  ∃ k m,
    h !! class = Some k
    ∧ p.1 = class
    ∧ first_match (c_methods k) name sig p.2 m
    ∧ (h' = h ∨ h' = store_method h class p.2 (trapped m)).
Proof.
  intros Hf. apply findMethodLocal_Some_inv in Hf as (k & i & m & Hk & -> & Hfm & Hp).
  exists k, m. repeat split; try done; try apply Hfm.
  apply patch_abstract_cases in Hp as [-> | (_ & dk & _ & _ & ->)]; [by left | by right].
Qed.

Lemma findMethodLocal_returns_first_match_witness :
  ∃ k m,
    Shape.arena !! Shape.Shape = Some k
    ∧ (Shape.Shape, 1%nat).1 = Shape.Shape
    ∧ first_match (c_methods k) "area" "()D" (Shape.Shape, 1%nat).2 m
    ∧ (store_method Shape.arena Shape.Shape 1 (trapped Shape.area) = Shape.arena
       ∨ store_method Shape.arena Shape.Shape 1 (trapped Shape.area)
         = store_method Shape.arena Shape.Shape (Shape.Shape, 1%nat).2 (trapped m)).
Proof.
  apply (findMethodLocal_returns_first_match Shape.arena
           (store_method Shape.arena Shape.Shape 1 (trapped Shape.area))
           Shape.Shape "area" "()D" (Shape.Shape, 1%nat)).
  by vm_compute.
Defined.

(** X3: the local search patches nothing but abstract methods of classes.
    When the entry found is not abstract, or is declared by an interface,
    the arena is left as it was. *)
Theorem findMethodLocal_patches_only_abstract_class_methods
    (h h' : Arena) (class : ClassRef) (name sig : Utf8Const) (p : MethodRef)
    (m : Method) :
  findMethodLocal h class name sig = Ok (Some p, h') →
  method_at h p = Some m →
  (is_abstract m = false
   ∨ ∃ dk, h !! m_class m = Some dk ∧ CLASS_IS_INTERFACE dk = true) →
  h' = h.
Proof.
  intros Hf Hm Hcond.
  apply findMethodLocal_Some_inv in Hf as (k & i & m0 & Hk & -> & Hfm & Hp).
  assert (m0 = m) as ->.
  { destruct Hfm as (Hl & _). unfold method_at in Hm. simpl in Hm.
    rewrite Hk in Hm. simpl in Hm. rewrite Hl in Hm. by injection Hm. }
  apply patch_abstract_cases in Hp as [-> | (Ha & dk & Hdk & Hi & ->)]; [done|].
  destruct Hcond as [Hna | (dk' & Hdk' & Hi')].
  - by rewrite Ha in Hna.
  - rewrite Hdk in Hdk'. injection Hdk' as <-. by rewrite Hi in Hi'.
Qed.

Lemma findMethodLocal_patches_only_abstract_class_methods_witness :
  XIJ.arena = XIJ.arena.
Proof.
  apply (findMethodLocal_patches_only_abstract_class_methods
           XIJ.arena XIJ.arena XIJ.J "g" "()V" (XIJ.J, 0%nat) XIJ.g_of_J).
  - by vm_compute.
  - by vm_compute.
  - right. exists XIJ.classJ. split; by vm_compute.
Defined.

(** X4: the local search changes one method record at most.  After a
    successful search every other method record of the arena is as
    before, the record found keeps its name, signature and declaring
    class, and every class record is as before outside its method
    table. *)
Theorem findMethodLocal_frame
    (h h' : Arena) (class : ClassRef) (name sig : Utf8Const) (p : MethodRef) :
  findMethodLocal h class name sig = Ok (Some p, h') →
  (∀ q, q ≠ p → method_at h' q = method_at h q)
  ∧ (∃ m m', method_at h p = Some m ∧ method_at h' p = Some m'
             ∧ m_name m' = m_name m ∧ m_signature m' = m_signature m
             ∧ m_class m' = m_class m)
  ∧ (∀ c, (λ k, set_methods k []) <$> (h' !! c) = (λ k, set_methods k []) <$> (h !! c)).
Proof.
  intros Hf.
  apply findMethodLocal_Some_inv in Hf as (k & i & m & Hk & -> & Hfm & Hp).
  assert (Hm : method_at h (class, i) = Some m).
  { unfold method_at. simpl. rewrite Hk. simpl. apply Hfm. }
  assert (Hlt : (i < length (c_methods k))%nat).
  { destruct Hfm as (Hl & _). by eapply lookup_lt_Some. }
  apply patch_abstract_cases in Hp as [-> | (_ & dk & _ & _ & ->)].
  { split; [done|]. split; [by exists m, m|done]. }
  rewrite (store_method_insert h class k i _ Hk).
  split; [|split].
  - intros [c j] Hne. unfold method_at. simpl.
    destruct (decide (c = class)) as [->|Hc].
    + rewrite lookup_insert_eq, Hk. simpl.
      apply list_lookup_insert_ne. congruence.
    + by rewrite lookup_insert_ne.
  - exists m, (trapped m). split; [done|]. split; [|done].
    unfold method_at. simpl. rewrite lookup_insert_eq. simpl.
    by apply list_lookup_insert_eq.
  - intros c. destruct (decide (c = class)) as [->|Hc].
    + by rewrite lookup_insert_eq, Hk.
    + by rewrite lookup_insert_ne.
Qed.

Lemma findMethodLocal_frame_witness :
  (∀ q, q ≠ (Shape.Shape, 1%nat) →
        method_at (store_method Shape.arena Shape.Shape 1 (trapped Shape.area)) q
        = method_at Shape.arena q)
  ∧ (∃ m m', method_at Shape.arena (Shape.Shape, 1%nat) = Some m
             ∧ method_at (store_method Shape.arena Shape.Shape 1 (trapped Shape.area))
                         (Shape.Shape, 1%nat) = Some m'
             ∧ m_name m' = m_name m ∧ m_signature m' = m_signature m
             ∧ m_class m' = m_class m)
  ∧ (∀ c, (λ k, set_methods k [])
            <$> (store_method Shape.arena Shape.Shape 1 (trapped Shape.area) !! c)
          = (λ k, set_methods k []) <$> (Shape.arena !! c)).
Proof.
  apply (findMethodLocal_frame Shape.arena
           (store_method Shape.arena Shape.Shape 1 (trapped Shape.area))
           Shape.Shape "area" "()D" (Shape.Shape, 1%nat)).
  by vm_compute.
Defined.

(** ** The superclass walk *)

Lemma nth_super_step (h : Arena) (c s : ClassRef) (k : Hjava_lang_Class) (n : nat) :
  h !! c = Some k → c_superclass k = Some s →
  nth_super h c (S n) = nth_super h s n.
Proof. intros Hk Hs. simpl. by rewrite Hk, Hs. Qed.





Section MoreResolution.
Context `{Collab : Collaborators}.

(** ** The class resolver: requests and frame *)

(** Every way in which [getClass] returns. *)
Lemma getClass_inv (idx : nat) (this : ClassRef) (einfo e : errorInfo)
    (vm vm' : Machine) (r : option ClassRef) :
  getClass idx this einfo vm = Ok (r, e, vm') →
  ∃ k tag,
    vm_classes vm !! this = Some k ∧ tags (c_constants k) !! idx = Some tag
    ∧ ((tag = CONSTANT_ResolvedClass ∧ vm' = vm ∧ e = einfo
        ∧ ∃ c, r = Some c ∧ data (c_constants k) !! idx = Some (SlotClass c))
       ∨ (tag ≠ CONSTANT_ResolvedClass ∧ tag ≠ CONSTANT_Class ∧ vm' = vm ∧ r = None
          ∧ e = postException (JAVA_LANG "ClassFormatError"))
       ∨ (tag = CONSTANT_Class
          ∧ ∃ name, data (c_constants k) !! idx = Some (SlotUtf8 name)
            ∧ ((r = None ∧ (load_by_name name (c_loader k) vm).1 = LoadFailed e
                ∧ vm' = (load_by_name name (c_loader k) vm).2)
               ∨ (∃ c, r = Some c ∧ e = einfo
                  ∧ (load_by_name name (c_loader k) vm).1 = Loaded c
                  ∧ vm' = mkMachine
                            (store_slot (vm_classes vm) this idx
                                        CONSTANT_ResolvedClass (SlotClass c))
                            (vm_ext (load_by_name name (c_loader k) vm).2)
                            (vm_trace (load_by_name name (c_loader k) vm).2))))).
Proof.
  intros Hg. unfold getClass in Hg.
  bind_inv Hg k Hk. bind_inv Hg tag Ht.
  unfold deref in Hk. destruct (vm_classes vm !! this) as [k0|] eqn:Hl; [|done].
  injection Hk as ->.
  unfold pool_tag, CLASS_CONSTANTS in Ht.
  destruct (tags (c_constants k) !! idx) as [t0|] eqn:Htl; [|done].
  injection Ht as ->. exists k, tag. split; [done|]. split; [done|].
  destruct (tag =? CONSTANT_ResolvedClass) eqn:Hres.
  { left. apply Z.eqb_eq in Hres. bind_inv Hg c Hc. injection Hg as <- <- <-.
    repeat split; try done. exists c. split; [done|].
    unfold CLASS_CLASS, pool_data, CLASS_CONSTANTS in Hc.
    destruct (data (c_constants k) !! idx) as [[w|u|c0]|]; simpl in Hc; try done.
    by injection Hc as ->. }
  apply Z.eqb_neq in Hres.
  destruct (tag =? CONSTANT_Class) eqn:Hcl.
  2:{ right; left. apply Z.eqb_neq in Hcl. by injection Hg as <- <- <-. }
  right; right. apply Z.eqb_eq in Hcl. split; [done|].
  bind_inv Hg tag' Ht'. bind_inv Hg name Hn.
  unfold pool_tag, CLASS_CONSTANTS in Ht'. rewrite Htl in Ht'. injection Ht' as <-.
  destruct (tag =? CONSTANT_ResolvedClass) eqn:Hres'; [by apply Z.eqb_eq in Hres'|].
  exists name. split.
  { unfold pool_utf8, pool_data, CLASS_CONSTANTS in Hn.
    destruct (data (c_constants k) !! idx) as [[w|u|c0]|]; simpl in Hn; try done.
    by injection Hn as ->. }
  destruct (load_by_name name (c_loader k) vm).1 as [c|e0] eqn:Hload.
  - right. injection Hg as <- <- <-. exists c. rewrite load_by_name_classes. by repeat split.
  - left. by injection Hg as <- <- <-.
Qed.

(** X6: when the class resolver consults the loader.  A call of
    [getClass] that returns has sent at most one request to the loader:
    none when the slot is resolved, and none when its tag is neither
    Class nor ResolvedClass, in which case the call fails with a
    [ClassFormatError] and leaves the machine untouched; exactly one for
    an unresolved class slot, for the name stored in the slot and with the
    loader of the context class, to [loadArray] when the name starts with
    '[' and to [loadClass] otherwise. *)
Theorem getClass_loader_requests
    (idx : nat) (this : ClassRef) (einfo e : errorInfo) (vm vm' : Machine)
    (r : option ClassRef) :
  getClass idx this einfo vm = Ok (r, e, vm') →
  ∃ k tag,
    vm_classes vm !! this = Some k ∧ tags (c_constants k) !! idx = Some tag
    ∧ (tag = CONSTANT_ResolvedClass → vm' = vm)
    ∧ (tag ≠ CONSTANT_ResolvedClass → tag ≠ CONSTANT_Class →
       vm' = vm ∧ r = None ∧ e = postException "java.lang.ClassFormatError")
    ∧ (tag = CONSTANT_Class →
       ∃ name, data (c_constants k) !! idx = Some (SlotUtf8 name)
               ∧ vm_trace vm'
                 = vm_trace vm
                   ++ [if first_char_is name "["%char
                       then CallLoadArray name (c_loader k)
                       else CallLoadClass name (c_loader k)]).
Proof.
  intros Hg. apply getClass_inv in Hg as (k & tag & Hk & Ht & Hcases).
  exists k, tag. split; [done|]. split; [done|].
  destruct Hcases as [(-> & -> & _)|[(H1 & H2 & -> & -> & ->)|(-> & name & Hd & Hload)]].
  - split; [done|]. split; [by intros H|]. intros H. by vm_compute in H.
  - split; [intros H; by rewrite H in H1|]. split; [done|].
    intros H. by rewrite H in H2.
  - split; [intros H; by vm_compute in H|]. split; [by intros _ H|].
    intros _. exists name. split; [done|].
    destruct Hload as [(_ & _ & ->)|(c & _ & _ & _ & ->)]; simpl;
      rewrite load_by_name_trace; unfold load_request;
      by destruct (first_char_is name "[").
Qed.

Lemma method_at_store_slot (h : Arena) (this : ClassRef) (idx : nat) (t : Z)
    (d : ConstSlot) (q : MethodRef) :
  method_at (store_slot h this idx t d) q = method_at h q.
Proof.
  unfold store_slot, method_at. destruct (h !! this) as [k|] eqn:Hk; [|done].
  destruct (decide (q.1 = this)) as [->|Hne].
  - by rewrite lookup_insert_eq, Hk.
  - by rewrite lookup_insert_ne.
Qed.

Lemma store_slot_outside_constants (h : Arena) (this : ClassRef) (idx : nat) (t : Z)
    (d : ConstSlot) (c : ClassRef) :
  (λ k, set_constants k no_pool) <$> (store_slot h this idx t d !! c)
  = (λ k, set_constants k no_pool) <$> (h !! c).
Proof.
  unfold store_slot. destruct (h !! this) as [k|] eqn:Hk; [|done].
  destruct (decide (c = this)) as [->|Hne].
  - by rewrite lookup_insert_eq, Hk.
  - by rewrite lookup_insert_ne.
Qed.

(** X7: the class resolver writes one slot at most.  After a call of
    [getClass] every other slot of every constant pool is as before,
    every method record is as before, every class record is as before
    outside its constant pool, and the caller's error descriptor is
    written only when the call returns null; a class returned is the one
    the slot holds afterwards. *)
Theorem getClass_frame
    (idx : nat) (this : ClassRef) (einfo e : errorInfo) (vm vm' : Machine)
    (r : option ClassRef) :
  getClass idx this einfo vm = Ok (r, e, vm') →
  (∀ this' idx', (this', idx') ≠ (this, idx) →
     slot_of (vm_classes vm') this' idx' = slot_of (vm_classes vm) this' idx')
  ∧ (∀ q, method_at (vm_classes vm') q = method_at (vm_classes vm) q)
  ∧ (∀ c, (λ k, set_constants k no_pool) <$> (vm_classes vm' !! c)
          = (λ k, set_constants k no_pool) <$> (vm_classes vm !! c))
  ∧ (∀ c, r = Some c →
       e = einfo
       ∧ slot_of (vm_classes vm') this idx
         = Some (CONSTANT_ResolvedClass, SlotClass c)).
Proof.
  intros Hg. apply getClass_inv in Hg as (k & tag & Hk & Ht & Hcases).
  destruct Hcases as [(-> & -> & -> & c & -> & Hd)
                     |[(H1 & H2 & -> & -> & ->)
                      |(-> & name & Hd & [(-> & Hl & ->)|(c & -> & -> & Hl & ->)])]].
  - split; [done|]. split; [done|]. split; [done|].
    intros c' [= <-]. split; [done|]. apply slot_of_Some. by exists k.
  - split; [done|]. split; [done|]. split; [done|]. by intros c'.
  - rewrite load_by_name_classes.
    split; [done|]. split; [done|]. split; [done|]. by intros c'.
  - simpl. split; [|split; [|split]].
    + intros this' idx' Hne. apply slot_of_store_slot_ne. congruence.
    + intros q. apply method_at_store_slot.
    + intros c'. apply store_slot_outside_constants.
    + intros c' [= <-]. split; [done|].
      apply (slot_of_store_slot_eq _ _ _ _ CONSTANT_Class _ (SlotUtf8 name)).
      apply slot_of_Some. by exists k.
Qed.

(** ** The method resolver: what the binding holds *)

Lemma findMethodLocal_found_record (h h' : Arena) (class : ClassRef)
    (name sig : Utf8Const) (p : MethodRef) :
  findMethodLocal h class name sig = Ok (Some p, h') →
  ∃ m', method_at h' p = Some m' ∧ m_name m' = name ∧ m_signature m' = sig.
Proof.
  intros Hf.
  apply findMethodLocal_Some_inv in Hf as (k & i & m & Hk & -> & Hfm & Hp).
  destruct Hfm as (Hl & Hn & Hs & _).
  apply patch_abstract_cases in Hp as [-> | (_ & dk & _ & _ & ->)].
  - exists m. split; [|done]. unfold method_at. simpl. by rewrite Hk.
  - exists (trapped m). split; [|done].
    rewrite (store_method_insert h class k i _ Hk).
    unfold method_at. simpl. rewrite lookup_insert_eq. simpl.
    apply list_lookup_insert_eq. by eapply lookup_lt_Some.
Qed.

Lemma superclass_walk_found_record (fuel : nat) (h h' : Arena) (c : option ClassRef)
    (name sig : Utf8Const) (p : MethodRef) :
  superclass_walk fuel h c name sig = Ok (Some p, h') →
  ∃ m', method_at h' p = Some m' ∧ m_name m' = name ∧ m_signature m' = sig.
Proof.
  revert c. induction fuel as [|fuel IH]; intros [c|]; simpl; try done.
  intros Hw. bind_inv Hw f Hf. destruct f as [[mptr|] h1]; simpl in Hw.
  - injection Hw as <- <-. by eapply findMethodLocal_found_record.
  - apply findMethodLocal_None in Hf as [-> _]. bind_inv Hw k Hk. by eapply IH.
Qed.

Lemma superclass_walk_on_chain (fuel : nat) (h h' : Arena) (c : ClassRef)
    (name sig : Utf8Const) (p : MethodRef) :
  superclass_walk fuel h (Some c) name sig = Ok (Some p, h') →
  ∃ n, nth_super h c n = Some p.1.
Proof.
  revert c. induction fuel as [|fuel IH]; intros c; simpl; [done|].
  intros Hw. bind_inv Hw f Hf. destruct f as [[mptr|] h1]; simpl in Hw.
  - injection Hw as <- <-. apply findMethodLocal_Some in Hf as (Hp & _).
    exists 0%nat. simpl. by rewrite Hp.
  - apply findMethodLocal_None in Hf as (-> & k & Hk & _).
    bind_inv Hw k0 Hk0. unfold deref in Hk0. rewrite Hk in Hk0. injection Hk0 as <-.
    destruct (c_superclass k) as [s|] eqn:Hs.
    + destruct (IH s Hw) as (n & Hn). exists (S n). simpl. by rewrite Hk, Hs.
    + by destruct fuel.
Qed.

Lemma interface_scan_found_record (h h' : Arena) (class : ClassRef) (n : nat)
    (name sig : Utf8Const) (p : MethodRef) :
  interface_scan h class n name sig = Ok (Some p, h') →
  ∃ m', method_at h' p = Some m' ∧ m_name m' = name ∧ m_signature m' = sig.
Proof.
  induction n as [|n IH]; simpl; [done|].
  intros Hs. bind_inv Hs k Hk. bind_inv Hs c Hc. bind_inv Hs f Hf.
  destruct f as [[mptr|] h1]; simpl in Hs.
  - injection Hs as <- <-. by eapply findMethodLocal_found_record.
  - apply findMethodLocal_None in Hf as [-> _]. by apply IH.
Qed.

(** Every way in which the search after class resolution returns. *)
Lemma find_in_hierarchy_inv (fuel : nat) (isSpecial : Z) (name sig : Utf8Const)
    (class this : ClassRef) (call call' : callInfo) (h h' : Arena) :
  find_in_hierarchy fuel isSpecial name sig class this call h = Ok (call', h') →
  ∃ root rk w h2,
    search_root h isSpecial name class this = Ok (Some root)
    ∧ h !! root = Some rk
    ∧ superclass_walk fuel h (Some root) name sig = Ok (w, h2)
    ∧ call_class call' = Some root
    ∧ call_cname call' = Some (c_name rk)
    ∧ call_name call' = call_name call ∧ call_signature call' = call_signature call
    ∧ (((w ≠ None ∨ isSpecial ≠ 2) ∧ call_method call' = w ∧ h' = h2)
       ∨ (w = None ∧ isSpecial = 2
          ∧ interface_scan h root (total_interface_len rk) name sig
            = Ok (call_method call', h'))).
Proof.
  unfold find_in_hierarchy. intros Hf.
  bind_inv Hf dk Hdk.
  destruct (c_state dk <? CSTATE_LINKED); [done|].
  bind_inv Hf root Hroot. bind_inv Hf rc Hrc. bind_inv Hf rk Hrk.
  destruct root as [root|]; [|done]. injection Hrc as <-.
  unfold deref in Hrk. destruct (h !! root) as [rk0|] eqn:Hl; [|done].
  injection Hrk as ->.
  bind_inv Hf w Hw. destruct w as [w h2]. simpl in Hf.
  exists root, rk, w, h2. split; [done|]. split; [done|]. split; [done|].
  destruct (bool_decide (w = None) && (isSpecial =? 2)) eqn:Hb.
  - apply andb_true_iff in Hb as [Hwn Hs2].
    apply bool_decide_eq_true in Hwn. apply Z.eqb_eq in Hs2. subst w.
    assert (Hh2 := superclass_walk_None _ _ _ _ _ _ Hw). subst h2.
    bind_inv Hf ck Hck. unfold deref in Hck. rewrite Hl in Hck. injection Hck as <-.
    bind_inv Hf s Hs. destruct s as [s h3]. injection Hf as <- <-. simpl.
    repeat split; try done. by right.
  - injection Hf as <- <-. simpl. repeat split; try done. left.
    split; [|done]. apply andb_false_iff in Hb as [Hb|Hb].
    + left. by apply bool_decide_eq_false in Hb.
    + right. by apply Z.eqb_neq in Hb.
Qed.

(** X8: a lazy resolution touches nothing.  With [loadClass] false the
    resolver never changes the machine, so it sends nothing to the loader
    and installs no trap, and the binding it returns has no class, no
    method and no class name; on a method reference it returns success
    with the name, the signature and the counts of the reference, and the
    caller's error descriptor as it was. *)
Theorem lazy_resolution_touches_nothing
    (fuel idx : nat) (this : ClassRef) (isSpecial : Z) (call : callInfo)
    (einfo : errorInfo) (vm : Machine) :
  (∀ b call' e vm',
     getMethodSignatureClass fuel idx this false isSpecial call einfo vm
       = Ok (b, call', e, vm') →
     vm' = vm ∧ call_class call' = None ∧ call_method call' = None
     ∧ call_cname call' = None)
  ∧ (∀ ci name sig,
       methodref_at (vm_classes vm) this idx ci name sig →
       getMethodSignatureClass fuel idx this false isSpecial call einfo vm
         = Ok (true,
               mkCallInfo None None (Some sig) (Some name) None
                          (countInsAndOuts sig).1.1 (countInsAndOuts sig).1.2
                          (countInsAndOuts sig).2,
               einfo, vm)).
Proof.
  split.
  - intros b call' e vm' Hg. apply getMethodSignatureClass_inv in Hg
      as [(k & tag & _ & _ & _ & _ & _ & -> & -> & _)
         |[(_ & _ & _ & -> & name & sig & ->)|(Hd & _)]]; done.
  - intros ci name sig
           (k & tag & ni & nn & ns & Hk & Ht & Htag & Hni & Hnn & Hname & Hns & Hsig & _).
    unfold getMethodSignatureClass, deref, pool_tag, CLASS_CONSTANTS.
    rewrite Hk. simpl. rewrite Ht. simpl. rewrite tag_test_false by done.
    rewrite Hni. simpl. rewrite Hnn. simpl. rewrite Hname. simpl.
    rewrite Hns. simpl. by rewrite Hsig.
Qed.

(** X9: the method of the binding is a method the reference names.
    After a successful eager resolution that found a method, the record
    behind the method pointer has the name and the signature of the
    reference, and its table is that of a class on the superclass chain
    of the recorded owning class or, in special-2 mode, of an entry of the
    interface array of that class. *)
Theorem resolved_method_matches_reference
    (fuel idx : nat) (this : ClassRef) (isSpecial : Z) (call call' : callInfo)
    (einfo e : errorInfo) (vm vm' : Machine) (ci : nat) (name sig : Utf8Const)
    (p : MethodRef) :
  methodref_at (vm_classes vm) this idx ci name sig →
  getMethodSignatureClass fuel idx this true isSpecial call einfo vm
    = Ok (true, call', e, vm') →
  call_method call' = Some p →
  ∃ m class vm1 root,
    method_at (vm_classes vm') p = Some m
    ∧ m_name m = name ∧ m_signature m = sig
    ∧ getClass ci this einfo vm = Ok (Some class, e, vm1)
    ∧ call_class call' = Some root
    ∧ ((∃ n, nth_super (vm_classes vm1) root n = Some p.1)
       ∨ (isSpecial = 2
          ∧ ∃ rk, vm_classes vm1 !! root = Some rk ∧ p.1 ∈ c_interfaces rk)).
Proof.
  intros Href Hg Hp.
  rewrite (getMethodSignatureClass_eager fuel idx this isSpecial call einfo vm
             ci name sig Href) in Hg.
  bind_inv Hg g Hgc. destruct g as [[[class|] e1] vm1]; simpl in Hg.
  2:{ bind_inv Hg k' Hk'. bind_inv Hg cname Hcn. by injection Hg. }
  bind_inv Hg f Hf. destruct f as [call1 h']. injection Hg as <- <- <-. simpl in Hp.
  apply find_in_hierarchy_inv in Hf
    as (root & rk & w & h2 & Hroot & Hrk & Hw & Hcl & _ & _ & _ & Hcases).
  destruct Hcases as [(_ & Hm & ->) | (-> & Hs2 & Hscan)].
  - rewrite Hp in Hm. subst w.
    destruct (superclass_walk_found_record _ _ _ _ _ _ _ Hw) as (m & Hm & Hn & Hs).
    exists m, class, vm1, root. repeat split; try done. left.
    by apply (superclass_walk_on_chain fuel _ _ root name sig p Hw).
  - rewrite Hp in Hscan.
    destruct (interface_scan_found_record _ _ _ _ _ _ _ Hscan) as (m & Hm & Hn & Hs).
    exists m, class, vm1, root. repeat split; try done. right.
    split; [done|]. exists rk. split; [done|].
    assert (Hspec := interface_scan_spec _ _ _ _ _ _ _ _ Hrk Hscan).
    destruct Hspec as (i & kc & _ & Hli & _).
    apply list_elem_of_lookup. by exists i.
Qed.

(** X10: a resolved class without the method is a success, and the
    superclass chain comes before the interfaces.  Once the class of the
    reference is resolved and the search root known, if the superclass
    walk finds a method, or finds none in a mode other than special-2,
    the resolver returns success with exactly the result of the walk as
    the method of the binding: the interface array is not consulted, and
    a method that is declared nowhere on the chain is reported as a null
    method, not as a failure. *)
Theorem walk_result_is_the_method
    (fuel idx : nat) (this : ClassRef) (isSpecial : Z) (call : callInfo)
    (einfo e1 : errorInfo) (vm vm1 : Machine) (ci : nat) (name sig : Utf8Const)
    (class root : ClassRef) (dk rk : Hjava_lang_Class) (w : option MethodRef)
    (h2 : Arena) :
  methodref_at (vm_classes vm) this idx ci name sig →
  getClass ci this einfo vm = Ok (Some class, e1, vm1) →
  vm_classes vm1 !! class = Some dk → CSTATE_LINKED ≤ c_state dk →
  search_root (vm_classes vm1) isSpecial name class this = Ok (Some root) →
  vm_classes vm1 !! root = Some rk →
  superclass_walk fuel (vm_classes vm1) (Some root) name sig = Ok (w, h2) →
  w ≠ None ∨ isSpecial ≠ 2 →
  getMethodSignatureClass fuel idx this true isSpecial call einfo vm
    = Ok (true,
          mkCallInfo (Some root) w (Some sig) (Some name) (Some (c_name rk))
                     (countInsAndOuts sig).1.1 (countInsAndOuts sig).1.2
                     (countInsAndOuts sig).2,
          e1, mkMachine h2 (vm_ext vm1) (vm_trace vm1)).
Proof.
  intros Href Hg Hdk Hst Hroot Hrk Hw Hcond.
  rewrite (getMethodSignatureClass_eager fuel idx this isSpecial call einfo vm
             ci name sig Href).
  rewrite Hg. simpl.
  rewrite (find_in_hierarchy_from_root fuel isSpecial name sig class this root _ _
             dk rk Hdk Hst Hroot Hrk).
  rewrite Hw. simpl.
  destruct (bool_decide (w = None) && (isSpecial =? 2)) eqn:Hb; [|done].
  apply andb_true_iff in Hb as [Hwn Hs2].
  apply bool_decide_eq_true in Hwn. apply Z.eqb_eq in Hs2.
  by destruct Hcond.
Qed.

(** X11: when the class cannot be loaded the binding names it.  In an
    eager resolution of a method reference whose class slot is unresolved
    and whose load fails, the resolver returns failure with the loader's
    error, and the class name of the binding is the name that was sent to
    the loader; name, signature and counts are those of the reference, and
    the class and the method are null. *)
Theorem unloadable_class_is_named_in_binding
    (fuel idx : nat) (this : ClassRef) (isSpecial : Z) (call : callInfo)
    (einfo e : errorInfo) (vm : Machine) (k : Hjava_lang_Class)
    (ci : nat) (name sig cn : Utf8Const) :
  methodref_at (vm_classes vm) this idx ci name sig →
  vm_classes vm !! this = Some k →
  slot_of (vm_classes vm) this ci = Some (CONSTANT_Class, SlotUtf8 cn) →
  (load_by_name cn (c_loader k) vm).1 = LoadFailed e →
  getMethodSignatureClass fuel idx this true isSpecial call einfo vm
    = Ok (false,
          mkCallInfo None None (Some sig) (Some name) (Some cn)
                     (countInsAndOuts sig).1.1 (countInsAndOuts sig).1.2
                     (countInsAndOuts sig).2,
          e, (load_by_name cn (c_loader k) vm).2).
Proof.
  intros Href Hk Hs Hl.
  rewrite (getMethodSignatureClass_eager fuel idx this isSpecial call einfo vm
             ci name sig Href).
  rewrite (getClass_unresolved ci this einfo vm k cn Hk Hs). rewrite Hl. simpl.
  unfold deref. rewrite load_by_name_classes, Hk. simpl.
  apply slot_of_Some in Hs as (k' & Hk' & _ & Hd).
  rewrite Hk in Hk'. injection Hk' as <-.
  unfold pool_utf8, pool_data, CLASS_CONSTANTS. rewrite Hd. by simpl.
Qed.

(** X12: a resolved class slot makes resolution loader-free.  Once the
    class slot of a method or field reference is resolved, an eager
    method resolution and a field resolution through it return with the
    state of the loader and the list of requests as they were, and never
    fail on the class: the method resolution succeeds with the caller's
    error descriptor untouched, and the field resolution leaves the whole
    machine as it was. *)
Theorem resolved_slot_needs_no_loader
    (this : ClassRef) (ci : nat) (c : ClassRef) (vm : Machine) :
  slot_of (vm_classes vm) this ci = Some (CONSTANT_ResolvedClass, SlotClass c) →
  (∀ fuel idx isSpecial call einfo name sig b call' e vm',
     methodref_at (vm_classes vm) this idx ci name sig →
     getMethodSignatureClass fuel idx this true isSpecial call einfo vm
       = Ok (b, call', e, vm') →
     b = true ∧ e = einfo ∧ vm_ext vm' = vm_ext vm ∧ vm_trace vm' = vm_trace vm)
  ∧ (∀ idx isStatic ret einfo name sig b ret' e vm',
       fieldref_at (vm_classes vm) this idx ci name sig →
       getField idx this isStatic ret einfo vm = Ok (b, ret', e, vm') →
       vm' = vm).
Proof.
  intros Hs. split.
  - intros fuel idx isSpecial call einfo name sig b call' e vm' Href Hg.
    rewrite (getMethodSignatureClass_eager fuel idx this isSpecial call einfo vm
               ci name sig Href) in Hg.
    rewrite (getClass_resolved ci this einfo vm c Hs) in Hg. simpl in Hg.
    bind_inv Hg f Hf. by injection Hg as <- <- <- <-.
  - intros idx isStatic ret einfo name sig b ret' e vm' Href Hg.
    rewrite (getField_fieldref idx this isStatic ret einfo vm ci name sig Href) in Hg.
    rewrite (getClass_resolved ci this einfo vm c Hs) in Hg. simpl in Hg.
    bind_inv Hg ck Hck. bind_inv Hg k' Hk'. bind_inv Hg ni Hni. bind_inv Hg nn Hnn.
    bind_inv Hg nm Hnm. bind_inv Hg ns Hns. bind_inv Hg sg Hsg.
    destruct (lookupClassField (vm_classes vm) c nm isStatic);
      by injection Hg as _ _ _ <-.
Qed.

(** ** The field resolver: success *)

Lemma getClass_Some_resolved (idx : nat) (this : ClassRef) (einfo e : errorInfo)
    (vm vm' : Machine) (c : ClassRef) :
  getClass idx this einfo vm = Ok (Some c, e, vm') →
  e = einfo
  ∧ slot_of (vm_classes vm') this idx = Some (CONSTANT_ResolvedClass, SlotClass c)
  ∧ ∀ q, method_at (vm_classes vm') q = method_at (vm_classes vm) q.
Proof.
  intros Hg. apply getClass_inv in Hg as (k & tag & Hk & Ht & Hcases).
  destruct Hcases as [(-> & -> & -> & c' & [= <-] & Hd)
                     |[(_ & _ & _ & [=] & _)
                      |(-> & name & Hd & [([=] & _)|(c' & [= <-] & -> & Hl & ->)])]].
  - split; [done|]. split; [|done]. apply slot_of_Some. by exists k.
  - split; [done|]. simpl. split.
    + apply (slot_of_store_slot_eq _ _ _ _ CONSTANT_Class _ (SlotUtf8 name)).
      apply slot_of_Some. by exists k.
    + intros q. apply method_at_store_slot.
Qed.

(** A read of the pool after a class slot has been resolved either
    reads what was there before, or reads the class stored in the slot,
    which is neither a word nor a string. *)
Lemma read_after_resolution {A : Type} (f : ConstSlot → Result A)
    (d : list ConstSlot) (ci i : nat) (c : ClassRef) (x : A) :
  f (SlotClass c) = Fault →
  (let* s := of_option (<[ci := SlotClass c]> d !! i) in f s) = Ok x →
  (let* s := of_option (d !! i) in f s) = Ok x.
Proof.
  intros Hf. destruct (decide (i = ci)) as [->|Hne].
  - destruct (decide (ci < length d)%nat) as [Hlt|Hge].
    + rewrite list_lookup_insert_eq by done. simpl. by rewrite Hf.
    + by rewrite list_insert_ge by lia.
  - by rewrite list_lookup_insert_ne.
Qed.

(** The name and the signature of a field reference are read the same
    before and after the resolution of its class slot. *)
Lemma fieldref_reads_after_resolution (k : Hjava_lang_Class) (t : list Z)
    (idx ci : nat) (c : ClassRef) (ni nn ns ni' nn' ns' : nat)
    (name sig name' sig' : Utf8Const) :
  let pool := c_constants k in
  let pool' := mkConstants t (<[ci := SlotClass c]> (data pool)) in
  FIELDREF_NAMEANDTYPE idx pool = Ok ni → NAMEANDTYPE_NAME ni pool = Ok nn →
  pool_utf8 pool nn = Ok name → NAMEANDTYPE_SIGNATURE ni pool = Ok ns →
  pool_utf8 pool ns = Ok sig →
  FIELDREF_NAMEANDTYPE idx pool' = Ok ni' → NAMEANDTYPE_NAME ni' pool' = Ok nn' →
  pool_utf8 pool' nn' = Ok name' → NAMEANDTYPE_SIGNATURE ni' pool' = Ok ns' →
  pool_utf8 pool' ns' = Ok sig' →
  name' = name ∧ sig' = sig.
Proof.
  intros pool pool' Hni Hnn Hname Hns Hsig Hni' Hnn' Hname' Hns' Hsig'.
  unfold FIELDREF_NAMEANDTYPE, NAMEANDTYPE_NAME, NAMEANDTYPE_SIGNATURE, high16, low16,
    pool_utf8, pool_data in *. simpl in Hni', Hnn', Hname', Hns', Hsig'.
  apply read_after_resolution in Hni'; [|done].
  rewrite Hni in Hni'. injection Hni' as <-.
  apply read_after_resolution in Hnn'; [|done].
  rewrite Hnn in Hnn'. injection Hnn' as <-.
  apply read_after_resolution in Hns'; [|done].
  rewrite Hns in Hns'. injection Hns' as <-.
  apply read_after_resolution in Hname'; [|done].
  apply read_after_resolution in Hsig'; [|done].
  rewrite Hname in Hname'. rewrite Hsig in Hsig'. split; congruence.
Qed.

(** X13: what a successful field resolution leaves behind.  When
    [getField] returns success, the binding holds a class and a field
    and the name and the signature of the reference, the field is the
    one the per-class lookup returns for that class and that name, the
    class name of the binding is the name of that class, the class slot
    of the reference is resolved to that class, the caller's error
    descriptor is untouched and no method record has changed. *)
Theorem getField_success_postcondition
    (idx : nat) (this : ClassRef) (isStatic : bool) (ret ret' : fieldInfo)
    (einfo e : errorInfo) (vm vm' : Machine) (ci : nat) (name sig : Utf8Const) :
  fieldref_at (vm_classes vm) this idx ci name sig →
  getField idx this isStatic ret einfo vm = Ok (true, ret', e, vm') →
  ∃ class ck field,
    ret' = mkFieldInfo (Some (c_name ck)) (Some name) (Some sig)
                       (Some field) (Some class)
    ∧ lookupClassField (vm_classes vm') class name isStatic = FieldFound field
    ∧ vm_classes vm' !! class = Some ck
    ∧ slot_of (vm_classes vm') this ci = Some (CONSTANT_ResolvedClass, SlotClass class)
    ∧ e = einfo
    ∧ ∀ q, method_at (vm_classes vm') q = method_at (vm_classes vm) q.
Proof.
  intros Href Hg.
  rewrite (getField_fieldref idx this isStatic ret einfo vm ci name sig Href) in Hg.
  destruct Href as (k & ni & nn & ns & Hk & Ht & Hci & Hni & Hnn & Hname & Hns & Hsig).
  bind_inv Hg g Hgc. destruct g as [[[class|] e1] vm1]; simpl in Hg; [|by injection Hg].
  bind_inv Hg ck Hck. bind_inv Hg k' Hk'. bind_inv Hg ni' Hni'. bind_inv Hg nn' Hnn'.
  bind_inv Hg nm Hnm. bind_inv Hg ns' Hns'. bind_inv Hg sg Hsg.
  destruct (lookupClassField (vm_classes vm1) class nm isStatic) as [field|e2] eqn:Hl;
    [|by injection Hg].
  injection Hg as <- <- <-.
  assert (Hsame : nm = name ∧ sg = sig).
  { unfold deref in Hk'.
    destruct (vm_classes vm1 !! this) as [k1|] eqn:Hk1; [|done]. injection Hk' as ->.
    apply getClass_inv in Hgc as (k0 & tag & Hk0 & Htag & Hcases).
    rewrite Hk in Hk0. injection Hk0 as <-.
    destruct Hcases as [(_ & -> & _)
                       |[(_ & _ & _ & [=] & _)
                        |(_ & cn & Hd & [([=] & _)|(c' & [= <-] & _ & _ & ->)])]].
    - rewrite Hk in Hk1. injection Hk1 as <-. unfold CLASS_CONSTANTS in *.
      split; congruence.
    - simpl in Hk1. rewrite (store_slot_insert _ _ k) in Hk1 by done.
      rewrite lookup_insert_eq in Hk1. injection Hk1 as <-.
      by apply (fieldref_reads_after_resolution k
                  (<[ci := CONSTANT_ResolvedClass]> (tags (c_constants k)))
                  idx ci class ni nn ns ni' nn' ns'). }
  destruct Hsame as [-> ->].
  apply getClass_Some_resolved in Hgc as (-> & Hslot & Hmeth).
  unfold deref in Hck. destruct (vm_classes vm1 !! class) as [ck0|] eqn:Hc; [|done].
  injection Hck as ->.
  exists class, ck, field. by repeat split.
Qed.

End MoreResolution.

Lemma getClass_loader_requests_witness :
  ∃ k tag,
    vm_classes Tower.vm !! Tower.R = Some k
    ∧ tags (c_constants k) !! 16%nat = Some tag
    ∧ (tag = CONSTANT_ResolvedClass →
       @mkMachine TableCollab
         (store_slot Tower.arena Tower.R 16 CONSTANT_ResolvedClass
                     (SlotClass Tower.RArray))
         Tower.loader [CallLoadArray "[LR;" None] = Tower.vm)
    ∧ (tag ≠ CONSTANT_ResolvedClass → tag ≠ CONSTANT_Class →
       @mkMachine TableCollab
         (store_slot Tower.arena Tower.R 16 CONSTANT_ResolvedClass
                     (SlotClass Tower.RArray))
         Tower.loader [CallLoadArray "[LR;" None] = Tower.vm
       ∧ Some Tower.RArray = None
       ∧ no_error = postException "java.lang.ClassFormatError")
    ∧ (tag = CONSTANT_Class →
       ∃ name, data (c_constants k) !! 16%nat = Some (SlotUtf8 name)
               ∧ [CallLoadArray "[LR;" None]
                 = vm_trace Tower.vm
                   ++ [if first_char_is name "["%char
                       then CallLoadArray name (c_loader k)
                       else CallLoadClass name (c_loader k)]).
Proof.
  apply (@getClass_loader_requests TableCollab 16%nat Tower.R no_error no_error Tower.vm
           (@mkMachine TableCollab
              (store_slot Tower.arena Tower.R 16 CONSTANT_ResolvedClass
                          (SlotClass Tower.RArray))
              Tower.loader [CallLoadArray "[LR;" None])
           (Some Tower.RArray)).
  by vm_compute.
Defined.

Lemma getClass_frame_witness :
  let vm' := @mkMachine TableCollab Tower.arena_resolved Tower.loader
                        [CallLoadClass "R" None] in
  (∀ this' idx', (this', idx') ≠ (Tower.R, 1%nat) →
     slot_of (vm_classes vm') this' idx' = slot_of (vm_classes Tower.vm) this' idx')
  ∧ (∀ q, method_at (vm_classes vm') q = method_at (vm_classes Tower.vm) q)
  ∧ (∀ c, (λ k, set_constants k no_pool) <$> (vm_classes vm' !! c)
          = (λ k, set_constants k no_pool) <$> (vm_classes Tower.vm !! c))
  ∧ (∀ c, Some Tower.R = Some c →
       no_error = no_error
       ∧ slot_of (vm_classes vm') Tower.R 1
         = Some (CONSTANT_ResolvedClass, SlotClass c)).
Proof.
  apply (@getClass_frame TableCollab 1%nat Tower.R no_error no_error Tower.vm
           (@mkMachine TableCollab Tower.arena_resolved Tower.loader
                       [CallLoadClass "R" None])
           (Some Tower.R)).
  by vm_compute.
Defined.

Lemma lazy_resolution_touches_nothing_witness :
  getMethodSignatureClass 0 18 Tower.R false 0 stale_call no_error Tower.vm
    = Ok (true,
          mkCallInfo None None (Some "()V") (Some "m1") None 0 0 "V"%char,
          no_error, Tower.vm).
Proof.
  apply (proj2 (@lazy_resolution_touches_nothing TableCollab 0%nat 18%nat Tower.R 0
                  stale_call no_error Tower.vm) 17%nat "m1" "()V").
  exists Tower.classR, CONSTANT_Methodref, 4%nat, 2%nat, 3%nat.
  vm_compute. repeat split; auto.
Defined.

Lemma resolved_method_matches_reference_witness :
  ∃ m class vm1 root,
    method_at Tower.arena_resolved (Tower.Q, 0%nat) = Some m
    ∧ m_name m = "m2" ∧ m_signature m = "()V"
    ∧ getClass 1 Tower.R no_error Tower.vm = Ok (Some class, no_error, vm1)
    ∧ Some Tower.R = Some root
    ∧ ((∃ n, nth_super (vm_classes vm1) root n = Some (Tower.Q, 0%nat).1)
       ∨ (0 = 2
          ∧ ∃ rk, vm_classes vm1 !! root = Some rk
                  ∧ (Tower.Q, 0%nat).1 ∈ c_interfaces rk)).
Proof.
  apply (@resolved_method_matches_reference TableCollab 5%nat 8%nat Tower.R 0
           stale_call
           (mkCallInfo (Some Tower.R) (Some (Tower.Q, 0%nat)) (Some "()V") (Some "m2")
                       (Some "R") 0 0 "V"%char)
           no_error no_error Tower.vm Tower.vm_resolved 1%nat "m2" "()V"
           (Tower.Q, 0%nat)).
  - exists Tower.classR, CONSTANT_Methodref, 7%nat, 6%nat, 3%nat.
    vm_compute. repeat split; auto.
  - by vm_compute.
  - reflexivity.
Defined.

Lemma walk_result_is_the_method_witness :
  getMethodSignatureClass 5 11 Tower.R true 0 stale_call no_error Tower.vm
    = Ok (true,
          mkCallInfo (Some Tower.R) None (Some "()V") (Some "m3") (Some "R")
                     0 0 "V"%char,
          no_error, Tower.vm_resolved).
Proof.
  apply (@walk_result_is_the_method TableCollab 5%nat 11%nat Tower.R 0 stale_call
           no_error no_error Tower.vm Tower.vm_resolved 1%nat "m3" "()V"
           Tower.R Tower.R
           (set_constants Tower.classR
              (mkConstants (<[1%nat := CONSTANT_ResolvedClass]> (tags Tower.poolR))
                           (<[1%nat := SlotClass Tower.R]> (data Tower.poolR))))
           (set_constants Tower.classR
              (mkConstants (<[1%nat := CONSTANT_ResolvedClass]> (tags Tower.poolR))
                           (<[1%nat := SlotClass Tower.R]> (data Tower.poolR))))
           None Tower.arena_resolved).
  - exists Tower.classR, CONSTANT_Methodref, 10%nat, 9%nat, 3%nat.
    vm_compute. repeat split; auto.
  - by vm_compute.
  - by vm_compute.
  - by vm_compute.
  - by vm_compute.
  - by vm_compute.
  - by vm_compute.
  - by right.
Defined.

Lemma unloadable_class_is_named_in_binding_witness :
  getMethodSignatureClass 5 18 Tower.R true 0 stale_call no_error Tower.vm
    = Ok (false,
          mkCallInfo None None (Some "()V") (Some "m1") (Some "Missing") 0 0 "V"%char,
          Failing.not_found "Missing",
          @mkMachine TableCollab Tower.arena Tower.loader [CallLoadClass "Missing" None]).
Proof.
  apply (@unloadable_class_is_named_in_binding TableCollab 5%nat 18%nat Tower.R 0
           stale_call no_error (Failing.not_found "Missing") Tower.vm Tower.classR
           17%nat "m1" "()V" "Missing").
  - exists Tower.classR, CONSTANT_Methodref, 4%nat, 2%nat, 3%nat.
    vm_compute. repeat split; auto.
  - reflexivity.
  - reflexivity.
  - reflexivity.
Defined.

Lemma resolved_slot_needs_no_loader_witness :
  (∀ fuel idx isSpecial call einfo name sig b call' e vm',
     methodref_at (vm_classes Tower.vm_resolved) Tower.R idx 1 name sig →
     getMethodSignatureClass fuel idx Tower.R true isSpecial call einfo Tower.vm_resolved
       = Ok (b, call', e, vm') →
     b = true ∧ e = einfo ∧ vm_ext vm' = vm_ext Tower.vm_resolved
     ∧ vm_trace vm' = vm_trace Tower.vm_resolved)
  ∧ (∀ idx isStatic ret einfo name sig b ret' e vm',
       fieldref_at (vm_classes Tower.vm_resolved) Tower.R idx 1 name sig →
       getField idx Tower.R isStatic ret einfo Tower.vm_resolved = Ok (b, ret', e, vm') →
       vm' = Tower.vm_resolved).
Proof.
  apply (@resolved_slot_needs_no_loader TableCollab Tower.R 1%nat Tower.R
           Tower.vm_resolved).
  reflexivity.
Defined.

Lemma getField_success_postcondition_witness :
  ∃ class ck field,
    mkFieldInfo (Some "R") (Some "count") (Some "I") (Some (Tower.R, 0%nat))
                (Some Tower.R)
    = mkFieldInfo (Some (c_name ck)) (Some "count") (Some "I") (Some field) (Some class)
    ∧ table_lookupClassField Tower.arena_resolved class "count" false = FieldFound field
    ∧ Tower.arena_resolved !! class = Some ck
    ∧ slot_of Tower.arena_resolved Tower.R 1
      = Some (CONSTANT_ResolvedClass, SlotClass class)
    ∧ no_error = no_error
    ∧ ∀ q, method_at Tower.arena_resolved q = method_at Tower.arena q.
Proof.
  apply (@getField_success_postcondition TableCollab 12%nat Tower.R false stale_field
           (mkFieldInfo (Some "R") (Some "count") (Some "I") (Some (Tower.R, 0%nat))
                        (Some Tower.R))
           no_error no_error Tower.vm Tower.vm_resolved 1%nat "count" "I").
  - exists Tower.classR, 13%nat, 14%nat, 15%nat. vm_compute. repeat split; auto.
  - by vm_compute.
Defined.

(** ** findMethod *)

Section FindMethodProperties.
Context `{Collab : Collaborators}.
Variable CSTATE_USABLE : Z.



(** X15: [findMethod] and the ordinary eager resolution agree.  When an
    eager resolution in ordinary mode succeeds on a reference whose class
    is in the usable state, [findMethod] on that class, from the machine
    the class resolution leaves, returns the method of the binding and
    leaves the same machine; the two differ only when no method is
    found, which the resolver reports as success with a null method and
    [findMethod] as a [NoSuchMethodError] whose message is the name
    formatted as a format without arguments. *)
Theorem findMethod_agrees_with_ordinary_resolution
    (fuel idx : nat) (this : ClassRef) (call call' : callInfo)
    (einfo einfo2 e e1 : errorInfo) (vm vm1 vm' : Machine) (ci : nat)
    (name sig : Utf8Const) (class : ClassRef) (dk : Hjava_lang_Class) :
  methodref_at (vm_classes vm) this idx ci name sig →
  getClass ci this einfo vm = Ok (Some class, e1, vm1) →
  vm_classes vm1 !! class = Some dk → CSTATE_USABLE ≤ c_state dk →
  getMethodSignatureClass fuel idx this true 0 call einfo vm
    = Ok (true, call', e, vm') →
  findMethod CSTATE_USABLE fuel class name sig einfo2 vm1
    = match call_method call' with
      | Some q => Ok (Some q, einfo2, vm')
      | None =>
          let* mess := printf_no_args name in
          Ok (None, mkErrorInfo KERR_EXCEPTION "java.lang.NoSuchMethodError" mess, vm')
      end.
Proof.
  intros Href Hg Hdk Hst Hm.
  rewrite (getMethodSignatureClass_eager fuel idx this 0 call einfo vm ci name sig Href)
    in Hm.
  rewrite Hg in Hm. simpl in Hm. bind_inv Hm f Hf. destruct f as [call1 h'].
  injection Hm as <- <- <-. simpl.
  apply find_in_hierarchy_inv in Hf
    as (root & rk & w & h2 & Hroot & Hrk & Hw & _ & _ & _ & _ & Hcases).
  injection Hroot as <-.
  destruct Hcases as [(_ & -> & ->) | (_ & Hs2 & _)]; [|done].
  unfold findMethod, deref. rewrite Hdk. simpl.
  destruct (c_state dk <? CSTATE_USABLE) eqn:Hlt; [apply Z.ltb_lt in Hlt; lia|].
  unfold findMethod_search. rewrite Hw. simpl.
  destruct w as [q|]; [done|]. unfold postExceptionFormat.
  by destruct (printf_no_args name).
Qed.

End FindMethodProperties.

(** ** The forName entry point *)

Section ForNameProperties.
Context `{Collab : Collaborators}.





End ForNameProperties.

(** ** Primitive classes by name *)

(** X18: the primitive class of a name.  [getPrimitiveClass] maps the
    name of each of the nine primitive types to its class; it decides on
    the first character alone, and on the second one after a 'b', so
    every name with the same beginning has the same answer; a name that
    starts with none of b, c, d, f, i, l, s, v, and a name that starts
    with b followed by neither y nor o, has no primitive class. *)
Theorem getPrimitiveClass_by_leading_characters :
  (∀ p, java_lang_Class_getPrimitiveClass (primitive_name p) = Ok (Some p))
  ∧ (∀ c rest rest',
       c ≠ "b"%char →
       java_lang_Class_getPrimitiveClass (String c rest)
       = java_lang_Class_getPrimitiveClass (String c rest'))
  ∧ (∀ c rest rest',
       java_lang_Class_getPrimitiveClass (String "b" (String c rest))
       = java_lang_Class_getPrimitiveClass (String "b" (String c rest')))
  ∧ (∀ c rest,
       c ∉ ["b"; "c"; "d"; "f"; "i"; "l"; "s"; "v"]%char →
       java_lang_Class_getPrimitiveClass (String c rest) = Ok None)
  ∧ (∀ c rest,
       c ≠ "y"%char → c ≠ "o"%char →
       java_lang_Class_getPrimitiveClass (String "b" (String c rest)) = Ok None).
Proof.
  split; [by intros []|]. split; [|split; [|split]].
  - intros c rest rest' Hb. unfold java_lang_Class_getPrimitiveClass. simpl.
    apply Ascii.eqb_neq in Hb. by rewrite Hb.
  - intros c rest rest'. by unfold java_lang_Class_getPrimitiveClass.
  - intros c rest Hc. unfold java_lang_Class_getPrimitiveClass. simpl.
    repeat (match goal with
            | |- context [Ascii.eqb c ?x] =>
                destruct (Ascii.eqb_spec c x) as [->|_];
                [exfalso; apply Hc; set_solver|]
            end).
    done.
  - intros c rest Hy Ho. unfold java_lang_Class_getPrimitiveClass. simpl.
    apply Ascii.eqb_neq in Hy, Ho. by rewrite Hy, Ho.
Qed.


Lemma findMethod_agrees_with_ordinary_resolution_witness :
  findMethod CSTATE_LINKED 5 Tower.R "m2" "()V" no_error Tower.vm_resolved
    = Ok (Some (Tower.Q, 0%nat), no_error, Tower.vm_resolved).
Proof.
  apply (@findMethod_agrees_with_ordinary_resolution TableCollab CSTATE_LINKED
           5%nat 8%nat Tower.R stale_call
           (mkCallInfo (Some Tower.R) (Some (Tower.Q, 0%nat)) (Some "()V") (Some "m2")
                       (Some "R") 0 0 "V"%char)
           no_error no_error no_error no_error Tower.vm Tower.vm_resolved
           Tower.vm_resolved 1%nat "m2" "()V" Tower.R
           (set_constants Tower.classR
              (mkConstants (<[1%nat := CONSTANT_ResolvedClass]> (tags Tower.poolR))
                           (<[1%nat := SlotClass Tower.R]> (data Tower.poolR))))).
  - exists Tower.classR, CONSTANT_Methodref, 7%nat, 6%nat, 3%nat.
    vm_compute. repeat split; auto.
  - by vm_compute.
  - by vm_compute.
  - by vm_compute.
  - by vm_compute.
Defined.


Lemma getPrimitiveClass_by_leading_characters_witness :
  java_lang_Class_getPrimitiveClass "integer" = java_lang_Class_getPrimitiveClass "int"
  ∧ java_lang_Class_getPrimitiveClass "Boolean" = Ok None
  ∧ java_lang_Class_getPrimitiveClass "bit" = Ok None.
Proof.
  split; [|split].
  - apply (proj1 (proj2 getPrimitiveClass_by_leading_characters)). discriminate.
  - apply (proj1 (proj2 (proj2 (proj2 getPrimitiveClass_by_leading_characters)))).
    intros H. repeat (apply elem_of_cons in H as [H|H]; [discriminate H|]).
    by apply elem_of_nil in H.
  - apply (proj2 (proj2 (proj2 (proj2 getPrimitiveClass_by_leading_characters))));
      discriminate.
Defined.

(** ** Reflection on members *)

Lemma same_outside_pools_refl (h : Arena) : same_outside_pools h h.
Proof. by intros c. Qed.

Lemma same_outside_pools_trans (h1 h2 h3 : Arena) :
  same_outside_pools h1 h2 → same_outside_pools h2 h3 → same_outside_pools h1 h3.
Proof. intros H12 H23 c. by rewrite (H23 c), (H12 c). Qed.

Lemma same_outside_pools_lookup (h h' : Arena) (c : ClassRef) (k : Hjava_lang_Class) :
  same_outside_pools h h' → h !! c = Some k →
  ∃ k', h' !! c = Some k' ∧ c_methods k' = c_methods k
        ∧ c_superclass k' = c_superclass k ∧ c_interfaces k' = c_interfaces k
        ∧ c_accflags k' = c_accflags k ∧ c_fields k' = c_fields k
        ∧ c_loader k' = c_loader k.
Proof.
  intros Hs Hk. specialize (Hs c). rewrite Hk in Hs. simpl in Hs.
  destruct (h' !! c) as [k'|]; simpl in Hs; [|done].
  exists k'. split; [done|]. injection Hs as H1 H2 H3 H4 H5 H6 H7 H8 H9.
  by repeat split.
Qed.

Lemma same_outside_pools_sym (h h' : Arena) :
  same_outside_pools h h' → same_outside_pools h' h.
Proof. intros Hs c. by rewrite (Hs c). Qed.

Lemma same_outside_pools_method_at (h h' : Arena) (q : MethodRef) :
  same_outside_pools h h' → method_at h' q = method_at h q.
Proof.
  intros Hs. unfold method_at. specialize (Hs q.1).
  destruct (h !! q.1) as [k|], (h' !! q.1) as [k'|]; simpl in *; try done.
  injection Hs as H1 H2 H3 H4 H5 H6 H7 H8 H9. by rewrite H6.
Qed.

(** *** Writing objects into an array *)

Lemma filled_nil {A : Type} (arr : list (option A)) (ptr : nat) :
  filled arr ptr [] arr.
Proof.
  split; [done|]. intros j.
  destruct (decide _) as [Hj|_]; [simpl in Hj; lia | done].
Qed.

Lemma filled_write {A : Type} (arr : list (option A)) (ptr : nat) (v : A) :
  (ptr < length arr)%nat → filled arr ptr [v] (<[ptr := Some v]> arr).
Proof.
  intros Hp. split; [apply length_insert|]. intros j. simpl.
  destruct (decide _) as [Hj|Hj].
  - assert (j = ptr) as -> by lia. rewrite Nat.sub_diag. simpl.
    by apply list_lookup_insert_eq.
  - apply list_lookup_insert_ne. lia.
Qed.

Lemma filled_app {A : Type} (arr arr1 arr2 : list (option A)) (ptr : nat)
    (o1 o2 : list A) :
  filled arr ptr o1 arr1 → filled arr1 (ptr + length o1) o2 arr2 →
  filled arr ptr (o1 ++ o2) arr2.
Proof.
  intros (Hl1 & H1) (Hl2 & H2). split; [congruence|]. intros j.
  rewrite length_app, H2.
  destruct (decide (ptr + length o1 ≤ j < ptr + length o1 + length o2)%nat) as [Hj|Hj].
  - rewrite decide_True by lia. rewrite lookup_app_r by lia. do 2 f_equal. lia.
  - rewrite H1. destruct (decide (ptr ≤ j < ptr + length o1)%nat) as [Hj1|Hj1].
    + rewrite decide_True by lia. by rewrite lookup_app_l by lia.
    + by rewrite decide_False by lia.
Qed.

(** Objects written into an array fit into it. *)
Lemma filled_bound {A : Type} (arr arr' : list (option A)) (ptr : nat) (objs : list A) :
  filled arr ptr objs arr' → objs ≠ [] → (ptr + length objs ≤ length arr)%nat.
Proof.
  intros (Hl & H) Hne. destruct objs as [|o objs]; [done|]. simpl in *.
  specialize (H (ptr + length objs)%nat).
  rewrite decide_True in H by lia.
  destruct (lookup_lt_is_Some_2 (o :: objs) (ptr + length objs - ptr)) as [x Hx];
    [simpl; lia|].
  rewrite Hx in H. simpl in H. apply lookup_lt_Some in H. lia.
Qed.

Lemma filled_all {A : Type} (n : nat) (objs : list A) (arr' : list (option A)) :
  filled (replicate n None) 0 objs arr' → length objs = n → arr' = Some <$> objs.
Proof.
  intros (Hl & H) Hn. apply list_eq. intros j. rewrite H, list_lookup_fmap.
  rewrite Nat.sub_0_r. destruct (decide _) as [Hj|Hj]; [done|].
  rewrite (lookup_ge_None_2 objs) by (simpl in Hj; lia). simpl.
  apply lookup_ge_None_2. rewrite length_replicate. lia.
Qed.

Section ReflectProperties.
Context `{Refl : Reflection}.

Lemma vm_bind_Ok {A B : Type} (c : VM A) (f : A → VM B) (vm vm' : Machine)
    (r : Exc B) :
  vm_bind c f vm = Ok (r, vm') →
  ∃ ra vm1, c vm = Ok (ra, vm1)
            ∧ match ra with
              | Done a => f a vm1 = Ok (r, vm')
              | Raised e => r = Raised e ∧ vm' = vm1
              end.
Proof.
  unfold vm_bind. intros H. bind_inv H x Hx. destruct x as [ra vm1].
  exists ra, vm1. split; [done|]. simpl in H. destruct ra as [a|e]; [done|].
  by injection H as <- <-.
Qed.

Lemma vm_bind_Done {A B : Type} (c : VM A) (f : A → VM B) (vm vm' : Machine) (b : B) :
  vm_bind c f vm = Ok (Done b, vm') →
  ∃ a vm1, c vm = Ok (Done a, vm1) ∧ f a vm1 = Ok (Done b, vm').
Proof.
  intros H. apply vm_bind_Ok in H as (ra & vm1 & Hc & Hf).
  destruct ra as [a|e]; [by exists a, vm1|]. by destruct Hf.
Qed.

Lemma vm_read_Ok {A : Type} (f : Arena → Result A) (vm vm' : Machine) (r : Exc A) :
  vm_read f vm = Ok (r, vm') → vm' = vm ∧ ∃ a, r = Done a ∧ f (vm_classes vm) = Ok a.
Proof.
  unfold vm_read. intros H. bind_inv H a Ha. injection H as <- <-.
  split; [done|]. by exists a.
Qed.

Lemma vm_load_frame (f : ExtState → LoadResult * ExtState) (vm vm' : Machine)
    (r : Exc ClassRef) :
  vm_load f vm = Ok (r, vm') →
  vm_classes vm' = vm_classes vm ∧ vm_trace vm' = vm_trace vm.
Proof. unfold vm_load. destruct (f (vm_ext vm)).1; by intros [= _ <-]. Qed.

Lemma framed_ret {A : Type} (a : A) : framed (vm_ret a).
Proof. intros vm vm' r [= _ <-]. apply same_outside_pools_refl. Qed.

Lemma framed_read {A : Type} (f : Arena → Result A) : framed (vm_read f).
Proof.
  intros vm vm' r H. apply vm_read_Ok in H as [-> _]. apply same_outside_pools_refl.
Qed.

Lemma framed_load (f : ExtState → LoadResult * ExtState) : framed (vm_load f).
Proof.
  intros vm vm' r H. apply vm_load_frame in H as [-> _]. apply same_outside_pools_refl.
Qed.

Lemma framed_bind {A B : Type} (c : VM A) (f : A → VM B) :
  framed c → (∀ a, framed (f a)) → framed (vm_bind c f).
Proof.
  intros Hc Hf vm vm' r H. apply vm_bind_Ok in H as (ra & vm1 & H1 & H2).
  apply Hc in H1. destruct ra as [a|e].
  - apply Hf in H2. by eapply same_outside_pools_trans.
  - by destruct H2 as [_ ->].
Qed.

Lemma getClass_outside_pools (idx : nat) (this : ClassRef) (einfo e : errorInfo)
    (vm vm' : Machine) (r : option ClassRef) :
  getClass idx this einfo vm = Ok (r, e, vm') → same_outside_pools (vm_classes vm) (vm_classes vm').
Proof.
  intros Hg. apply getClass_inv in Hg as (k & tag & Hk & Ht & Hcases).
  destruct Hcases as [(_ & -> & _)
                     |[(_ & _ & -> & _)
                      |(_ & name & _ & [(_ & _ & ->)|(c & _ & _ & _ & ->)])]];
    try apply same_outside_pools_refl.
  - rewrite load_by_name_classes. apply same_outside_pools_refl.
  - intros c'. simpl. apply store_slot_outside_constants.
Qed.

Lemma framed_getClass_or_raise (idx : nat) (this : ClassRef) :
  framed (getClass_or_raise idx this).
Proof.
  intros vm vm' r H. unfold getClass_or_raise in H. bind_inv H g Hg.
  destruct g as [[c e] vm1]. apply getClass_outside_pools in Hg. simpl in H.
  destruct c; by injection H as _ <-.
Qed.

Lemma framed_makeParameters_loop (m : Method) (loader : LoaderRef) (todo i : nat)
    (body : list ClassRef) : framed (makeParameters_loop m loader todo i body).
Proof.
  revert i body. induction todo as [|todo IH]; intros i body; simpl.
  - apply framed_ret.
  - apply framed_bind; [apply framed_load|]. intros clazz. apply IH.
Qed.

Lemma framed_makeParameters (meth : MethodRef) : framed (makeParameters meth).
Proof.
  unfold makeParameters, method_record, loader_of.
  apply framed_bind; [apply framed_read|]. intros m.
  apply framed_bind; [apply framed_read|]. intros loader.
  apply framed_makeParameters_loop.
Qed.

Lemma framed_makeReturn (meth : MethodRef) : framed (makeReturn meth).
Proof.
  unfold makeReturn, method_record, loader_of.
  apply framed_bind; [apply framed_read|]. intros m.
  apply framed_bind; [apply framed_read|]. intros loader. apply framed_load.
Qed.

Lemma framed_makeExceptions_loop (class : ClassRef) (indices : list nat)
    (body : list ClassRef) : framed (makeExceptions_loop class indices body).
Proof.
  revert body. induction indices as [|idx rest IH]; intros body; simpl.
  - apply framed_ret.
  - apply framed_bind; [apply framed_getClass_or_raise|]. intros clazz. apply IH.
Qed.

Lemma framed_makeExceptions (meth : MethodRef) : framed (makeExceptions meth).
Proof.
  unfold makeExceptions, method_record.
  apply framed_bind; [apply framed_read|]. intros m. apply framed_makeExceptions_loop.
Qed.

Lemma framed_makeMethod (clazz : ClassRef) (slot : nat) : framed (makeMethod clazz slot).
Proof.
  unfold makeMethod, method_record.
  apply framed_bind; [apply framed_read|]. intros m.
  apply framed_bind; [apply framed_makeParameters|]. intros params.
  apply framed_bind; [apply framed_makeExceptions|]. intros excs.
  apply framed_bind; [apply framed_makeReturn|]. intros ret. apply framed_ret.
Qed.

(** The object made for a method slot names the slot and the method. *)
Lemma makeMethod_Done (clazz : ClassRef) (slot : nat) (vm vm' : Machine)
    (obj : Hjava_lang_reflect_Method) :
  makeMethod clazz slot vm = Ok (Done obj, vm') →
  rm_clazz obj = clazz ∧ rm_slot obj = slot
  ∧ ∃ m, method_at (vm_classes vm) (clazz, slot) = Some m ∧ rm_name obj = m_name m.
Proof.
  unfold makeMethod. intros H.
  apply vm_bind_Done in H as (m & vm1 & Hm & H).
  unfold method_record in Hm. apply vm_read_Ok in Hm as (-> & m0 & [= <-] & Hm).
  apply vm_bind_Done in H as (params & vm2 & _ & H).
  apply vm_bind_Done in H as (excs & vm3 & _ & H).
  apply vm_bind_Done in H as (ret & vm4 & _ & H).
  injection H as <- _. repeat split; try done. exists m. split; [|done].
  revert Hm. destruct (method_at (vm_classes vm) (clazz, slot)) as [m0|]; simpl;
    [by intros [= ->] | done].
Qed.

(** *** The counting pass *)

Lemma countMethods_loop_spec (mth : list Method) (declared : Z) (n count : nat) :
  (n ≤ length mth)%nat →
  countMethods_loop mth declared n count
  = Ok (count + length (reported_slots mth declared n))%nat.
Proof.
  revert count. induction n as [|i IH]; intros count Hn; simpl.
  - by rewrite Nat.add_0_r.
  - destruct (lookup_lt_is_Some_2 mth i) as [m Hm]; [lia|].
    rewrite Hm. simpl. rewrite IH by lia.
    destruct (reported_method declared m); simpl; f_equal; lia.
Qed.

Lemma countMethods_spec (h : Arena) (c : ClassRef) (k : Hjava_lang_Class) (declared : Z) :
  h !! c = Some k →
  countMethods h c declared = Ok (length (reported_of h c declared)).
Proof.
  intros Hk. unfold countMethods, reported_of, deref. rewrite Hk. simpl.
  rewrite countMethods_loop_spec by done. by rewrite length_fmap.
Qed.

Lemma write_slot_Ok {A : Type} (arr arr' : list (option A)) (ptr ptr' : nat) (v : A) :
  write_slot arr ptr v = Ok (arr', ptr') →
  ptr' = S ptr ∧ filled arr ptr [v] arr'.
Proof.
  unfold write_slot. destruct (ptr <? length arr)%nat eqn:Hlt; [|done].
  intros [= <- <-]. apply Nat.ltb_lt in Hlt. split; [done|]. by apply filled_write.
Qed.

(** *** The filling pass *)

Lemma methods_after_frame (h h' : Arena) (clas : ClassRef) (ms : list Method) :
  same_outside_pools h h' → c_methods <$> (h !! clas) = Some ms →
  c_methods <$> (h' !! clas) = Some ms.
Proof.
  intros Hs Hms. destruct (h !! clas) as [k|] eqn:Hk; [|done].
  destruct (same_outside_pools_lookup h h' clas k Hs Hk) as (k' & Hk' & Hm & _).
  rewrite Hk'. simpl in *. congruence.
Qed.

Lemma addMethods_loop_spec (clas : ClassRef) (declared : Z) (ms : list Method) (n : nat) :
  (n ≤ length ms)%nat →
  ∀ arr ptr vm arr' ptr' vm',
    c_methods <$> (vm_classes vm !! clas) = Some ms →
    addMethods_loop clas declared n arr ptr vm = Ok (Done (arr', ptr'), vm') →
    same_outside_pools (vm_classes vm) (vm_classes vm')
    ∧ ∃ objs,
        filled arr ptr objs arr' ∧ ptr' = (ptr + length objs)%nat
        ∧ method_key <$> objs = (λ i, (clas, i)) <$> reported_slots ms declared n
        ∧ ∀ o, o ∈ objs →
               ∃ m, ms !! rm_slot o = Some m ∧ rm_name o = m_name m
                    ∧ reported_method declared m = true.
Proof.
  induction n as [|i IH]; intros Hn arr ptr vm arr' ptr' vm' Hms; simpl.
  - intros [= <- <- <-]. split; [apply same_outside_pools_refl|].
    exists []. split; [apply filled_nil|]. split; [simpl; lia|]. split; [done|].
    intros o Ho. by apply not_elem_of_nil in Ho.
  - intros H. apply vm_bind_Done in H as (m & vm0 & Hm & H).
    unfold method_record in Hm. apply vm_read_Ok in Hm as (-> & m0 & [= <-] & Hm).
    assert (Hma : method_at (vm_classes vm) (clas, i) = Some m).
    { destruct (method_at (vm_classes vm) (clas, i)); simpl in Hm; congruence. }
    clear Hm. rename Hma into Hm.
    assert (Hmi : ms !! i = Some m).
    { unfold method_at in Hm. simpl in Hm.
      destruct (vm_classes vm !! clas) as [k|]; simpl in *; [|done].
      by injection Hms as <-. }
    rewrite Hmi. destruct (reported_method declared m) eqn:Hrep.
    + apply vm_bind_Done in H as (obj & vm1 & Hmk & H).
      assert (Hf1 := framed_makeMethod clas i _ _ _ Hmk).
      apply makeMethod_Done in Hmk as (Hc & Hsl & m1 & Hm1 & Hname).
      apply vm_bind_Done in H as (w & vm2 & Hw & H).
      bind_inv Hw w0 Hw0. injection Hw as <- <-. destruct w0 as [arr1 ptr1].
      apply write_slot_Ok in Hw0 as [-> Hfill]. simpl in H.
      apply IH in H as (Hf2 & objs & Hfilled & -> & Hkeys & Hobjs);
        [|lia|by apply (methods_after_frame _ _ _ _ Hf1)].
      split; [by eapply same_outside_pools_trans|].
      exists (obj :: objs). split; [|split; [simpl; lia|split]].
      * apply (filled_app arr arr1 arr' ptr [obj] objs Hfill).
        by replace (ptr + length [obj])%nat with (S ptr) by (simpl; lia).
      * rewrite !fmap_cons, Hkeys. f_equal. unfold method_key. by rewrite Hc, Hsl.
      * intros o Ho. apply elem_of_cons in Ho as [-> | Ho]; [|by apply Hobjs].
        exists m. rewrite Hsl. split; [done|]. split; [|done].
        rewrite Hm in Hm1. by injection Hm1 as <-.
    + apply IH in H; [done|lia|done].
Qed.

Lemma reported_of_methods (h : Arena) (c : ClassRef) (ms : list Method) (declared : Z) :
  c_methods <$> (h !! c) = Some ms →
  reported_of h c declared = (λ i, (c, i)) <$> reported_slots ms declared (length ms).
Proof.
  intros Hms. unfold reported_of. destruct (h !! c) as [k|]; [|done].
  simpl in Hms. by injection Hms as ->.
Qed.

Lemma reported_of_frame (h h' : Arena) (c : ClassRef) (declared : Z) :
  same_outside_pools h h' → reported_of h' c declared = reported_of h c declared.
Proof.
  intros Hs. unfold reported_of. specialize (Hs c).
  destruct (h !! c) as [k|], (h' !! c) as [k'|]; simpl in *; try done.
  injection Hs as H1 H2 H3 H4 H5 H6 H7 H8 H9. by rewrite H6.
Qed.

(** One class: the objects written are those of its reported methods. *)
Lemma addMethods_spec (clas : ClassRef) (declared : Z)
    (arr arr' : list (option Hjava_lang_reflect_Method)) (ptr ptr' : nat)
    (vm vm' : Machine) :
  addMethods clas declared arr ptr vm = Ok (Done (arr', ptr'), vm') →
  same_outside_pools (vm_classes vm) (vm_classes vm')
  ∧ ∃ objs,
      filled arr ptr objs arr' ∧ ptr' = (ptr + length objs)%nat
      ∧ method_key <$> objs = reported_of (vm_classes vm) clas declared
      ∧ ∀ o, o ∈ objs →
             ∃ m, method_at (vm_classes vm) (method_key o) = Some m
                  ∧ rm_name o = m_name m ∧ reported_method declared m = true.
Proof.
  unfold addMethods. intros H. apply vm_bind_Done in H as (n & vm0 & Hn & H).
  apply vm_read_Ok in Hn as (-> & n0 & [= <-] & Hn).
  bind_inv Hn k Hk. injection Hn as <-. unfold deref in Hk.
  destruct (vm_classes vm !! clas) as [k0|] eqn:Hl; [|done]. injection Hk as ->.
  apply (addMethods_loop_spec clas declared (c_methods k)) in H
    as (Hf & objs & Hfill & Hp & Hkeys & Hobjs); [|done|by rewrite Hl].
  split; [done|]. exists objs. split; [done|]. split; [done|]. split.
  - rewrite Hkeys. symmetry. apply reported_of_methods. by rewrite Hl.
  - intros o Ho. destruct (Hobjs o Ho) as (m & Hm & Hname & Hrep).
    exists m. split; [|done].
    assert (Hkey : method_key o ∈ method_key <$> objs) by (by apply list_elem_of_fmap_2).
    rewrite Hkeys in Hkey. apply list_elem_of_fmap in Hkey as (i & Hi & _).
    unfold method_at. rewrite Hi. simpl. rewrite Hl. simpl.
    unfold method_key in Hi. injection Hi as _ <-. exact Hm.
Qed.

Lemma reported_on_chain_frame (fuel : nat) (h h' : Arena) (clas : option ClassRef)
    (declared : Z) :
  same_outside_pools h h' →
  reported_on_chain fuel h' clas declared = reported_on_chain fuel h clas declared.
Proof.
  intros Hs. revert clas. induction fuel as [|fuel IH]; intros [c|]; simpl; try done.
  rewrite (reported_of_frame h h' c declared Hs). f_equal.
  destruct (negb (declared =? 0)); [done|].
  destruct (h !! c) as [k|] eqn:Hk.
  - destruct (same_outside_pools_lookup h h' c k Hs Hk) as (k' & -> & _ & Hsup & _).
    by rewrite Hsup.
  - specialize (Hs c). rewrite Hk in Hs. by destruct (h' !! c).
Qed.

(** The counting pass over the chain counts the reported methods. *)
Lemma count_chain_spec (fuel : nat) (h : Arena) (clas : option ClassRef) (declared : Z)
    (count n : nat) :
  count_chain fuel h clas declared count = Ok n →
  n = (count + length (reported_on_chain fuel h clas declared))%nat.
Proof.
  revert clas count. induction fuel as [|fuel IH]; intros [c|] count; simpl;
    try done; try (intros [= <-]; lia).
  intros H. bind_inv H n0 Hn0.
  unfold countMethods in Hn0. bind_inv Hn0 k Hk. unfold deref in Hk.
  destruct (h !! c) as [k0|] eqn:Hl; [|done]. injection Hk as ->.
  rewrite countMethods_loop_spec in Hn0 by done. injection Hn0 as <-.
  rewrite length_app. unfold reported_of at 1. rewrite Hl, length_fmap. simpl.
  destruct (negb (declared =? 0)).
  - injection H as <-. simpl. lia.
  - bind_inv H k1 Hk1. unfold deref in Hk1. rewrite Hl in Hk1. injection Hk1 as <-.
    apply IH in H. lia.
Qed.

(** The filling pass over the chain writes their objects in order. *)
Lemma add_chain_spec (fuel : nat) (declared : Z) :
  ∀ (clas : option ClassRef) arr ptr vm arr' ptr' vm',
    add_chain fuel clas declared arr ptr vm = Ok (Done (arr', ptr'), vm') →
    same_outside_pools (vm_classes vm) (vm_classes vm')
    ∧ ∃ objs,
        filled arr ptr objs arr' ∧ ptr' = (ptr + length objs)%nat
        ∧ method_key <$> objs = reported_on_chain fuel (vm_classes vm) clas declared
        ∧ ∀ o, o ∈ objs →
               ∃ m, method_at (vm_classes vm) (method_key o) = Some m
                    ∧ rm_name o = m_name m ∧ reported_method declared m = true.
Proof.
  induction fuel as [|fuel IH]; intros [c|] arr ptr vm arr' ptr' vm'; simpl; try done.
  - intros [= <- <- <-]. split; [apply same_outside_pools_refl|].
    exists []. split; [apply filled_nil|]. split; [simpl; lia|]. split; [done|].
    intros o Ho. by apply not_elem_of_nil in Ho.
  - intros H. apply vm_bind_Done in H as (w & vm1 & Hw & H). destruct w as [arr1 ptr1].
    apply addMethods_spec in Hw as (Hf1 & o1 & Hfill1 & -> & Hk1 & Ho1).
    destruct (negb (declared =? 0)).
    + injection H as <- <- <-. split; [done|]. exists o1.
      rewrite app_nil_r. split; [done|]. split; [done|]. by split.
    + apply vm_bind_Done in H as (super & vm2 & Hs & H).
      apply vm_read_Ok in Hs as (-> & s0 & [= <-] & Hs).
      bind_inv Hs k1 Hk1'. injection Hs as <-. unfold deref in Hk1'.
      destruct (vm_classes vm1 !! c) as [k1'|] eqn:Hl1; [|done]. injection Hk1' as ->.
      simpl in H. apply IH in H as (Hf2 & o2 & Hfill2 & -> & Hk2 & Ho2).
      split; [by eapply same_outside_pools_trans|].
      exists (o1 ++ o2). split; [by eapply filled_app|].
      split; [rewrite length_app; lia|]. split.
      * rewrite fmap_app, Hk1, Hk2. f_equal.
        rewrite (reported_on_chain_frame fuel _ _ _ declared Hf1).
        destruct (vm_classes vm !! c) as [k|] eqn:Hl.
        -- destruct (same_outside_pools_lookup _ _ c k Hf1 Hl)
             as (k' & Hk' & _ & Hsup & _).
           rewrite Hl1 in Hk'. injection Hk' as <-. by rewrite Hsup.
        -- specialize (Hf1 c). rewrite Hl, Hl1 in Hf1. done.
      * intros o Ho. apply elem_of_app in Ho as [Ho|Ho]; [by apply Ho1|].
        destruct (Ho2 o Ho) as (m & Hm & Hrest). exists m. split; [|done].
        by rewrite <- (same_outside_pools_method_at _ _ (method_key o) Hf1).
  - intros [= <- <- <-]. split; [apply same_outside_pools_refl|].
    exists []. split; [apply filled_nil|]. split; [simpl; lia|]. split; [done|].
    intros o Ho. by apply not_elem_of_nil in Ho.
Qed.

(** *** The array allocated from the count is never overrun *)

Lemma vm_bind_eq {A B : Type} (c : VM A) (f : A → VM B) (vm vm1 : Machine)
    (ra : Exc A) :
  c vm = Ok (ra, vm1) →
  vm_bind c f vm = match ra with
                   | Done a => f a vm1
                   | Raised e => Ok (Raised e, vm1)
                   end.
Proof. unfold vm_bind. intros ->. simpl. by destruct ra. Qed.

Lemma vm_read_eq {A : Type} (f : Arena → Result A) (vm : Machine) (a : A) :
  f (vm_classes vm) = Ok a → vm_read f vm = Ok (Done a, vm).
Proof. unfold vm_read. by intros ->. Qed.

Lemma write_slot_fits {A : Type} (arr : list (option A)) (ptr : nat) (v : A) :
  (ptr < length arr)%nat → write_slot arr ptr v = Ok (<[ptr := Some v]> arr, S ptr).
Proof. intros Hlt. unfold write_slot. by rewrite (proj2 (Nat.ltb_lt _ _) Hlt). Qed.

Lemma same_end_Raised {O : Type} (e : errorInfo) (arr2 : list (option O))
    (ptr2 n : nat) : same_end (Raised e) (Raised e) arr2 ptr2 n.
Proof. done. Qed.

(** One more slot written before the rest of the pass. *)
Lemma same_end_written {O : Type} (r1 r2 : Exc (list (option O) * nat))
    (arr2 : list (option O)) (ptr2 n : nat) (v : O) :
  same_end r1 r2 (<[ptr2 := Some v]> arr2) (S ptr2) n →
  same_end r1 r2 arr2 ptr2 (S n).
Proof.
  destruct r1 as [w1|e]; simpl; [|done]. intros (a2 & -> & Hlen).
  exists a2. rewrite length_insert in Hlen. split; [|done]. do 2 f_equal. lia.
Qed.

(** A second part of the pass after a first one. *)
Lemma same_end_then {O : Type} (r1 r2 : Exc (list (option O) * nat))
    (arr2 a2 : list (option O)) (ptr2 n1 n2 : nat) :
  length a2 = length arr2 →
  same_end r1 r2 a2 (ptr2 + n1) n2 → same_end r1 r2 arr2 ptr2 (n1 + n2).
Proof.
  intros Hlen. destruct r1 as [w1|e]; simpl; [|done]. intros (a3 & -> & Hlen3).
  exists a3. split; [|congruence]. do 2 f_equal. lia.
Qed.

Lemma reported_slots_length (ms : list Method) (declared : Z) (n : nat) (i : nat)
    (m : Method) :
  n = S i → ms !! i = Some m →
  length (reported_slots ms declared n)
  = ((if reported_method declared m then 1 else 0)
     + length (reported_slots ms declared i))%nat.
Proof. intros -> Hm. simpl. rewrite Hm. by destruct (reported_method declared m). Qed.

Lemma addMethods_loop_resize (clas : ClassRef) (declared : Z) (ms : list Method)
    (n : nat) :
  (n ≤ length ms)%nat →
  ∀ arr1 ptr1 arr2 ptr2 vm r1 vm',
    c_methods <$> (vm_classes vm !! clas) = Some ms →
    addMethods_loop clas declared n arr1 ptr1 vm = Ok (r1, vm') →
    (ptr2 + length (reported_slots ms declared n) ≤ length arr2)%nat →
    ∃ r2, addMethods_loop clas declared n arr2 ptr2 vm = Ok (r2, vm')
          ∧ same_end r1 r2 arr2 ptr2 (length (reported_slots ms declared n)).
Proof.
  induction n as [|i IH]; intros Hn arr1 ptr1 arr2 ptr2 vm r1 vm' Hms.
  - simpl. intros [= <- <-] _. exists (Done (arr2, ptr2)). split; [done|].
    exists arr2. split; [|done]. do 2 f_equal. lia.
  - cbn [addMethods_loop]. intros H Hroom.
    apply vm_bind_Ok in H as (rm & vm0 & Hm & H).
    rewrite (vm_bind_eq _ _ _ _ _ Hm).
    unfold method_record in Hm. apply vm_read_Ok in Hm as (-> & m & -> & Hm).
    assert (Hmi : ms !! i = Some m).
    { destruct (method_at (vm_classes vm) (clas, i)) as [m0|] eqn:Hma;
        simpl in Hm; [|done]. injection Hm as ->.
      unfold method_at in Hma. simpl in Hma.
      destruct (vm_classes vm !! clas) as [k|]; simpl in *; [|done].
      by injection Hms as <-. }
    rewrite (reported_slots_length ms declared (S i) i m eq_refl Hmi) in *.
    destruct (reported_method declared m).
    + apply vm_bind_Ok in H as (ro & vm1 & Hmk & H).
      rewrite (vm_bind_eq _ _ _ _ _ Hmk).
      destruct ro as [obj|e].
      2:{ destruct H as [-> ->]. by exists (Raised e). }
      apply vm_bind_Ok in H as (rw & vm2 & Hw & H).
      bind_inv Hw w0 Hw0. injection Hw as <- <-.
      assert (Hw2 : (λ vm : Machine,
                       let* w := write_slot arr2 ptr2 obj in Ok (Done w, vm)) vm1
                    = Ok (Done (<[ptr2 := Some obj]> arr2, S ptr2), vm1)).
      { simpl. rewrite write_slot_fits; [done|]. simpl in Hroom. lia. }
      rewrite (vm_bind_eq _ _ _ _ _ Hw2). cbn [fst snd].
      apply (IH ltac:(lia) _ _ (<[ptr2 := Some obj]> arr2) (S ptr2)) in H
        as (r2 & Hr2 & Hend).
      * exists r2. split; [done|]. by apply same_end_written in Hend.
      * apply (methods_after_frame _ _ _ _ (framed_makeMethod clas i _ _ _ Hmk) Hms).
      * rewrite length_insert. simpl in Hroom. lia.
    + apply (IH ltac:(lia) _ _ arr2 ptr2) in H as (r2 & Hr2 & Hend); [|done|done].
      by exists r2.
Qed.

Lemma addMethods_resize (clas : ClassRef) (declared : Z)
    (arr1 arr2 : list (option Hjava_lang_reflect_Method)) (ptr1 ptr2 : nat)
    (vm vm' : Machine) (r1 : Exc (list (option Hjava_lang_reflect_Method) * nat)) :
  addMethods clas declared arr1 ptr1 vm = Ok (r1, vm') →
  (ptr2 + length (reported_of (vm_classes vm) clas declared) ≤ length arr2)%nat →
  ∃ r2, addMethods clas declared arr2 ptr2 vm = Ok (r2, vm')
        ∧ same_end r1 r2 arr2 ptr2 (length (reported_of (vm_classes vm) clas declared)).
Proof.
  unfold addMethods. intros H Hroom.
  apply vm_bind_Ok in H as (rn & vm0 & Hn & H).
  rewrite (vm_bind_eq _ _ _ _ _ Hn).
  apply vm_read_Ok in Hn as (-> & n & -> & Hn).
  bind_inv Hn k Hk. injection Hn as <-. unfold deref in Hk.
  destruct (vm_classes vm !! clas) as [k0|] eqn:Hl; [|done]. injection Hk as ->.
  unfold reported_of in *. rewrite Hl in *. rewrite length_fmap in *.
  apply (addMethods_loop_resize clas declared (c_methods k) _ ltac:(done)
           _ _ arr2 ptr2) in H; [done|by rewrite Hl|done].
Qed.

Lemma framed_addMethods_loop (clas : ClassRef) (declared : Z) (n : nat) :
  ∀ arr ptr, framed (addMethods_loop clas declared n arr ptr).
Proof.
  induction n as [|i IHn]; intros arr ptr; cbn [addMethods_loop]; [apply framed_ret|].
  apply framed_bind; [apply framed_read|]. intros m.
  destruct (reported_method declared m); [|apply IHn].
  apply framed_bind; [apply framed_makeMethod|]. intros obj.
  apply framed_bind; [|intros w; apply IHn].
  intros vm vm' r H. bind_inv H w Hw. injection H as _ <-.
  apply same_outside_pools_refl.
Qed.

Lemma framed_addMethods (clas : ClassRef) (declared : Z)
    (arr : list (option Hjava_lang_reflect_Method)) (ptr : nat) :
  framed (addMethods clas declared arr ptr).
Proof.
  unfold addMethods. apply framed_bind; [apply framed_read|].
  intros n. apply framed_addMethods_loop.
Qed.

Lemma same_end_nothing {O : Type} (arr1 arr2 : list (option O)) (ptr1 ptr2 : nat)
    (vm vm' : Machine) (r1 : Exc (list (option O) * nat)) :
  vm_ret (arr1, ptr1) vm = Ok (r1, vm') →
  ∃ r2, vm_ret (arr2, ptr2) vm = Ok (r2, vm') ∧ same_end r1 r2 arr2 ptr2 0.
Proof.
  intros [= <- <-]. exists (Done (arr2, ptr2)).
  split; [done|]. exists arr2. split; [|done]. do 2 f_equal. lia.
Qed.

Lemma add_chain_resize (fuel : nat) (declared : Z) :
  ∀ (clas : option ClassRef) arr1 ptr1 arr2 ptr2 vm r1 vm',
    add_chain fuel clas declared arr1 ptr1 vm = Ok (r1, vm') →
    (ptr2 + length (reported_on_chain fuel (vm_classes vm) clas declared)
     ≤ length arr2)%nat →
    ∃ r2, add_chain fuel clas declared arr2 ptr2 vm = Ok (r2, vm')
          ∧ same_end r1 r2 arr2 ptr2
              (length (reported_on_chain fuel (vm_classes vm) clas declared)).
Proof.
  induction fuel as [|fuel IH]; intros [c|] arr1 ptr1 arr2 ptr2 vm r1 vm';
    cbn [add_chain reported_on_chain]; try done.
  - intros H _. by apply (same_end_nothing arr1 _ ptr1).
  - intros H Hroom. rewrite length_app in *.
    apply vm_bind_Ok in H as (rw & vm1 & Hw & H).
    assert (Hf1 := framed_addMethods _ _ _ _ _ _ _ Hw).
    apply (addMethods_resize _ _ _ arr2 _ ptr2) in Hw as (rw2 & Hw2 & Hend1); [|lia].
    rewrite (vm_bind_eq _ _ _ _ _ Hw2).
    destruct rw as [w1|e].
    2:{ simpl in Hend1. subst rw2. destruct H as [-> ->]. by exists (Raised e). }
    destruct Hend1 as (a2 & -> & Hlen2). cbn [fst snd].
    destruct (negb (declared =? 0)).
    + injection H as <- <-. exists (Done (a2, (ptr2 + length
                                   (reported_of (vm_classes vm) c declared))%nat)).
      split; [done|]. exists a2. split; [|done]. simpl. do 2 f_equal. lia.
    + apply vm_bind_Ok in H as (rs & vm2 & Hs & H).
      rewrite (vm_bind_eq _ _ _ _ _ Hs).
      apply vm_read_Ok in Hs as (-> & super & -> & Hs).
      bind_inv Hs k1 Hk1. injection Hs as <-. unfold deref in Hk1.
      destruct (vm_classes vm1 !! c) as [k1'|] eqn:Hl1; [|done]. injection Hk1 as ->.
      assert (Hrest : reported_on_chain fuel (vm_classes vm1) (c_superclass k1) declared
                      = match vm_classes vm !! c with
                        | Some k => reported_on_chain fuel (vm_classes vm)
                                      (c_superclass k) declared
                        | None => []
                        end).
      { rewrite (reported_on_chain_frame fuel _ _ _ declared Hf1).
        destruct (vm_classes vm !! c) as [k|] eqn:Hl.
        - destruct (same_outside_pools_lookup _ _ c k Hf1 Hl)
            as (k' & Hk' & _ & Hsup & _).
          rewrite Hl1 in Hk'. injection Hk' as <-. by rewrite Hsup.
        - specialize (Hf1 c). rewrite Hl, Hl1 in Hf1. done. }
      rewrite <- Hrest in *.
      apply (IH _ _ _ a2 (ptr2 + length (reported_of (vm_classes vm) c declared))%nat)
        in H as (r2 & Hr2 & Hend); [|lia].
      exists r2. split; [done|]. by apply (same_end_then _ _ _ a2).
  - intros H _. by apply (same_end_nothing arr1 _ ptr1).
Qed.

(** X19: the array of methods of a class is exactly filled, and is
    never overrun.  For a class that is not an interface: when
    [java_lang_Class_getMethods0] returns an array, no slot of the array
    is null and its objects stand, in order, for the methods reported
    along the superclass chain, nearest class first and each table from
    its last slot to its first, or for those of the class alone when
    [declared] is set; each object carries the name of its method, which
    is not a constructor and, unless [declared] is set, is public; and
    outside the constant pools the arena is as before.  And the array
    allocated from the count is large enough: whenever the counting pass
    returns and the filling pass, run on an array of any size, comes to
    an end, [java_lang_Class_getMethods0] comes to the same end, an array
    or the same error, with the same machine. *)
Theorem getMethods0_array_is_exactly_filled
    (fuel : nat) (this : ClassRef) (declared : Z) (k : Hjava_lang_Class)
    (vm : Machine) :
  vm_classes vm !! this = Some k → CLASS_IS_INTERFACE k = false →
  (∀ arr vm',
     java_lang_Class_getMethods0 fuel this declared vm = Ok (Done arr, vm') →
     same_outside_pools (vm_classes vm) (vm_classes vm')
     ∧ ∃ objs,
         arr = Some <$> objs
         ∧ method_key <$> objs
           = reported_on_chain fuel (vm_classes vm) (Some this) declared
         ∧ ∀ o, o ∈ objs →
                ∃ m, method_at (vm_classes vm) (method_key o) = Some m
                     ∧ rm_name o = m_name m
                     ∧ Z.land (m_accflags m) ACC_CONSTRUCTOR = 0
                     ∧ (declared = 0 → Z.land (m_accflags m) ACC_PUBLIC ≠ 0))
  ∧ (∀ N count r vm',
       count_chain fuel (vm_classes vm) (Some this) declared 0 = Ok count →
       add_chain fuel (Some this) declared (replicate N None) 0 vm = Ok (r, vm') →
       ∃ r', java_lang_Class_getMethods0 fuel this declared vm = Ok (r', vm')
             ∧ same_outcome r r').
Proof.
  intros Hk Hi. split.
  - intros arr vm' H. unfold java_lang_Class_getMethods0 in H.
    apply vm_bind_Done in H as (k0 & vm0 & Hk0 & H).
    apply vm_read_Ok in Hk0 as (-> & k1 & [= <-] & Hk0).
    unfold deref in Hk0. rewrite Hk in Hk0. injection Hk0 as <-. rewrite Hi in H.
    apply vm_bind_Done in H as (count & vm0 & Hc & H).
    apply vm_read_Ok in Hc as (-> & c0 & [= <-] & Hc).
    apply count_chain_spec in Hc. simpl in Hc.
    apply vm_bind_Done in H as (w & vm1 & Hw & H). injection H as <- <-.
    destruct w as [arr' ptr'].
    apply add_chain_spec in Hw as (Hf & objs & Hfill & _ & Hkeys & Hobjs).
    split; [done|]. exists objs. split; [|split; [done|]].
    + apply (filled_all count); [done|].
      rewrite Hc, <- Hkeys. by rewrite length_fmap.
    + intros o Ho. destruct (Hobjs o Ho) as (m & Hm & Hname & Hrep).
      exists m. split; [done|]. split; [done|].
      unfold reported_method, public_or_declared in Hrep.
      apply andb_true_iff in Hrep as [Hpd Hctor]. apply Z.eqb_eq in Hctor.
      split; [done|]. intros ->. simpl in Hpd. rewrite orb_false_r in Hpd.
      by apply negb_true_iff, Z.eqb_neq in Hpd.
  - intros N count r vm' Hc Hw. unfold java_lang_Class_getMethods0.
    rewrite (vm_bind_eq _ _ _ _ _ (vm_read_eq (λ h, deref h this) vm k
                                     ltac:(unfold deref; by rewrite Hk))).
    rewrite Hi.
    rewrite (vm_bind_eq _ _ _ _ _ (vm_read_eq _ vm count Hc)).
    apply count_chain_spec in Hc. simpl in Hc.
    apply (add_chain_resize _ _ _ _ _ (replicate count None) 0%nat) in Hw
      as (r2 & Hr2 & Hend); [|rewrite length_replicate; lia].
    rewrite (vm_bind_eq _ _ _ _ _ Hr2).
    destruct r as [w|e]; simpl in Hend.
    + destruct Hend as (a2 & -> & _). eexists. split; [done|]. by eexists.
    + subst r2. by exists (Raised e).
Qed.

Lemma count_interfaces_spec (h : Arena) (ifaces : list ClassRef) (declared : Z)
    (count n : nat) :
  count_interfaces h ifaces declared count = Ok n →
  n = (count + length (concat ((λ c, reported_of h c declared) <$> ifaces)))%nat.
Proof.
  revert count. induction ifaces as [|c rest IH]; intros count; simpl.
  - intros [= <-]. lia.
  - intros H. bind_inv H n0 Hn0.
    unfold countMethods in Hn0. bind_inv Hn0 k Hk. unfold deref in Hk.
    destruct (h !! c) as [k0|] eqn:Hl; [|done]. injection Hk as ->.
    rewrite countMethods_loop_spec in Hn0 by done. injection Hn0 as <-.
    apply IH in H. rewrite length_app. unfold reported_of at 1.
    rewrite Hl, length_fmap, H. symmetry. apply Nat.add_assoc.
Qed.

Lemma reported_of_interfaces_frame (h h' : Arena) (ifaces : list ClassRef)
    (declared : Z) :
  same_outside_pools h h' →
  concat ((λ c, reported_of h' c declared) <$> ifaces)
  = concat ((λ c, reported_of h c declared) <$> ifaces).
Proof.
  intros Hs. induction ifaces as [|c rest IH]; [done|].
  rewrite !fmap_cons. cbn [concat].
  by rewrite IH, (reported_of_frame h h' c declared Hs).
Qed.

Lemma add_interfaces_spec (declared : Z) (ifaces : list ClassRef) :
  ∀ arr ptr vm arr' ptr' vm',
    add_interfaces ifaces declared arr ptr vm = Ok (Done (arr', ptr'), vm') →
    same_outside_pools (vm_classes vm) (vm_classes vm')
    ∧ ∃ objs,
        filled arr ptr objs arr' ∧ ptr' = (ptr + length objs)%nat
        ∧ method_key <$> objs
          = concat ((λ c, reported_of (vm_classes vm) c declared) <$> ifaces)
        ∧ ∀ o, o ∈ objs →
               ∃ m, method_at (vm_classes vm) (method_key o) = Some m
                    ∧ rm_name o = m_name m ∧ reported_method declared m = true.
Proof.
  induction ifaces as [|c rest IH]; intros arr ptr vm arr' ptr' vm';
    [simpl|rewrite fmap_cons; cbn [add_interfaces concat]].
  - intros [= <- <- <-]. split; [apply same_outside_pools_refl|].
    exists []. split; [apply filled_nil|]. split; [simpl; lia|]. split; [done|].
    intros o Ho. by apply not_elem_of_nil in Ho.
  - intros H. apply vm_bind_Done in H as (w & vm1 & Hw & H). destruct w as [arr1 ptr1].
    apply addMethods_spec in Hw as (Hf1 & o1 & Hfill1 & -> & Hk1 & Ho1).
    simpl in H. apply IH in H as (Hf2 & o2 & Hfill2 & -> & Hk2 & Ho2).
    split; [by eapply same_outside_pools_trans|].
    exists (o1 ++ o2). split; [by eapply filled_app|].
    split; [rewrite length_app; lia|]. split.
    + rewrite fmap_app, Hk1, Hk2.
      by rewrite (reported_of_interfaces_frame _ _ rest declared Hf1).
    + intros o Ho. apply elem_of_app in Ho as [Ho|Ho]; [by apply Ho1|].
      destruct (Ho2 o Ho) as (m & Hm & Hrest). exists m. split; [|done].
      by rewrite <- (same_outside_pools_method_at _ _ (method_key o) Hf1).
Qed.

Lemma add_interfaces_resize (declared : Z) (ifaces : list ClassRef) :
  ∀ arr1 ptr1 arr2 ptr2 vm r1 vm',
    add_interfaces ifaces declared arr1 ptr1 vm = Ok (r1, vm') →
    (ptr2 + length (concat ((λ c, reported_of (vm_classes vm) c declared) <$> ifaces))
     ≤ length arr2)%nat →
    ∃ r2, add_interfaces ifaces declared arr2 ptr2 vm = Ok (r2, vm')
          ∧ same_end r1 r2 arr2 ptr2
              (length (concat ((λ c, reported_of (vm_classes vm) c declared)
                                 <$> ifaces))).
Proof.
  induction ifaces as [|c rest IH]; intros arr1 ptr1 arr2 ptr2 vm r1 vm';
    [|rewrite fmap_cons]; cbn [add_interfaces concat].
  - intros H _. by apply (same_end_nothing arr1 _ ptr1).
  - intros H Hroom. rewrite length_app in *.
    apply vm_bind_Ok in H as (rw & vm1 & Hw & H).
    assert (Hf1 := framed_addMethods _ _ _ _ _ _ _ Hw).
    apply (addMethods_resize _ _ _ arr2 _ ptr2) in Hw as (rw2 & Hw2 & Hend1); [|lia].
    rewrite (vm_bind_eq _ _ _ _ _ Hw2).
    destruct rw as [w1|e].
    2:{ simpl in Hend1. subst rw2. destruct H as [-> ->]. by exists (Raised e). }
    destruct Hend1 as (a2 & -> & Hlen2). cbn [fst snd].
    rewrite <- (reported_of_interfaces_frame _ _ rest declared Hf1) in *.
    apply (IH _ _ a2 (ptr2 + length (reported_of (vm_classes vm) c declared))%nat)
      in H as (r2 & Hr2 & Hend); [|lia].
    exists r2. split; [done|]. by apply (same_end_then _ _ _ a2).
Qed.

Lemma count_interface_methods_spec (h : Arena) (this : ClassRef) (declared : Z)
    (k : Hjava_lang_Class) (count : nat) :
  count_interface_methods h this declared = Ok (k, count) →
  h !! this = Some k ∧ count = length (reported_by_interface h this declared).
Proof.
  unfold count_interface_methods. intros H. bind_inv H k0 Hk. unfold deref in Hk.
  destruct (h !! this) as [k1|] eqn:Hl; [|done]. injection Hk as ->.
  rewrite (countMethods_spec _ _ k0) in H by done. simpl in H.
  bind_inv H c1 Hc1. injection H as <- <-. split; [done|].
  unfold reported_by_interface. rewrite Hl, length_app.
  destruct (declared =? 0).
  - apply count_interfaces_spec in Hc1. done.
  - injection Hc1 as <-. simpl. lia.
Qed.

Lemma add_interface_methods_spec (this : ClassRef) (k : Hjava_lang_Class)
    (declared : Z) (arr arr' : list (option Hjava_lang_reflect_Method))
    (ptr ptr' : nat) (vm vm' : Machine) :
  vm_classes vm !! this = Some k →
  add_interface_methods this (c_interfaces k) declared arr ptr vm
    = Ok (Done (arr', ptr'), vm') →
  same_outside_pools (vm_classes vm) (vm_classes vm')
  ∧ ∃ objs,
      filled arr ptr objs arr' ∧ ptr' = (ptr + length objs)%nat
      ∧ method_key <$> objs = reported_by_interface (vm_classes vm) this declared
      ∧ ∀ o, o ∈ objs →
             ∃ m, method_at (vm_classes vm) (method_key o) = Some m
                  ∧ rm_name o = m_name m ∧ reported_method declared m = true.
Proof.
  intros Hl H. unfold add_interface_methods in H.
  apply vm_bind_Done in H as (w & vm1 & Hw & H). destruct w as [arr1 ptr1].
  apply addMethods_spec in Hw as (Hf1 & o1 & Hfill1 & -> & Hk1 & Ho1).
  unfold reported_by_interface. rewrite Hl. cbn [fst snd] in H.
  destruct (declared =? 0).
  - apply add_interfaces_spec in H as (Hf2 & o2 & Hfill2 & -> & Hk2 & Ho2).
    split; [by eapply same_outside_pools_trans|].
    exists (o1 ++ o2). split; [by eapply filled_app|].
    split; [rewrite length_app; lia|]. split.
    + rewrite fmap_app, Hk1, Hk2.
      by rewrite (reported_of_interfaces_frame _ _ _ declared Hf1).
    + intros o Ho. apply elem_of_app in Ho as [Ho|Ho]; [by apply Ho1|].
      destruct (Ho2 o Ho) as (m & Hm & Hrest). exists m. split; [|done].
      by rewrite <- (same_outside_pools_method_at _ _ (method_key o) Hf1).
  - injection H as <- <- <-. split; [done|]. exists o1. rewrite app_nil_r.
    split; [done|]. split; [done|]. by split.
Qed.

Lemma add_interface_methods_resize (this : ClassRef) (k : Hjava_lang_Class)
    (declared : Z) (arr1 arr2 : list (option Hjava_lang_reflect_Method))
    (ptr1 ptr2 : nat) (vm vm' : Machine)
    (r1 : Exc (list (option Hjava_lang_reflect_Method) * nat)) :
  vm_classes vm !! this = Some k →
  add_interface_methods this (c_interfaces k) declared arr1 ptr1 vm = Ok (r1, vm') →
  (ptr2 + length (reported_by_interface (vm_classes vm) this declared)
   ≤ length arr2)%nat →
  ∃ r2, add_interface_methods this (c_interfaces k) declared arr2 ptr2 vm
        = Ok (r2, vm')
        ∧ same_end r1 r2 arr2 ptr2
            (length (reported_by_interface (vm_classes vm) this declared)).
Proof.
  intros Hl H Hroom. unfold add_interface_methods in *.
  unfold reported_by_interface in *. rewrite Hl in *. rewrite length_app in *.
  apply vm_bind_Ok in H as (rw & vm1 & Hw & H).
  assert (Hf1 := framed_addMethods _ _ _ _ _ _ _ Hw).
  apply (addMethods_resize _ _ _ arr2 _ ptr2) in Hw as (rw2 & Hw2 & Hend1); [|lia].
  rewrite (vm_bind_eq _ _ _ _ _ Hw2).
  destruct rw as [w1|e].
  2:{ simpl in Hend1. subst rw2. destruct H as [-> ->]. by exists (Raised e). }
  destruct Hend1 as (a2 & -> & Hlen2). cbn [fst snd].
  destruct (declared =? 0).
  - rewrite <- (reported_of_interfaces_frame _ _ (c_interfaces k) declared Hf1) in *.
    apply (add_interfaces_resize _ _ _ _ a2
             (ptr2 + length (reported_of (vm_classes vm) this declared))%nat)
      in H as (r2 & Hr2 & Hend); [|lia].
    exists r2. split; [done|]. by apply (same_end_then _ _ _ a2).
  - injection H as <- <-. eexists. split; [done|]. exists a2. split; [|done].
    simpl. do 2 f_equal. lia.
Qed.

(** X20: the array of methods of an interface is exactly filled, and is
    never overrun.  When [getInterfaceMethods0] returns an array, no slot
    of it is null and its objects stand, in order, for the reported
    methods of the interface itself followed, unless [declared] is set,
    by those of every entry of its interface array, first entry first
    (the whole array, inherited interfaces included, and never the
    superclass); each object carries the name of a method that is not a
    constructor and, unless [declared] is set, is public.  And the array
    allocated from the count is large enough: whenever the counting pass
    returns and the filling pass, run on an array of any size, comes to
    an end, [getInterfaceMethods0] comes to the same end, an array or
    the same error, with the same machine. *)
Theorem getInterfaceMethods0_array_is_exactly_filled
    (this : ClassRef) (declared : Z) (vm : Machine) :
  (∀ arr vm',
     getInterfaceMethods0 this declared vm = Ok (Done arr, vm') →
     same_outside_pools (vm_classes vm) (vm_classes vm')
     ∧ ∃ objs,
         arr = Some <$> objs
         ∧ method_key <$> objs = reported_by_interface (vm_classes vm) this declared
         ∧ ∀ o, o ∈ objs →
                ∃ m, method_at (vm_classes vm) (method_key o) = Some m
                     ∧ rm_name o = m_name m
                     ∧ Z.land (m_accflags m) ACC_CONSTRUCTOR = 0
                     ∧ (declared = 0 → Z.land (m_accflags m) ACC_PUBLIC ≠ 0))
  ∧ (∀ N k count r vm',
       count_interface_methods (vm_classes vm) this declared = Ok (k, count) →
       add_interface_methods this (c_interfaces k) declared (replicate N None) 0 vm
         = Ok (r, vm') →
       ∃ r', getInterfaceMethods0 this declared vm = Ok (r', vm')
             ∧ same_outcome r r').
Proof.
  split.
  - unfold getInterfaceMethods0. intros arr vm' H.
    apply vm_bind_Done in H as (kc & vm0 & Hkc & H).
    apply vm_read_Ok in Hkc as (-> & kc0 & [= <-] & Hkc). destruct kc as [k count].
    apply count_interface_methods_spec in Hkc as [Hl ->]. cbn [fst snd] in H.
    apply vm_bind_Done in H as (w & vm1 & Hw & H). injection H as <- <-.
    destruct w as [arr' ptr'].
    apply (add_interface_methods_spec this k) in Hw
      as (Hf & objs & Hfill & _ & Hkeys & Hobjs); [|done].
    split; [done|]. exists objs. split; [|split; [done|]].
    + apply (filled_all _ _ _ Hfill). by rewrite <- Hkeys, length_fmap.
    + intros o Ho. destruct (Hobjs o Ho) as (m & Hm & Hname & Hrep).
      exists m. split; [done|]. split; [done|].
      unfold reported_method, public_or_declared in Hrep.
      apply andb_true_iff in Hrep as [Hpd Hctor]. apply Z.eqb_eq in Hctor.
      split; [done|]. intros ->. simpl in Hpd. rewrite orb_false_r in Hpd.
      by apply negb_true_iff, Z.eqb_neq in Hpd.
  - intros N k count r vm' Hc Hw. unfold getInterfaceMethods0.
    rewrite (vm_bind_eq _ _ _ _ _ (vm_read_eq _ vm (k, count) Hc)). cbn [fst snd].
    apply count_interface_methods_spec in Hc as [Hl ->].
    apply (add_interface_methods_resize this k declared _
             (replicate (length (reported_by_interface (vm_classes vm) this declared))
                        None) _ 0%nat) in Hw
      as (r2 & Hr2 & Hend); [|done|rewrite length_replicate; lia].
    rewrite (vm_bind_eq _ _ _ _ _ Hr2).
    destruct r as [w|e]; simpl in Hend.
    + destruct Hend as (a2 & -> & _). eexists. split; [done|]. by eexists.
    + subst r2. by exists (Raised e).
Qed.

End ReflectProperties.

Lemma getMethods0_array_is_exactly_filled_witness :
  (same_outside_pools (vm_classes Mirror.vm) (vm_classes Mirror.vm)
   ∧ ∃ objs,
       [Some (Mirror.method_object Mirror.Base 3 "scale" [Mirror.Int]);
        Some (Mirror.method_object Mirror.Base 1 "run" []);
        Some (Mirror.method_object Mirror.Object 1 "hashCode" [])] = Some <$> objs
       ∧ method_key <$> objs
         = reported_on_chain 3 (vm_classes Mirror.vm) (Some Mirror.Base) 0
       ∧ ∀ o, o ∈ objs →
              ∃ m, method_at (vm_classes Mirror.vm) (method_key o) = Some m
                   ∧ rm_name o = m_name m
                   ∧ Z.land (m_accflags m) ACC_CONSTRUCTOR = 0
                   ∧ (0 = 0 → Z.land (m_accflags m) ACC_PUBLIC ≠ 0))
  ∧ ∃ r', java_lang_Class_getMethods0 3 Mirror.Base 0 Mirror.vm = Ok (r', Mirror.vm)
          ∧ same_outcome
              (Done ([Some (Mirror.method_object Mirror.Base 3 "scale" [Mirror.Int]);
                      Some (Mirror.method_object Mirror.Base 1 "run" []);
                      Some (Mirror.method_object Mirror.Object 1 "hashCode" []);
                      None; None], 3%nat))
              r'.
Proof.
  destruct (@getMethods0_array_is_exactly_filled TableCollab TableReflection 3%nat
              Mirror.Base 0 Mirror.classBase Mirror.vm eq_refl eq_refl) as [Ha Hb].
  split.
  - apply Ha. by vm_compute.
  - apply (Hb 5%nat 3%nat); by vm_compute.
Defined.

Lemma getInterfaceMethods0_array_is_exactly_filled_witness :
  (same_outside_pools (vm_classes Mirror.vm) (vm_classes Mirror.vm)
   ∧ ∃ objs,
       [Some (Mirror.method_object Mirror.Shape 0 "area" []);
        Some (Mirror.method_object Mirror.Drawable 0 "draw" [])] = Some <$> objs
       ∧ method_key <$> objs
         = reported_by_interface (vm_classes Mirror.vm) Mirror.Shape 0
       ∧ ∀ o, o ∈ objs →
              ∃ m, method_at (vm_classes Mirror.vm) (method_key o) = Some m
                   ∧ rm_name o = m_name m
                   ∧ Z.land (m_accflags m) ACC_CONSTRUCTOR = 0
                   ∧ (0 = 0 → Z.land (m_accflags m) ACC_PUBLIC ≠ 0))
  ∧ ∃ r', getInterfaceMethods0 Mirror.Shape 0 Mirror.vm = Ok (r', Mirror.vm)
          ∧ same_outcome
              (Done ([Some (Mirror.method_object Mirror.Shape 0 "area" []);
                      Some (Mirror.method_object Mirror.Drawable 0 "draw" []);
                      None], 2%nat))
              r'.
Proof.
  destruct (@getInterfaceMethods0_array_is_exactly_filled TableCollab TableReflection
              Mirror.Shape 0 Mirror.vm) as [Ha Hb].
  split.
  - apply Ha. by vm_compute.
  - apply (Hb 3%nat Mirror.classShape 2%nat); by vm_compute.
Defined.

Lemma selected_elem {M : Type} (tbl : list M) (test : M → bool) (n i : nat) :
  i ∈ selected tbl test n →
  (i < n)%nat ∧ ∃ m, tbl !! i = Some m ∧ test m = true.
Proof.
  induction n as [|j IH]; simpl; [by intros H%not_elem_of_nil|].
  destruct (tbl !! j) as [m|] eqn:Hm.
  - destruct (test m) eqn:Ht.
    + intros [->|H]%elem_of_cons; [split; [lia|by exists m]|].
      destruct (IH H) as [Hlt Hex]. split; [lia|done].
    + intros H. destruct (IH H) as [Hlt Hex]. split; [lia|done].
  - intros H. destruct (IH H) as [Hlt Hex]. split; [lia|done].
Qed.

Lemma selected_ext {M : Type} (tbl : list M) (test test' : M → bool) (n : nat) :
  (∀ m, test m = test' m) → selected tbl test n = selected tbl test' n.
Proof.
  intros Hext. induction n as [|j IH]; simpl; [done|].
  destruct (tbl !! j) as [m|]; [|done]. by rewrite Hext, IH.
Qed.

Lemma selected_all {M : Type} (tbl : list M) (test : M → bool) (n : nat) :
  (∀ m, test m = true) → (n ≤ length tbl)%nat → length (selected tbl test n) = n.
Proof.
  intros Hall. induction n as [|j IH]; intros Hn; simpl; [done|].
  destruct (lookup_lt_is_Some_2 tbl j) as [m Hm]; [lia|].
  rewrite Hm, Hall. simpl. rewrite IH; [done|lia].
Qed.

Lemma selected_all_seq {M : Type} (tbl : list M) (test : M → bool) (n : nat) :
  (∀ m, test m = true) → (n ≤ length tbl)%nat → selected tbl test n = rev (seq 0 n).
Proof.
  intros Hall. induction n as [|j IH]; intros Hn; [done|].
  rewrite seq_S, rev_unit. simpl.
  destruct (lookup_lt_is_Some_2 tbl j) as [m Hm]; [lia|].
  rewrite Hm, Hall, IH; [done|lia].
Qed.

Lemma count_backwards_spec {M : Type} (tbl : list M) (test : M → bool) (n count : nat) :
  (n ≤ length tbl)%nat →
  count_backwards tbl test n count = Ok (count + length (selected tbl test n))%nat.
Proof.
  revert count. induction n as [|i IH]; intros count Hn; simpl.
  - by rewrite Nat.add_0_r.
  - destruct (lookup_lt_is_Some_2 tbl i) as [m Hm]; [lia|].
    rewrite Hm. simpl. rewrite IH by lia.
    destruct (test m); simpl; f_equal; lia.
Qed.

Lemma public_or_declared_0 (accflags : Z) :
  public_or_declared accflags 0 = negb (Z.land accflags ACC_PUBLIC =? 0).
Proof. unfold public_or_declared. simpl. apply orb_false_r. Qed.

Lemma public_or_declared_set (accflags declared : Z) :
  declared ≠ 0 → public_or_declared accflags declared = true.
Proof.
  intros Hd. unfold public_or_declared. apply Z.eqb_neq in Hd. rewrite Hd.
  apply orb_true_r.
Qed.

Lemma public_or_declared_public (accflags declared : Z) :
  public_or_declared accflags declared = true → declared = 0 →
  Z.land accflags ACC_PUBLIC ≠ 0.
Proof.
  intros H ->. rewrite public_or_declared_0 in H.
  by apply negb_true_iff, Z.eqb_neq in H.
Qed.

Lemma methods_of_Ok (clas : ClassRef) (h : Arena) (ms : list Method) :
  methods_of clas h = Ok ms ↔ c_methods <$> (h !! clas) = Some ms.
Proof.
  unfold methods_of, deref. destruct (h !! clas) as [k|]; simpl; [|done].
  split; by intros [= ->].
Qed.

Lemma fields_of_Ok (clas : ClassRef) (h : Arena) (fs : list Field) :
  fields_of clas h = Ok fs ↔ c_fields <$> (h !! clas) = Some fs.
Proof.
  unfold fields_of, deref. destruct (h !! clas) as [k|]; simpl; [|done].
  split; by intros [= ->].
Qed.

Lemma methods_of_frame (clas : ClassRef) (h h' : Arena) :
  same_outside_pools h h' → methods_of clas h' = methods_of clas h.
Proof.
  intros Hs. unfold methods_of, deref. specialize (Hs clas).
  destruct (h !! clas) as [k|], (h' !! clas) as [k'|]; simpl in *; try done.
  injection Hs as H1 H2 H3 H4 H5 H6 H7 H8 H9. by rewrite H6.
Qed.

Lemma fields_of_frame (clas : ClassRef) (h h' : Arena) :
  same_outside_pools h h' → fields_of clas h' = fields_of clas h.
Proof.
  intros Hs. unfold fields_of, deref. specialize (Hs clas).
  destruct (h !! clas) as [k|], (h' !! clas) as [k'|]; simpl in *; try done.
  injection Hs as H1 H2 H3 H4 H5 H6 H7 H8 H9. by rewrite H7.
Qed.

Section MemberProperties.
Context `{Refl : Reflection}.

(** The filling loop writes one object for each selected slot. *)
Lemma fill_backwards_spec {M O : Type} (table : Arena → Result (list M))
    (test : M → bool) (make : nat → VM O) (slot : O → nat) (P : Arena → O → Prop) :
  (∀ h h', same_outside_pools h h' → table h' = table h) →
  (∀ h h' o, same_outside_pools h h' → P h' o → P h o) →
  (∀ i, framed (make i)) →
  (∀ i vm vm' o, make i vm = Ok (Done o, vm') → slot o = i ∧ P (vm_classes vm) o) →
  ∀ (tbl : list M) (n : nat), (n ≤ length tbl)%nat →
  ∀ arr ptr vm arr' ptr' vm',
    table (vm_classes vm) = Ok tbl →
    fill_backwards table test make n arr ptr vm = Ok (Done (arr', ptr'), vm') →
    same_outside_pools (vm_classes vm) (vm_classes vm')
    ∧ ∃ objs,
        filled arr ptr objs arr' ∧ ptr' = (ptr + length objs)%nat
        ∧ slot <$> objs = selected tbl test n
        ∧ ∀ o, o ∈ objs → P (vm_classes vm) o.
Proof.
  intros Htable HP Hframed Hmake tbl n.
  induction n as [|i IH]; intros Hn arr ptr vm arr' ptr' vm' Htbl; simpl.
  - intros [= <- <- <-]. split; [apply same_outside_pools_refl|].
    exists []. split; [apply filled_nil|]. split; [simpl; lia|]. split; [done|].
    intros o Ho. by apply not_elem_of_nil in Ho.
  - intros H. apply vm_bind_Done in H as (m & vm0 & Hm & H).
    apply vm_read_Ok in Hm as (-> & m0 & [= <-] & Hm).
    rewrite Htbl in Hm. simpl in Hm.
    destruct (tbl !! i) as [m0|] eqn:Hmi; [|done]. injection Hm as ->.
    destruct (test m) eqn:Htest.
    + apply vm_bind_Done in H as (obj & vm1 & Hmk & H).
      assert (Hf1 := Hframed i _ _ _ Hmk).
      apply Hmake in Hmk as [Hslot HPobj].
      apply vm_bind_Done in H as (w & vm2 & Hw & H).
      bind_inv Hw w0 Hw0. injection Hw as <- <-. destruct w0 as [arr1 ptr1].
      apply write_slot_Ok in Hw0 as [-> Hfill]. simpl in H.
      apply IH in H as (Hf2 & objs & Hfilled & -> & Hkeys & Hobjs);
        [|lia|by rewrite (Htable _ _ Hf1)].
      split; [by eapply same_outside_pools_trans|].
      exists (obj :: objs). split; [|split; [simpl; lia|split]].
      * apply (filled_app arr arr1 arr' ptr [obj] objs Hfill).
        by replace (ptr + length [obj])%nat with (S ptr) by (simpl; lia).
      * rewrite fmap_cons, Hkeys. by f_equal.
      * intros o Ho. apply elem_of_cons in Ho as [-> | Ho]; [done|].
        apply (HP _ _ _ Hf1). by apply Hobjs.
    + apply IH in H; [done|lia|done].
Qed.

Lemma framed_makeConstructor (clazz : ClassRef) (slot : nat) :
  framed (makeConstructor clazz slot).
Proof.
  unfold makeConstructor.
  apply framed_bind; [apply framed_makeParameters|]. intros params.
  apply framed_bind; [apply framed_makeExceptions|]. intros excs. apply framed_ret.
Qed.

Lemma makeConstructor_Done (clazz : ClassRef) (slot : nat) (vm vm' : Machine)
    (obj : Hjava_lang_reflect_Constructor) :
  makeConstructor clazz slot vm = Ok (Done obj, vm') →
  rc_clazz obj = clazz ∧ rc_slot obj = slot.
Proof.
  unfold makeConstructor. intros H.
  apply vm_bind_Done in H as (params & vm1 & _ & H).
  apply vm_bind_Done in H as (excs & vm2 & _ & H).
  by injection H as <- _.
Qed.

Lemma makeField_frame (clazz : ClassRef) (slot : nat) (vm vm' : Machine)
    (r : Exc Hjava_lang_reflect_Field) :
  makeField clazz slot vm = Ok (r, vm') →
  vm_classes vm' = vm_classes vm ∧ vm_trace vm' = vm_trace vm.
Proof.
  unfold makeField. intros H. apply vm_bind_Ok in H as (ra & vm1 & Hr & H).
  apply vm_read_Ok in Hr as (-> & fld & -> & _).
  apply vm_bind_Ok in H as (rb & vm2 & Hl & H).
  apply vm_load_frame in Hl as [Hc Ht]. destruct rb as [type|e].
  - injection H as _ <-. done.
  - by destruct H as [_ ->].
Qed.

Lemma framed_makeField (clazz : ClassRef) (slot : nat) : framed (makeField clazz slot).
Proof.
  intros vm vm' r H. apply makeField_frame in H as [-> _].
  apply same_outside_pools_refl.
Qed.

Lemma makeField_Done (clazz : ClassRef) (slot : nat) (vm vm' : Machine)
    (obj : Hjava_lang_reflect_Field) :
  makeField clazz slot vm = Ok (Done obj, vm') →
  rf_clazz obj = clazz ∧ rf_slot obj = slot
  ∧ ∃ k fld, vm_classes vm !! clazz = Some k ∧ c_fields k !! slot = Some fld
             ∧ rf_name obj = f_name fld
             ∧ (resolveFieldType fld clazz (vm_ext vm)).1 = Loaded (rf_type obj).
Proof.
  unfold makeField. intros H. apply vm_bind_Done in H as (fld & vm1 & Hr & H).
  apply vm_read_Ok in Hr as (-> & fld0 & [= <-] & Hfld).
  bind_inv Hfld k Hk. unfold deref in Hk.
  destruct (vm_classes vm !! clazz) as [k0|] eqn:Hl; [|done]. injection Hk as ->.
  destruct (c_fields k !! slot) as [f0|] eqn:Hf; [|done]. injection Hfld as ->.
  apply vm_bind_Done in H as (type & vm2 & Hld & H). injection H as <- _.
  repeat split; try done. exists k, fld. repeat split; try done. simpl.
  unfold vm_load in Hld.
  destruct (resolveFieldType fld clazz (vm_ext vm)).1; [|done]. by injection Hld as ->.
Qed.

Lemma methods_length_read (clas : ClassRef) (vm vm' : Machine) (r : Exc nat) :
  vm_read (λ h, let* mth := methods_of clas h in Ok (length mth)) vm = Ok (r, vm') →
  vm' = vm ∧ ∃ k, vm_classes vm !! clas = Some k ∧ r = Done (length (c_methods k)).
Proof.
  intros H. apply vm_read_Ok in H as (-> & n & -> & Hn). split; [done|].
  bind_inv Hn mth Hmth. injection Hn as <-. apply methods_of_Ok in Hmth.
  destruct (vm_classes vm !! clas) as [k|]; [|done]. injection Hmth as <-.
  by exists k.
Qed.

Lemma framed_write_slot {A : Type} (arr : list (option A)) (ptr : nat) (v : A) :
  framed (λ vm : Machine, let* w := write_slot arr ptr v in Ok (Done w, vm)).
Proof.
  intros vm vm' r H. bind_inv H w Hw. injection H as _ <-.
  apply same_outside_pools_refl.
Qed.

Lemma framed_fill_backwards {M O : Type} (table : Arena → Result (list M))
    (test : M → bool) (make : nat → VM O) (n : nat) :
  (∀ i, framed (make i)) →
  ∀ arr ptr, framed (fill_backwards table test make n arr ptr).
Proof.
  intros Hmake. induction n as [|i IHn]; intros arr ptr; cbn [fill_backwards];
    [apply framed_ret|].
  apply framed_bind; [apply framed_read|]. intros m.
  destruct (test m); [|apply IHn].
  apply framed_bind; [apply Hmake|]. intros obj.
  apply framed_bind; [apply framed_write_slot|intros w; apply IHn].
Qed.

Lemma selected_length_step {M : Type} (tbl : list M) (test : M → bool) (i : nat)
    (m : M) :
  tbl !! i = Some m →
  length (selected tbl test (S i))
  = ((if test m then 1 else 0) + length (selected tbl test i))%nat.
Proof. intros Hm. simpl. rewrite Hm. by destruct (test m). Qed.

(** The filling loop comes to the same end on every array that has
    room for the selected slots. *)
Lemma fill_backwards_resize {M O : Type} (table : Arena → Result (list M))
    (test : M → bool) (make : nat → VM O) :
  (∀ h h', same_outside_pools h h' → table h' = table h) →
  (∀ i, framed (make i)) →
  ∀ (tbl : list M) (n : nat), (n ≤ length tbl)%nat →
  ∀ arr1 ptr1 arr2 ptr2 vm r1 vm',
    table (vm_classes vm) = Ok tbl →
    fill_backwards table test make n arr1 ptr1 vm = Ok (r1, vm') →
    (ptr2 + length (selected tbl test n) ≤ length arr2)%nat →
    ∃ r2, fill_backwards table test make n arr2 ptr2 vm = Ok (r2, vm')
          ∧ same_end r1 r2 arr2 ptr2 (length (selected tbl test n)).
Proof.
  intros Htable Hframed tbl n.
  induction n as [|i IH]; intros Hn arr1 ptr1 arr2 ptr2 vm r1 vm' Htbl.
  - simpl. intros H _. by apply (same_end_nothing arr1 _ ptr1).
  - cbn [fill_backwards]. intros H Hroom.
    apply vm_bind_Ok in H as (rm & vm0 & Hm & H).
    rewrite (vm_bind_eq _ _ _ _ _ Hm).
    apply vm_read_Ok in Hm as (-> & m & -> & Hm).
    rewrite Htbl in Hm. simpl in Hm.
    destruct (tbl !! i) as [m0|] eqn:Hmi; [|done]. injection Hm as ->.
    rewrite (selected_length_step tbl test i m Hmi) in *.
    destruct (test m).
    + apply vm_bind_Ok in H as (ro & vm1 & Hmk & H).
      rewrite (vm_bind_eq _ _ _ _ _ Hmk).
      destruct ro as [obj|e].
      2:{ destruct H as [-> ->]. by exists (Raised e). }
      apply vm_bind_Ok in H as (rw & vm2 & Hw & H).
      bind_inv Hw w0 Hw0. injection Hw as <- <-.
      assert (Hw2 : (λ vm : Machine,
                       let* w := write_slot arr2 ptr2 obj in Ok (Done w, vm)) vm1
                    = Ok (Done (<[ptr2 := Some obj]> arr2, S ptr2), vm1)).
      { simpl. rewrite write_slot_fits; [done|]. simpl in Hroom. lia. }
      rewrite (vm_bind_eq _ _ _ _ _ Hw2). cbn [fst snd].
      apply (IH ltac:(lia) _ _ (<[ptr2 := Some obj]> arr2) (S ptr2)) in H
        as (r2 & Hr2 & Hend).
      * exists r2. split; [done|]. by apply same_end_written in Hend.
      * by rewrite (Htable _ _ (Hframed i _ _ _ Hmk)).
      * rewrite length_insert. simpl in Hroom. lia.
    + apply (IH ltac:(lia) _ _ arr2 ptr2) in H as (r2 & Hr2 & Hend); [|done|done].
      by exists r2.
Qed.

Lemma count_constructors_spec (h : Arena) (this : ClassRef) (declared : Z)
    (count : nat) :
  count_constructors h this declared = Ok count →
  ∃ k, h !! this = Some k
       ∧ count = length (selected (c_methods k) (reported_constructor declared)
                                  (length (c_methods k))).
Proof.
  unfold count_constructors. intros H. bind_inv H mth Hmth.
  rewrite count_backwards_spec in H by done. injection H as <-.
  apply methods_of_Ok in Hmth. destruct (h !! this) as [k|]; [|done].
  injection Hmth as <-. by exists k.
Qed.

(** X21: the array of constructors is exactly filled, and is never
    overrun.  When [java_lang_Class_getConstructors0] returns an array,
    no slot of it is null and its objects stand, from the last slot of
    the method table to the first, for the constructors of the class
    itself that are public or, with [declared] set, for all of them:
    each object belongs to the class, never to a superclass.  And the
    array allocated from the count is large enough: whenever the
    counting pass returns and the filling pass, run on an array of any
    size, comes to an end, [java_lang_Class_getConstructors0] comes to
    the same end, an array or the same error, with the same machine. *)
Theorem getConstructors0_reports_own_constructors
    (this : ClassRef) (declared : Z) (vm : Machine) :
  (∀ arr vm',
     java_lang_Class_getConstructors0 this declared vm = Ok (Done arr, vm') →
     same_outside_pools (vm_classes vm) (vm_classes vm')
     ∧ ∃ k objs,
         vm_classes vm !! this = Some k
         ∧ arr = Some <$> objs
         ∧ rc_slot <$> objs
           = selected (c_methods k) (reported_constructor declared)
                      (length (c_methods k))
         ∧ ∀ o, o ∈ objs →
                rc_clazz o = this
                ∧ ∃ m, c_methods k !! rc_slot o = Some m
                       ∧ Z.land (m_accflags m) ACC_CONSTRUCTOR ≠ 0
                       ∧ (declared = 0 → Z.land (m_accflags m) ACC_PUBLIC ≠ 0))
  ∧ (∀ N count r vm',
       count_constructors (vm_classes vm) this declared = Ok count →
       add_constructors this declared (replicate N None) 0 vm = Ok (r, vm') →
       ∃ r', java_lang_Class_getConstructors0 this declared vm = Ok (r', vm')
             ∧ same_outcome r r').
Proof.
  split.
  - unfold java_lang_Class_getConstructors0. intros arr vm' H.
    apply vm_bind_Done in H as (count & vm0 & Hc & H).
    apply vm_read_Ok in Hc as (-> & c0 & [= <-] & Hc).
    apply count_constructors_spec in Hc as (k & Hk & ->).
    apply vm_bind_Done in H as (w & vm1 & Hw & H). injection H as <- <-.
    destruct w as [arr' ptr']. unfold add_constructors in Hw.
    apply vm_bind_Done in Hw as (n & vm0 & Hn & Hw).
    apply methods_length_read in Hn as (-> & k' & Hk' & [= ->]).
    rewrite Hk in Hk'. injection Hk' as <-.
    apply (fill_backwards_spec _ _ _ rc_slot (λ _ o, rc_clazz o = this))
      with (tbl := c_methods k) in Hw as (Hf & objs & Hfill & _ & Hkeys & Hobjs);
      try done.
    + split; [done|]. exists k, objs. split; [done|]. split; [|split; [done|]].
      * apply (filled_all _ _ _ Hfill). by rewrite <- Hkeys, length_fmap.
      * intros o Ho. split; [by apply Hobjs|].
        assert (Hin : rc_slot o ∈ rc_slot <$> objs) by (by apply list_elem_of_fmap_2).
        rewrite Hkeys in Hin. apply selected_elem in Hin as (_ & m & Hm & Ht).
        exists m. split; [done|]. unfold reported_constructor in Ht.
        apply andb_true_iff in Ht as [Hpd Hctor]. split.
        -- by apply negb_true_iff, Z.eqb_neq in Hctor.
        -- by apply public_or_declared_public.
    + intros h h' Hs. by apply methods_of_frame.
    + intros i. apply framed_makeConstructor.
    + intros i vm1' vm2' o Ho. apply makeConstructor_Done in Ho as [Hc Hs]. done.
    + apply methods_of_Ok. by rewrite Hk.
  - intros N count r vm' Hc Hw. unfold java_lang_Class_getConstructors0.
    rewrite (vm_bind_eq _ _ _ _ _ (vm_read_eq _ vm count Hc)).
    apply count_constructors_spec in Hc as (k & Hk & ->).
    unfold add_constructors in *.
    apply vm_bind_Ok in Hw as (rn & vm0 & Hn & Hw).
    assert (Hn' := Hn).
    apply methods_length_read in Hn' as (-> & k' & Hk' & ->).
    rewrite Hk in Hk'. injection Hk' as <-.
    apply (fill_backwards_resize _ _ _
             ltac:(intros h h' Hs; by apply methods_of_frame)
             ltac:(intros i; apply framed_makeConstructor)
             (c_methods k) _ ltac:(done) _ _
             (replicate (length (selected (c_methods k) (reported_constructor declared)
                                          (length (c_methods k)))) None) 0%nat)
      in Hw as (r2 & Hr2 & Hend);
      [|apply methods_of_Ok; by rewrite Hk|rewrite length_replicate; lia].
    assert (Hfill : vm_bind
                      (vm_read (λ h, let* mth := methods_of this h in Ok (length mth)))
                      (λ n, fill_backwards (methods_of this)
                              (reported_constructor declared) (makeConstructor this) n
                              (replicate
                                 (length (selected (c_methods k)
                                            (reported_constructor declared)
                                            (length (c_methods k)))) None) 0) vm
                    = Ok (r2, vm')).
    { by rewrite (vm_bind_eq _ _ _ _ _ Hn). }
    rewrite (vm_bind_eq _ _ _ _ _ Hfill).
    destruct r as [w|e]; simpl in Hend.
    + destruct Hend as (a2 & -> & _). eexists. split; [done|]. by eexists.
    + subst r2. by exists (Raised e).
Qed.

Lemma fields_on_chain_frame (fuel : nat) (h h' : Arena) (clas : option ClassRef)
    (declared : Z) :
  same_outside_pools h h' →
  fields_on_chain fuel h' clas declared = fields_on_chain fuel h clas declared.
Proof.
  intros Hs. revert clas. induction fuel as [|fuel IH]; intros [c|]; simpl; try done.
  destruct (h !! c) as [k|] eqn:Hk.
  - destruct (same_outside_pools_lookup h h' c k Hs Hk)
      as (k' & -> & _ & Hsup & _ & _ & Hfl & _).
    by rewrite Hfl, Hsup, IH.
  - specialize (Hs c). rewrite Hk in Hs. by destruct (h' !! c).
Qed.

Lemma count_public_fields_spec (fuel : nat) (h : Arena) (clas : option ClassRef)
    (count n : nat) :
  count_public_fields fuel h clas count = Ok n →
  n = (count + length (fields_on_chain fuel h clas 0))%nat.
Proof.
  revert clas count. induction fuel as [|fuel IH]; intros [c|] count; simpl;
    try done; try (intros [= <-]; lia).
  intros H. bind_inv H k Hk. unfold deref in Hk.
  destruct (h !! c) as [k0|] eqn:Hl; [|done]. injection Hk as ->.
  bind_inv H c1 Hc1. rewrite count_backwards_spec in Hc1 by done.
  injection Hc1 as <-. apply IH in H. rewrite length_app, length_fmap.
  rewrite (selected_ext _ _ field_public) by (intros f; apply public_or_declared_0).
  lia.
Qed.

Lemma add_fields_spec (fuel : nat) (declared : Z) :
  ∀ (clas : option ClassRef) arr ptr vm arr' ptr' vm',
    add_fields fuel clas declared arr ptr vm = Ok (Done (arr', ptr'), vm') →
    same_outside_pools (vm_classes vm) (vm_classes vm')
    ∧ ∃ objs,
        filled arr ptr objs arr' ∧ ptr' = (ptr + length objs)%nat
        ∧ field_key <$> objs = fields_on_chain fuel (vm_classes vm) clas declared
        ∧ ∀ o, o ∈ objs →
               ∃ k fld, vm_classes vm !! rf_clazz o = Some k
                        ∧ c_fields k !! rf_slot o = Some fld
                        ∧ rf_name o = f_name fld.
Proof.
  induction fuel as [|fuel IH]; intros [c|] arr ptr vm arr' ptr' vm'; simpl; try done.
  - intros [= <- <- <-]. split; [apply same_outside_pools_refl|].
    exists []. split; [apply filled_nil|]. split; [simpl; lia|]. split; [done|].
    intros o Ho. by apply not_elem_of_nil in Ho.
  - intros H. apply vm_bind_Done in H as (n & vm0 & Hn & H).
    apply vm_read_Ok in Hn as (-> & n0 & [= <-] & Hn).
    bind_inv Hn fld Hfld. injection Hn as <-.
    apply vm_bind_Done in H as (w & vm1 & Hw & H). destruct w as [arr1 ptr1].
    apply (fill_backwards_spec _ _ _ rf_slot
             (λ h o, rf_clazz o = c
                     ∧ ∃ k f, h !! rf_clazz o = Some k ∧ c_fields k !! rf_slot o = Some f
                              ∧ rf_name o = f_name f))
      with (tbl := fld) in Hw as (Hf1 & o1 & Hfill1 & -> & Hk1 & Ho1); try done.
    2:{ intros h h' Hs. by apply fields_of_frame. }
    2:{ intros h h' o Hs (Hc & k' & f & Hk' & Hf & Hname). split; [done|].
        destruct (h !! rf_clazz o) as [k|] eqn:Hk.
        - destruct (same_outside_pools_lookup h h' _ k Hs Hk)
            as (k2 & Hk2 & _ & _ & _ & _ & Hfl & _).
          rewrite Hk' in Hk2. injection Hk2 as <-. exists k, f. by rewrite <- Hfl.
        - specialize (Hs (rf_clazz o)). rewrite Hk, Hk' in Hs. done. }
    2:{ intros i. apply framed_makeField. }
    2:{ intros i vm1' vm2' o Ho.
        apply makeField_Done in Ho as (Hc & Hs & k & f & Hk & Hf & Hname & _).
        split; [done|]. split; [done|]. exists k, f. by rewrite Hc, Hs. }
    apply fields_of_Ok in Hfld.
    destruct (vm_classes vm !! c) as [k|] eqn:Hl; [|done]. injection Hfld as <-.
    assert (Hkeys1 : field_key <$> o1
                     = (λ i, (c, i)) <$>
                       selected (c_fields k)
                         (λ f, public_or_declared (f_accflags f) declared)
                         (length (c_fields k))).
    { rewrite <- Hk1, <- list_fmap_compose. apply Forall_fmap_ext_1, Forall_forall.
      intros o Ho. apply Ho1 in Ho as [Hc _]. unfold field_key. simpl. by rewrite Hc. }
    destruct (negb (declared =? 0)).
    + injection H as <- <- <-. split; [done|]. exists o1.
      rewrite app_nil_r. split; [done|]. split; [done|]. split; [done|].
      intros o Ho. by apply Ho1.
    + apply vm_bind_Done in H as (super & vm2 & Hs & H).
      apply vm_read_Ok in Hs as (-> & s0 & [= <-] & Hs).
      bind_inv Hs k1 Hk1'. injection Hs as <-. unfold deref in Hk1'.
      destruct (vm_classes vm1 !! c) as [k1'|] eqn:Hl1; [|done]. injection Hk1' as ->.
      simpl in H. apply IH in H as (Hf2 & o2 & Hfill2 & -> & Hk2 & Ho2).
      destruct (same_outside_pools_lookup _ _ c k Hf1 Hl)
        as (k' & Hk' & _ & Hsup & _ & _ & Hfl & _).
      rewrite Hl1 in Hk'. injection Hk' as <-.
      split; [by eapply same_outside_pools_trans|].
      exists (o1 ++ o2). split; [by eapply filled_app|].
      split; [rewrite length_app; lia|]. split.
      * rewrite fmap_app, Hkeys1, Hk2. f_equal.
        by rewrite (fields_on_chain_frame fuel _ _ _ declared Hf1), Hsup.
      * intros o Ho. apply elem_of_app in Ho as [Ho|Ho]; [by apply Ho1|].
        destruct (Ho2 o Ho) as (k2 & f & Hk2' & Hf & Hname).
        destruct (vm_classes vm !! rf_clazz o) as [k0|] eqn:Hk0.
        -- destruct (same_outside_pools_lookup _ _ _ k0 Hf1 Hk0)
             as (k3 & Hk3 & _ & _ & _ & _ & Hfl3 & _).
           rewrite Hk2' in Hk3. injection Hk3 as <-. exists k0, f. by rewrite <- Hfl3.
        -- specialize (Hf1 (rf_clazz o)). rewrite Hk0, Hk2' in Hf1. done.
  - intros [= <- <- <-]. split; [apply same_outside_pools_refl|].
    exists []. split; [apply filled_nil|]. split; [simpl; lia|]. split; [done|].
    intros o Ho. by apply not_elem_of_nil in Ho.
Qed.

Lemma fields_length_read (clas : ClassRef) (vm vm' : Machine) (r : Exc nat) :
  vm_read (λ h, let* fld := fields_of clas h in Ok (length fld)) vm = Ok (r, vm') →
  vm' = vm ∧ ∃ k, vm_classes vm !! clas = Some k ∧ r = Done (length (c_fields k)).
Proof.
  intros H. apply vm_read_Ok in H as (-> & n & -> & Hn). split; [done|].
  bind_inv Hn fld Hfld. injection Hn as <-. apply fields_of_Ok in Hfld.
  destruct (vm_classes vm !! clas) as [k|]; [|done]. injection Hfld as <-.
  by exists k.
Qed.

Lemma add_fields_resize (fuel : nat) (declared : Z) :
  ∀ (clas : option ClassRef) arr1 ptr1 arr2 ptr2 vm r1 vm',
    add_fields fuel clas declared arr1 ptr1 vm = Ok (r1, vm') →
    (ptr2 + length (fields_on_chain fuel (vm_classes vm) clas declared)
     ≤ length arr2)%nat →
    ∃ r2, add_fields fuel clas declared arr2 ptr2 vm = Ok (r2, vm')
          ∧ same_end r1 r2 arr2 ptr2
              (length (fields_on_chain fuel (vm_classes vm) clas declared)).
Proof.
  induction fuel as [|fuel IH]; intros [c|] arr1 ptr1 arr2 ptr2 vm r1 vm';
    cbn [add_fields fields_on_chain]; try done.
  - intros H _. by apply (same_end_nothing arr1 _ ptr1).
  - intros H Hroom.
    apply vm_bind_Ok in H as (rn & vm0 & Hn & H).
    rewrite (vm_bind_eq _ _ _ _ _ Hn).
    apply fields_length_read in Hn as (-> & k & Hk & ->).
    rewrite Hk in *. rewrite length_app, length_fmap in *.
    apply vm_bind_Ok in H as (rw & vm1 & Hw & H).
    assert (Hf1 := framed_fill_backwards _ _ _ _
                     ltac:(intros i; apply framed_makeField) _ _ _ _ _ Hw).
    apply (fill_backwards_resize _ _ _
             ltac:(intros h h' Hs; by apply fields_of_frame)
             ltac:(intros i; apply framed_makeField)
             (c_fields k) _ ltac:(done) _ _ arr2 ptr2) in Hw
      as (rw2 & Hw2 & Hend1); [|apply fields_of_Ok; by rewrite Hk|lia].
    rewrite (vm_bind_eq _ _ _ _ _ Hw2).
    destruct rw as [w1|e].
    2:{ simpl in Hend1. subst rw2. destruct H as [-> ->]. by exists (Raised e). }
    destruct Hend1 as (a2 & -> & Hlen2). cbn [fst snd].
    destruct (negb (declared =? 0)).
    + injection H as <- <-. eexists. split; [done|]. exists a2. split; [|done].
      simpl. do 2 f_equal. lia.
    + apply vm_bind_Ok in H as (rs & vm2 & Hs & H).
      rewrite (vm_bind_eq _ _ _ _ _ Hs).
      apply vm_read_Ok in Hs as (-> & super & -> & Hs).
      bind_inv Hs k1 Hk1. injection Hs as <-. unfold deref in Hk1.
      destruct (vm_classes vm1 !! c) as [k1'|] eqn:Hl1; [|done]. injection Hk1 as ->.
      destruct (same_outside_pools_lookup _ _ c k Hf1 Hk)
        as (k' & Hk' & _ & Hsup & _).
      rewrite Hl1 in Hk'. injection Hk' as <-. rewrite Hsup in *.
      rewrite <- (fields_on_chain_frame fuel _ _ (c_superclass k) declared Hf1) in *.
      apply (IH _ _ _ a2
               (ptr2 + length (selected (c_fields k)
                                 (λ f, public_or_declared (f_accflags f) declared)
                                 (length (c_fields k))))%nat)
        in H as (r2 & Hr2 & Hend); [|lia].
      exists r2. split; [done|]. by apply (same_end_then _ _ _ a2).
  - intros H _. by apply (same_end_nothing arr1 _ ptr1).
Qed.

Lemma count_fields_spec (fuel : nat) (h : Arena) (clazz : ClassRef) (declared : Z)
    (count : nat) :
  count_fields (S fuel) h clazz declared = Ok count →
  count = length (fields_on_chain (S fuel) h (Some clazz) declared).
Proof.
  unfold count_fields. destruct (negb (declared =? 0)) eqn:Hd.
  - intros H. bind_inv H fld Hfld. injection H as <-. apply fields_of_Ok in Hfld.
    simpl. destruct (h !! clazz) as [k|]; [|done]. injection Hfld as <-.
    rewrite Hd, app_nil_r, length_fmap. symmetry. apply selected_all; [|done].
    intros f. apply public_or_declared_set. by apply negb_true_iff, Z.eqb_neq in Hd.
  - intros H. apply count_public_fields_spec in H.
    apply negb_false_iff, Z.eqb_eq in Hd. by subst declared.
Qed.

(** X22: the array of fields is exactly filled, and is never overrun.
    When [java_lang_Class_getFields0] returns an array, no slot of it is
    null and its objects stand, in order, for the public fields of the
    class and of each of its superclasses, nearest class first and each
    table from its last slot to its first, or, with [declared] set, for
    all the fields of the class alone; each object carries the name of
    its field.  And the array allocated from the count, which is taken
    by a different rule in each mode, is large enough: whenever the
    counting pass returns and the filling pass, run on an array of any
    size, comes to an end, [java_lang_Class_getFields0] comes to the same
    end, an array or the same error, with the same machine. *)
Theorem getFields0_array_is_exactly_filled
    (fuel : nat) (clazz : ClassRef) (declared : Z) (vm : Machine) :
  (∀ arr vm',
     java_lang_Class_getFields0 fuel clazz declared vm = Ok (Done arr, vm') →
     same_outside_pools (vm_classes vm) (vm_classes vm')
     ∧ ∃ objs,
         arr = Some <$> objs
         ∧ field_key <$> objs
           = fields_on_chain fuel (vm_classes vm) (Some clazz) declared
         ∧ (declared ≠ 0 →
            ∃ k, vm_classes vm !! clazz = Some k
                 ∧ field_key <$> objs
                   = (λ i, (clazz, i)) <$> rev (seq 0 (length (c_fields k))))
         ∧ ∀ o, o ∈ objs →
                ∃ k fld, vm_classes vm !! rf_clazz o = Some k
                         ∧ c_fields k !! rf_slot o = Some fld
                         ∧ rf_name o = f_name fld
                         ∧ (declared = 0 → Z.land (f_accflags fld) ACC_PUBLIC ≠ 0))
  ∧ (∀ N count r vm',
       count_fields fuel (vm_classes vm) clazz declared = Ok count →
       add_fields fuel (Some clazz) declared (replicate N None) 0 vm = Ok (r, vm') →
       ∃ r', java_lang_Class_getFields0 fuel clazz declared vm = Ok (r', vm')
             ∧ same_outcome r r').
Proof.
  split.
  - unfold java_lang_Class_getFields0. intros arr vm' H.
    apply vm_bind_Done in H as (count & vm0 & Hc & H).
    apply vm_read_Ok in Hc as (-> & c0 & [= <-] & Hc).
    apply vm_bind_Done in H as (w & vm1 & Hw & H). injection H as <- <-.
    destruct w as [arr' ptr'].
    assert (Hfuel : ∃ fuel', fuel = S fuel').
    { destruct fuel as [|fuel']; [done|by exists fuel']. }
    destruct Hfuel as [fuel' ->].
    assert (Hc0 := Hc). apply count_fields_spec in Hc.
    apply add_fields_spec in Hw as (Hf & objs & Hfill & _ & Hkeys & Hobjs).
    assert (Hsel : ∀ o, o ∈ objs →
              ∃ k, vm_classes vm !! rf_clazz o = Some k
                   ∧ rf_slot o ∈ selected (c_fields k)
                       (λ f, public_or_declared (f_accflags f) declared)
                       (length (c_fields k))).
    { intros o Ho.
      assert (Hin : field_key o ∈ field_key <$> objs) by (by apply list_elem_of_fmap_2).
      rewrite Hkeys in Hin. clear -Hin.
      generalize (Some clazz) Hin. clear Hin. generalize (S fuel') as fuel.
      induction fuel as [|fuel IH]; intros [c|] Hin; simpl in Hin;
        try (by apply not_elem_of_nil in Hin).
      destruct (vm_classes vm !! c) as [k|] eqn:Hk; [|by apply not_elem_of_nil in Hin].
      apply elem_of_app in Hin as [Hin|Hin].
      - apply list_elem_of_fmap in Hin as (i & Hi & Hsel).
        unfold field_key in Hi. injection Hi as -> ->. by exists k.
      - destruct (negb (declared =? 0)); [by apply not_elem_of_nil in Hin|].
        by apply (IH (c_superclass k)). }
    split; [done|]. exists objs. split; [|split; [done|split]].
    + apply (filled_all count); [done|]. by rewrite Hc, <- Hkeys, length_fmap.
    + intros Hd. cbn [fields_on_chain] in Hkeys, Hc.
      destruct (vm_classes vm !! clazz) as [k|] eqn:Hl.
      * exists k. split; [done|]. rewrite Hkeys.
        apply Z.eqb_neq in Hd. rewrite Hd. simpl. rewrite app_nil_r. f_equal.
        apply selected_all_seq; [|done]. intros f. apply public_or_declared_set.
        by apply Z.eqb_neq.
      * exfalso. unfold count_fields in Hc0.
        apply Z.eqb_neq in Hd. rewrite Hd in Hc0. simpl in Hc0.
        bind_inv Hc0 fld Hfld. apply fields_of_Ok in Hfld. by rewrite Hl in Hfld.
    + intros o Ho. destruct (Hobjs o Ho) as (k & fld & Hk & Hfld & Hname).
      exists k, fld. split; [done|]. split; [done|]. split; [done|].
      destruct (Hsel o Ho) as (k' & Hk' & Hin). rewrite Hk in Hk'. injection Hk' as <-.
      apply selected_elem in Hin as (_ & f & Hf' & Ht). rewrite Hfld in Hf'.
      injection Hf' as <-. by apply public_or_declared_public.
  - intros N count r vm' Hc Hw. unfold java_lang_Class_getFields0.
    rewrite (vm_bind_eq _ _ _ _ _ (vm_read_eq _ vm count Hc)).
    assert (Hfuel : ∃ fuel', fuel = S fuel').
    { destruct fuel as [|fuel']; [done|by exists fuel']. }
    destruct Hfuel as [fuel' ->].
    apply count_fields_spec in Hc.
    apply (add_fields_resize _ _ _ _ _ (replicate count None) 0%nat) in Hw
      as (r2 & Hr2 & Hend); [|rewrite length_replicate; lia].
    rewrite (vm_bind_eq _ _ _ _ _ Hr2).
    destruct r as [w|e]; simpl in Hend.
    + destruct Hend as (a2 & -> & _). eexists. split; [done|]. by eexists.
    + subst r2. by exists (Raised e).
Qed.




(** *** Comparing parameter types *)

Lemma checkParameters_loop_spec (m : Method) (args : list ClassRef) :
  ∀ (i0 : nat) (vm vm' : Machine) (r : Exc bool),
    checkParameters_loop m args i0 vm = Ok (r, vm') →
    vm_classes vm' = vm_classes vm ∧ vm_trace vm' = vm_trace vm
    ∧ ∃ b, r = Done b
           ∧ (b = true →
              ∀ i a, args !! i = Some a →
                     ∃ k ext, vm_classes vm !! m_class m = Some k
                              ∧ (getClassFromSignature (METHOD_ARG_TYPE m (i0 + i))
                                   (c_loader k) ext).1 = Loaded a).
Proof.
  induction args as [|a rest IH]; intros i0 vm vm' r; simpl.
  - intros [= <- <-]. split; [done|]. split; [done|]. exists true. split; [done|].
    intros _ i a' Hi. by rewrite lookup_nil in Hi.
  - intros H. apply vm_bind_Ok in H as (ra & vm1 & Hr & H).
    unfold loader_of in Hr. apply vm_read_Ok in Hr as (-> & loader & -> & Hloader).
    bind_inv Hloader k Hk. injection Hloader as <-. unfold deref in Hk.
    destruct (vm_classes vm !! m_class m) as [k0|] eqn:Hl; [|done]. injection Hk as ->.
    destruct (getClassFromSignature (METHOD_ARG_TYPE m i0) (c_loader k) (vm_ext vm))
      as [res ext'] eqn:Hres.
    simpl in H. destruct res as [sigclass|e].
    + destruct (bool_decide (sigclass = a)) eqn:Hsame.
      * apply bool_decide_eq_true in Hsame. subst sigclass.
        apply IH in H as (Hc & Ht & b & -> & Hb). simpl in Hc, Ht.
        split; [done|]. split; [done|]. exists b. split; [done|].
        intros Htrue [|i] a' Hi; simpl in Hi.
        -- injection Hi as <-. exists k, (vm_ext vm). split; [done|].
           by rewrite Nat.add_0_r, Hres.
        -- destruct (Hb Htrue i a' Hi) as (k' & ext & Hk' & Hld). simpl in Hk'.
           rewrite Hl in Hk'. injection Hk' as <-. exists k, ext. split; [done|].
           by replace (i0 + S i)%nat with (S i0 + i)%nat by lia.
      * injection H as <- <-. split; [done|]. split; [done|]. by exists false.
    + injection H as <- <-. split; [done|]. split; [done|]. by exists false.
Qed.



Lemma checkParameters_true (mth : MethodRef) (argtypes : option (list ClassRef))
    (vm vm' : Machine) (r : Exc bool) :
  checkParameters mth argtypes vm = Ok (r, vm') →
  vm_classes vm' = vm_classes vm ∧ vm_trace vm' = vm_trace vm
  ∧ ∃ b, r = Done b
         ∧ (b = true → ∃ m, method_at (vm_classes vm) mth = Some m
                            ∧ same_arity argtypes m).
Proof.
  unfold checkParameters. intros H. apply vm_bind_Ok in H as (ra & vm1 & Hr & H).
  unfold method_record in Hr. apply vm_read_Ok in Hr as (-> & m & -> & Hm).
  assert (Hma : method_at (vm_classes vm) mth = Some m).
  { destruct (method_at (vm_classes vm) mth); simpl in Hm; congruence. }
  destruct argtypes as [args|].
  - destruct (length args =? METHOD_NARGS m)%nat eqn:Hlen; simpl in H.
    + apply checkParameters_loop_spec in H as (Hc & Ht & b & -> & Hb).
      split; [done|]. split; [done|]. exists b. split; [done|].
      intros _. exists m. split; [done|]. by apply Nat.eqb_eq in Hlen.
    + injection H as <- <-. split; [done|]. split; [done|]. by exists false.
  - destruct (METHOD_NARGS m =? 0)%nat eqn:Hn; [|done]. injection H as <- <-.
    split; [done|]. split; [done|]. exists true. split; [done|].
    intros _. exists m. split; [done|]. by apply Nat.eqb_eq in Hn.
Qed.

(** The scan of a method table stops at a slot that passes the test and
    whose arity is that of the array. *)
Lemma scan_methods_spec (test : Method → bool) (clas : ClassRef)
    (arr : option (list ClassRef)) :
  ∀ (todo i : nat) (vm vm' : Machine) (r : Exc (option nat)),
    scan_methods test clas arr todo i vm = Ok (r, vm') →
    vm_classes vm' = vm_classes vm ∧ vm_trace vm' = vm_trace vm
    ∧ ∃ found, r = Done found
               ∧ ∀ j, found = Some j →
                      (i ≤ j < i + todo)%nat
                      ∧ ∃ m, method_at (vm_classes vm) (clas, j) = Some m
                             ∧ test m = true ∧ same_arity arr m.
Proof.
  induction todo as [|todo IH]; intros i vm vm' r; simpl.
  - intros [= <- <-]. split; [done|]. split; [done|]. exists None. by split.
  - intros H. apply vm_bind_Ok in H as (ra & vm1 & Hr & H).
    unfold method_record in Hr. apply vm_read_Ok in Hr as (-> & m & -> & Hm).
    assert (Hma : method_at (vm_classes vm) (clas, i) = Some m).
    { destruct (method_at (vm_classes vm) (clas, i)); simpl in Hm; congruence. }
    assert (Hnext : ∀ vm1, vm_classes vm1 = vm_classes vm → vm_trace vm1 = vm_trace vm →
              scan_methods test clas arr todo (S i) vm1 = Ok (r, vm') →
              vm_classes vm' = vm_classes vm ∧ vm_trace vm' = vm_trace vm
              ∧ ∃ found, r = Done found
                         ∧ ∀ j, found = Some j →
                                (i ≤ j < i + S todo)%nat
                                ∧ ∃ m, method_at (vm_classes vm) (clas, j) = Some m
                                       ∧ test m = true ∧ same_arity arr m).
    { intros vm1 Hc1 Ht1 Hs. apply IH in Hs as (Hc & Ht & found & -> & Hfound).
      split; [congruence|]. split; [congruence|]. exists found. split; [done|].
      intros j Hj. destruct (Hfound j Hj) as (Hrange & m' & Hm' & Hrest).
      split; [lia|]. exists m'. by rewrite <- Hc1. }
    destruct (test m) eqn:Htest; [|by apply (Hnext vm)].
    apply vm_bind_Ok in H as (rb & vm2 & Hchk & H).
    apply checkParameters_true in Hchk as (Hc2 & Ht2 & b & -> & Hb).
    destruct b; [|by apply (Hnext vm2)].
    injection H as <- <-. split; [done|]. split; [done|]. exists (Some i).
    split; [done|]. intros j [= <-]. split; [lia|].
    destruct (Hb eq_refl) as (m' & Hm' & Har). rewrite Hma in Hm'.
    injection Hm' as <-. by exists m.
Qed.

(** X25: the method found by name.  A method object returned by
    [java_lang_Class_getMethod0] stands for a method of a class of the
    superclass chain, of the class itself when [declared] is set, whose
    name is the one asked for, which is public unless [declared] is set,
    and which has as many arguments as the array has entries; the object
    carries the name of the method, and outside the constant pools the
    arena is as before. *)
Theorem getMethod0_returns_a_named_method
    (fuel : nat) (this : ClassRef) (name : string) (arr : option (list ClassRef))
    (declared : Z) (vm vm' : Machine) (o : Hjava_lang_reflect_Method) :
  java_lang_Class_getMethod0 fuel this name arr declared vm = Ok (Done o, vm') →
  same_outside_pools (vm_classes vm) (vm_classes vm')
  ∧ ∃ n m,
      nth_super (vm_classes vm) this n = Some (rm_clazz o)
      ∧ (declared ≠ 0 → n = 0%nat)
      ∧ method_at (vm_classes vm) (method_key o) = Some m
      ∧ rm_name o = m_name m
      ∧ utf8ConstEqualJavaString (m_name m) name = true
      ∧ (declared = 0 → Z.land (m_accflags m) ACC_PUBLIC ≠ 0)
      ∧ same_arity arr m.
Proof.
  unfold java_lang_Class_getMethod0. revert this vm.
  induction fuel as [|fuel IH]; intros this vm; simpl; [done|].
  intros H. apply vm_bind_Done in H as (n & vm0 & Hn & H).
  apply methods_length_read in Hn as (-> & k & Hk & [= ->]).
  apply vm_bind_Done in H as (found & vm1 & Hscan & H).
  apply scan_methods_spec in Hscan as (Hc1 & Ht1 & found' & [= <-] & Hfound).
  destruct found as [i|].
  - destruct (Hfound i eq_refl) as (_ & m & Hm & Htest & Har).
    assert (Hfr := framed_makeMethod this i _ _ _ H). rewrite Hc1 in Hfr.
    apply makeMethod_Done in H as (Hcl & Hsl & m' & Hm' & Hname).
    rewrite Hc1, Hm in Hm'. injection Hm' as <-.
    split; [done|]. exists 0%nat, m. unfold method_key. rewrite Hcl, Hsl.
    split; [done|]. split; [done|]. split; [done|]. split; [done|].
    unfold named_method in Htest. apply andb_true_iff in Htest as [Hpd Heq].
    split; [done|]. split; [|done]. by apply public_or_declared_public.
  - apply vm_bind_Done in H as (super & vm2 & Hs & H).
    apply vm_read_Ok in Hs as (-> & s0 & [= <-] & Hs).
    bind_inv Hs k1 Hk1. injection Hs as <-. unfold deref in Hk1.
    rewrite Hc1, Hk in Hk1. injection Hk1 as <-.
    destruct (c_superclass k) as [s|] eqn:Hsup; [|done].
    destruct (declared =? 0) eqn:Hd; [|done]. apply Z.eqb_eq in Hd.
    apply IH in H as (Hfr & n & m & Hn & _ & Hrest). rewrite Hc1 in Hfr, Hn, Hrest.
    split; [done|]. exists (S n), m. split; [by rewrite (nth_super_step _ _ s k)|].
    split; [intros Hne; by destruct Hne|]. done.
Qed.

(** X26: the constructor found by its parameters.  A constructor object
    returned by [java_lang_Class_getConstructor0] belongs to the class
    itself and stands for a method of its table that has the constructor
    flag, is public unless [declared] is set, and has as many arguments
    as the array has entries; superclasses are never searched. *)
Theorem getConstructor0_returns_own_constructor
    (this : ClassRef) (arr : option (list ClassRef)) (declared : Z)
    (vm vm' : Machine) (o : Hjava_lang_reflect_Constructor) :
  java_lang_Class_getConstructor0 this arr declared vm = Ok (Done o, vm') →
  same_outside_pools (vm_classes vm) (vm_classes vm')
  ∧ rc_clazz o = this
  ∧ ∃ m, method_at (vm_classes vm) (this, rc_slot o) = Some m
         ∧ Z.land (m_accflags m) ACC_CONSTRUCTOR ≠ 0
         ∧ (declared = 0 → Z.land (m_accflags m) ACC_PUBLIC ≠ 0)
         ∧ same_arity arr m.
Proof.
  unfold java_lang_Class_getConstructor0. intros H.
  apply vm_bind_Done in H as (n & vm0 & Hn & H).
  apply methods_length_read in Hn as (-> & k & Hk & [= ->]).
  apply vm_bind_Done in H as (found & vm1 & Hscan & H).
  apply scan_methods_spec in Hscan as (Hc1 & Ht1 & found' & [= <-] & Hfound).
  destruct found as [i|]; [|done].
  destruct (Hfound i eq_refl) as (_ & m & Hm & Htest & Har).
  assert (Hfr := framed_makeConstructor this i _ _ _ H). rewrite Hc1 in Hfr.
  apply makeConstructor_Done in H as [Hcl Hsl].
  split; [done|]. split; [done|]. exists m. rewrite Hsl. split; [done|].
  unfold reported_constructor in Htest. apply andb_true_iff in Htest as [Hpd Hctor].
  split; [by apply negb_true_iff, Z.eqb_neq in Hctor|].
  split; [|done]. by apply public_or_declared_public.
Qed.

End MemberProperties.

Lemma getConstructors0_reports_own_constructors_witness :
  (same_outside_pools (vm_classes Mirror.vm) (vm_classes Mirror.vm)
   ∧ ∃ k objs,
       vm_classes Mirror.vm !! Mirror.Base = Some k
       ∧ [Some (mkReflectConstructor Mirror.Base 0 [] [])] = Some <$> objs
       ∧ rc_slot <$> objs
         = selected (c_methods k) (reported_constructor 0) (length (c_methods k))
       ∧ ∀ o, o ∈ objs →
              rc_clazz o = Mirror.Base
              ∧ ∃ m, c_methods k !! rc_slot o = Some m
                     ∧ Z.land (m_accflags m) ACC_CONSTRUCTOR ≠ 0
                     ∧ (0 = 0 → Z.land (m_accflags m) ACC_PUBLIC ≠ 0))
  ∧ ∃ r', java_lang_Class_getConstructors0 Mirror.Base 0 Mirror.vm
            = Ok (r', Mirror.vm)
          ∧ same_outcome
              (Done ([Some (mkReflectConstructor Mirror.Base 0 [] []); None; None],
                     1%nat))
              r'.
Proof.
  destruct (@getConstructors0_reports_own_constructors TableCollab TableReflection
              Mirror.Base 0 Mirror.vm) as [Ha Hb].
  split.
  - apply Ha. by vm_compute.
  - apply (Hb 3%nat 1%nat); by vm_compute.
Defined.

Lemma getFields0_array_is_exactly_filled_witness :
  (same_outside_pools (vm_classes Mirror.vm) (vm_classes Mirror.vm)
   ∧ ∃ objs,
       [Some (mkReflectField Mirror.Base 0 Mirror.Int "count")] = Some <$> objs
       ∧ field_key <$> objs
         = fields_on_chain 3 (vm_classes Mirror.vm) (Some Mirror.Base) 0
       ∧ (0 ≠ 0 →
          ∃ k, vm_classes Mirror.vm !! Mirror.Base = Some k
               ∧ field_key <$> objs
                 = (λ i, (Mirror.Base, i)) <$> rev (seq 0 (length (c_fields k))))
       ∧ ∀ o, o ∈ objs →
              ∃ k fld, vm_classes Mirror.vm !! rf_clazz o = Some k
                       ∧ c_fields k !! rf_slot o = Some fld
                       ∧ rf_name o = f_name fld
                       ∧ (0 = 0 → Z.land (f_accflags fld) ACC_PUBLIC ≠ 0))
  ∧ ∃ r', java_lang_Class_getFields0 3 Mirror.Base 0 Mirror.vm = Ok (r', Mirror.vm)
          ∧ same_outcome
              (Done ([Some (mkReflectField Mirror.Base 0 Mirror.Int "count");
                      None; None; None], 1%nat))
              r'.
Proof.
  destruct (@getFields0_array_is_exactly_filled TableCollab TableReflection 3%nat
              Mirror.Base 0 Mirror.vm) as [Ha Hb].
  split.
  - apply Ha. by vm_compute.
  - apply (Hb 4%nat 1%nat); by vm_compute.
Defined.



Lemma getMethod0_returns_a_named_method_witness :
  same_outside_pools (vm_classes Mirror.vm) (vm_classes Mirror.vm)
  ∧ ∃ n m,
      nth_super (vm_classes Mirror.vm) Mirror.Base n
        = Some (rm_clazz (Mirror.method_object Mirror.Object 1 "hashCode" []))
      ∧ (0 ≠ 0 → n = 0%nat)
      ∧ method_at (vm_classes Mirror.vm)
          (method_key (Mirror.method_object Mirror.Object 1 "hashCode" [])) = Some m
      ∧ rm_name (Mirror.method_object Mirror.Object 1 "hashCode" []) = m_name m
      ∧ utf8ConstEqualJavaString (m_name m) "hashCode" = true
      ∧ (0 = 0 → Z.land (m_accflags m) ACC_PUBLIC ≠ 0)
      ∧ same_arity None m.
Proof.
  apply (@getMethod0_returns_a_named_method TableCollab TableReflection 3%nat
           Mirror.Base "hashCode" None 0 Mirror.vm Mirror.vm
           (Mirror.method_object Mirror.Object 1 "hashCode" [])).
  by vm_compute.
Defined.

Lemma getConstructor0_returns_own_constructor_witness :
  same_outside_pools (vm_classes Mirror.vm) (vm_classes Mirror.vm)
  ∧ rc_clazz (mkReflectConstructor Mirror.Base 0 [] []) = Mirror.Base
  ∧ ∃ m, method_at (vm_classes Mirror.vm)
           (Mirror.Base, rc_slot (mkReflectConstructor Mirror.Base 0 [] [])) = Some m
         ∧ Z.land (m_accflags m) ACC_CONSTRUCTOR ≠ 0
         ∧ (0 = 0 → Z.land (m_accflags m) ACC_PUBLIC ≠ 0)
         ∧ same_arity None m.
Proof.
  apply (@getConstructor0_returns_own_constructor TableCollab TableReflection
           Mirror.Base None 0 Mirror.vm Mirror.vm
           (mkReflectConstructor Mirror.Base 0 [] [])).
  by vm_compute.
Defined.

